(** * website-reports: the monthly report pipeline, embedded and verified

    A shallow embedding of the report generation pipeline of the
    Cloudflare Worker (period.ts, cloudflare.ts, pagespeed.ts, reporting.ts,
    the helpers of template.ts and the routes of index.ts) together with
    the properties its specification states and further properties of the
    code.

    Conventions of the embedding.
    - A JavaScript [Date] is its time value: milliseconds since the epoch,
      an integer ([Z]); the calendar functions are those of ECMA-262
      (Day, YearFromTime, MonthFromTime, DateFromTime, MakeDay, MakeDate).
      TimeClip is written out where a date is read from a string
      ([Date_parse]); the dates the pipeline computes from there stay far
      inside the range on which TimeClip is the identity.
    - Counts delivered by the analytics API (requests, uniques, bytes,
      event counts) are integers ([Z]).  Numbers that the code divides or
      rounds (percentages, raw Lighthouse scores, random draws) are the
      rationals they denote ([Q]).  Where the result of a double
      operation is kept or compared (the percentage of [withDelta], the
      product in [normalizeScore]), the operation rounds to the nearest
      double ([roundDouble]); counts stay below 2^53 and all quantities
      far inside the exponent range, so neither is written out.  The
      other arithmetic is exact: a byte count divided by 1024 is exact in
      doubles too, and of the random maintenance figures only the ranges
      are stated.
    - Strings are [string]; a thrown value is carried with the two readings
      the code takes of it ([error.message] and [String(error)]).
    - An [async] function that can reject returns a [Result]; the outcome of
      each network call is read from an explicit record of upstream answers.
    - The repository holds two states of reporting.ts and of pagespeed.ts.
      The later ones are embedded: reporting.ts with the maintenance
      section and the run records, pagespeed.ts with vitals and
      opportunities.  The earlier pagespeed.ts computes the scores and the
      warnings in the same way; where the earlier reporting.ts differs
      ([safeFetchSecurity]) it is embedded next to the later one. *)

From Stdlib Require Import ZArith QArith Qround Qabs Qpower Lia Lqa Bool List.
From Stdlib Require Import Ascii String DecimalString.
From Stdlib Require Import Sorted Permutation.
Import ListNotations.

Local Open Scope Z_scope.

(* ===================================================================== *)
(** * The JavaScript runtime the pipeline relies on *)
(* ===================================================================== *)

Module Js.

(** ** Results of fallible (throwing or rejecting) computations *)

Record JsError := mkError { errMessage : string; errString : string }.

(** [new Error(message)]: [String(error)] reads "Error: " followed by the
    message. *)
Definition newError (message : string) : JsError :=
  mkError message ("Error: " ++ message).

Inductive Result (A : Type) : Type :=
| Ok (value : A)
| Throw (error : JsError).
Arguments Ok {A} value.
Arguments Throw {A} error.

Definition bind {A B} (r : Result A) (k : A -> Result B) : Result B :=
  match r with
  | Ok a => k a
  | Throw e => Throw e
  end.

Notation "x <- r ;; k" := (bind r (fun x => k))
  (at level 61, r at next level, right associativity).

(** ** Strings *)

Definition isDigit (c : ascii) : bool :=
  let n := nat_of_ascii c in (48 <=? n)%nat && (n <=? 57)%nat.

Definition digitValue (c : ascii) : Z := Z.of_nat (nat_of_ascii c) - 48.

Definition digitChar (d : Z) : ascii := ascii_of_nat (Z.to_nat (d + 48)).

(** [String(n)] for an integer. *)
Definition numberToString (n : Z) : string :=
  NilEmpty.string_of_int (Z.to_int n).

(** [s.padStart(2, "0")] for the decimal reading of a non-negative integer:
    one digit gets a leading zero, longer readings are unchanged. *)
Definition padStart2 (s : string) : string :=
  match s with
  | String c EmptyString => String "0" (String c EmptyString)
  | EmptyString => "00"
  | _ => s
  end.

(** [s.slice(0, n)]. *)
Fixpoint sliceTo (n : nat) (s : string) : string :=
  match n, s with
  | O, _ => EmptyString
  | S k, EmptyString => EmptyString
  | S k, String c rest => String c (sliceTo k rest)
  end.

(** [s.includes(needle)]. *)
Fixpoint includes (needle s : string) : bool :=
  if prefix needle s then true
  else match s with
       | EmptyString => false
       | String _ rest => includes needle rest
       end.

(** [s.toLowerCase()] on the ASCII letters. *)
Definition lowerChar (c : ascii) : ascii :=
  let n := nat_of_ascii c in
  if (65 <=? n)%nat && (n <=? 90)%nat then ascii_of_nat (n + 32) else c.

Fixpoint toLowerCase (s : string) : string :=
  match s with
  | EmptyString => EmptyString
  | String c rest => String (lowerChar c) (toLowerCase rest)
  end.

(** ** Numbers *)

(** 2 to the power [e]. *)
Definition pow2 (e : Z) : Q := Qpower 2 e.

(** The exponent of the last place of the significand of a double
    precision number [x] other than 0: the [e] with
    2^52 <= |x| / 2^e < 2^53. *)
Definition lastPlace (x : Q) : Z :=
  let k := Z.log2 (Z.abs (Qnum x)) - Z.log2 (Z.pos (Qden x)) in
  if Qle_bool (pow2 k) (Qabs x) then k - 52 else k - 53.

(** The nearest integer, the even one of the two on a tie. *)
Definition roundTiesToEven (s : Q) : Z :=
  let f := Qfloor s in
  match Qcompare (s - inject_Z f) (1 # 2) with
  | Lt => f
  | Gt => f + 1
  | Eq => if Z.even f then f else f + 1
  end.

(** The double nearest to [x]: [x] rounded to 53 significant bits, ties
    to the even significand (roundTiesToEven of IEEE 754). *)
Definition roundDouble (x : Q) : Q :=
  if Qeq_bool x 0 then 0%Q
  else
    let e := lastPlace x in
    Qred (inject_Z (roundTiesToEven (x * pow2 (- e))) * pow2 e).

(** [x - y], [x * y] and [x / y] on doubles. *)
Definition subDouble (x y : Q) : Q := roundDouble (x - y).
Definition mulDouble (x y : Q) : Q := roundDouble (x * y).
Definition divDouble (x y : Q) : Q := roundDouble (x / y).

(** [Math.round]: the nearest integer, halves towards plus infinity. *)
Definition Math_round (x : Q) : Z := Qfloor (x + (1 # 2)).

Definition Math_floor (x : Q) : Z := Qfloor x.

(** [x.toFixed(2)] read back by [parseFloat]: the nearest multiple of
    1/100, the larger one on a tie. *)
Definition toFixed2 (x : Q) : Q := Qred (inject_Z (Qfloor (x * 100 + (1 # 2))) / 100).

(** A JavaScript number: a finite value, NaN or an infinity. *)
Inductive Number :=
| Finite (q : Q)
| NaN
| Infinity (negative : bool).

(** A value of type [unknown], as far as [typeof v === "number"] tells. *)
Inductive Unknown :=
| IsNumber (n : Number)
| NotNumber.

(** [a >= b] and [a <= b] against a finite bound. *)
Definition geFinite (a : Number) (b : Q) : bool :=
  match a with
  | Finite q => Qle_bool b q
  | NaN => false
  | Infinity negative => negb negative
  end.

Definition leFinite (a : Number) (b : Q) : bool :=
  match a with
  | Finite q => Qle_bool q b
  | NaN => false
  | Infinity negative => negative
  end.

Definition gtFinite (a : Number) (b : Q) : bool :=
  match a with
  | Finite q => negb (Qle_bool q b)
  | NaN => false
  | Infinity negative => negb negative
  end.

(** A count field of an API answer, typed [number | string] and optional. *)
Inductive Scalar :=
| Absent
| Num (z : Z)
| Str (s : string).

(** The library functions the embedding does not spell out.
    - [Number_ s]: [Number(s)] when it is finite, [None] when it is not.
    - [localeCompare a b]: [a.localeCompare(b)].
    - [monthYearLabel date timezone]: the "long month, numeric year"
      reading of a valid date by [Intl.DateTimeFormat] in a time zone; the
      constructor throws on a time zone it does not know.
    - [stripLinks s]: [s.replace(/\[.*?\]\(.*?\)/g, "").trim()]. *)
Record Platform := {
  Number_ : string -> option Z;
  localeCompare : string -> string -> Z;
  monthYearLabel : Z -> string -> Result string;
  stripLinks : string -> string
}.

(** ** Dates (ECMA-262, section "Time Values and Time Range") *)

Definition msPerDay : Z := 86400000.

Definition Day (t : Z) : Z := t / msPerDay.
Definition TimeWithinDay (t : Z) : Z := t mod msPerDay.

Definition DaysInYear (y : Z) : Z :=
  if negb (y mod 4 =? 0) then 365
  else if negb (y mod 100 =? 0) then 366
  else if negb (y mod 400 =? 0) then 365
  else 366.

Definition DayFromYear (y : Z) : Z :=
  365 * (y - 1970) + (y - 1969) / 4 - (y - 1901) / 100 + (y - 1601) / 400.

Definition TimeFromYear (y : Z) : Z := msPerDay * DayFromYear y.

(** The largest year whose first day is not after day [d].  A year lasts
    146097/400 days on average, which puts the estimate within one year of
    the answer; the two comparisons settle it. *)
Definition YearFromDay (d : Z) : Z :=
  let y0 := 1970 + (400 * d) / 146097 in
  if DayFromYear (y0 + 1) <=? d then y0 + 1
  else if DayFromYear y0 <=? d then y0
  else y0 - 1.

Definition YearFromTime (t : Z) : Z := YearFromDay (Day t).

Definition InLeapYear (t : Z) : Z :=
  if DaysInYear (YearFromTime t) =? 366 then 1 else 0.

Definition DayWithinYear (t : Z) : Z := Day t - DayFromYear (YearFromTime t).

(** Day number within the year on which month [m] (0 to 11) starts. *)
Definition monthStart (leap m : Z) : Z :=
  match m with
  | 0 => 0
  | 1 => 31
  | 2 => 59 + leap
  | 3 => 90 + leap
  | 4 => 120 + leap
  | 5 => 151 + leap
  | 6 => 181 + leap
  | 7 => 212 + leap
  | 8 => 243 + leap
  | 9 => 273 + leap
  | 10 => 304 + leap
  | _ => 334 + leap
  end.

Definition monthOfDayWithinYear (leap dwy : Z) : Z :=
  if dwy <? 31 then 0
  else if dwy <? 59 + leap then 1
  else if dwy <? 90 + leap then 2
  else if dwy <? 120 + leap then 3
  else if dwy <? 151 + leap then 4
  else if dwy <? 181 + leap then 5
  else if dwy <? 212 + leap then 6
  else if dwy <? 243 + leap then 7
  else if dwy <? 273 + leap then 8
  else if dwy <? 304 + leap then 9
  else if dwy <? 334 + leap then 10
  else 11.

Definition MonthFromTime (t : Z) : Z :=
  monthOfDayWithinYear (InLeapYear t) (DayWithinYear t).

Definition DateFromTime (t : Z) : Z :=
  DayWithinYear t - monthStart (InLeapYear t) (MonthFromTime t) + 1.

(** [MakeDay(year, month, date)]: months outside 0..11 carry into the
    year, dates outside the month carry into the neighbouring months. *)
Definition MakeDay (year month date : Z) : Z :=
  let ym := year + month / 12 in
  let mn := month mod 12 in
  let leap := if DaysInYear ym =? 366 then 1 else 0 in
  DayFromYear ym + monthStart leap mn + date - 1.

Definition MakeDate (day time : Z) : Z := day * msPerDay + time.

(** [Date.UTC(year, month, date)]: a year from 0 to 99 stands for
    1900 + year. *)
Definition Date_UTC (year month date : Z) : Z :=
  let yr := if (0 <=? year) && (year <=? 99) then 1900 + year else year in
  MakeDate (MakeDay yr month date) 0.

Definition getUTCFullYear := YearFromTime.
Definition getUTCMonth := MonthFromTime.
Definition getUTCDate := DateFromTime.

(** [d.setUTCDate(date)], as the new time value. *)
Definition setUTCDate (t date : Z) : Z :=
  MakeDate (MakeDay (YearFromTime t) (MonthFromTime t) date) (TimeWithinDay t).

(** Fixed-width decimal fields of [toISOString]. *)
Definition pad2 (n : Z) : string :=
  String (digitChar (n / 10 mod 10)) (String (digitChar (n mod 10)) EmptyString).

Definition pad3 (n : Z) : string :=
  String (digitChar (n / 100 mod 10)) (pad2 n).

Definition pad4 (n : Z) : string :=
  String (digitChar (n / 1000 mod 10)) (pad3 n).

Definition pad6 (n : Z) : string :=
  String (digitChar (n / 100000 mod 10))
    (String (digitChar (n / 10000 mod 10)) (pad4 n)).

(** The year of an ISO string: four digits from 0 to 9999, otherwise the
    expanded form, a sign and six digits. *)
Definition isoYear (y : Z) : string :=
  if (0 <=? y) && (y <=? 9999) then pad4 y
  else if y <? 0 then String "-" (pad6 (- y))
  else String "+" (pad6 y).

Definition HourFromTime (t : Z) : Z := (t / 3600000) mod 24.
Definition MinFromTime (t : Z) : Z := (t / 60000) mod 60.
Definition SecFromTime (t : Z) : Z := (t / 1000) mod 60.
Definition msFromTime (t : Z) : Z := t mod 1000.

(** [d.toISOString()]: YYYY-MM-DDTHH:mm:ss.sssZ. *)
Definition toISOString (t : Z) : string :=
  isoYear (YearFromTime t) ++ "-" ++ pad2 (MonthFromTime t + 1) ++ "-"
    ++ pad2 (DateFromTime t) ++ "T" ++ pad2 (HourFromTime t) ++ ":"
    ++ pad2 (MinFromTime t) ++ ":" ++ pad2 (SecFromTime t) ++ "."
    ++ pad3 (msFromTime t) ++ "Z".

(** [Number(s)] for a string of decimal digits. *)
Fixpoint digitsValue (acc : Z) (s : string) : Z :=
  match s with
  | EmptyString => acc
  | String c rest => digitsValue (10 * acc + digitValue c) rest
  end.

Definition Number_digits (s : string) : Z := digitsValue 0 s.

Fixpoint allDigits (s : string) : bool :=
  match s with
  | EmptyString => true
  | String c rest => isDigit c && allDigits rest
  end.

(** The first [n] characters of [s] and the rest, when [s] has as many. *)
Fixpoint splitAt (n : nat) (s : string) : option (string * string) :=
  match n with
  | O => Some (EmptyString, s)
  | S n' =>
      match s with
      | EmptyString => None
      | String c rest =>
          match splitAt n' rest with
          | Some (head, tail) => Some (String c head, tail)
          | None => None
          end
      end
  end.

(** [n] decimal digits at the head of [s]: their value and the rest. *)
Definition takeDigits (n : nat) (s : string) : option (Z * string) :=
  match splitAt n s with
  | Some (head, tail) =>
      if allDigits head then Some (Number_digits head, tail) else None
  | None => None
  end.

(** [TimeClip]: a time value is at most 8.64e15 ms away from the epoch. *)
Definition TimeClip (t : Z) : option Z :=
  if Z.abs t <=? 8640000000000000 then Some t else None.

(** The year of a date string: four digits, or a sign and six digits
    (an expanded year), of which -000000 is excluded. *)
Definition parseYear (s : string) : option (Z * string) :=
  match takeDigits 4 s with
  | Some year => Some year
  | None =>
      match s with
      | String sign rest =>
          if Ascii.eqb sign "+" then takeDigits 6 rest
          else if Ascii.eqb sign "-" then
            match takeDigits 6 rest with
            | Some (year, tail) => if year =? 0 then None else Some (- year, tail)
            | None => None
            end
          else None
      | EmptyString => None
      end
  end.

(** A field of the date that may be left out: a hyphen and two digits
    from [lo] to [hi]; 1 when the string goes on without a hyphen. *)
Definition parseField (lo hi : Z) (s : string) : option (Z * string) :=
  match s with
  | String c rest =>
      if Ascii.eqb c "-" then
        match takeDigits 2 rest with
        | Some (value, tail) =>
            if (lo <=? value) && (value <=? hi) then Some (value, tail) else None
        | None => None
        end
      else Some (1, s)
  | EmptyString => Some (1, s)
  end.

(** [new Date(s)] for a string of the date-time format of ECMA-262 with
    the time T00:00:00Z, which the pipeline appends to its dates: a year,
    then the month if there is one, then the day if there is one.  [None]
    is the Invalid Date: a date beyond the range of time values, or a
    string outside the format, of which an engine may make what it likes
    and of which nothing is modelled.  V8 takes any day from 1 to 31 in
    any month and lets [MakeDay] carry the excess. *)
Definition Date_parse (s : string) : option Z :=
  match parseYear s with
  | None => None
  | Some (year, afterYear) =>
      match parseField 1 12 afterYear with
      | None => None
      | Some (month, afterMonth) =>
          match parseField 1 31 afterMonth with
          | None => None
          | Some (day, afterDay) =>
              if String.eqb afterDay "T00:00:00Z"
              then TimeClip (MakeDate (MakeDay year (month - 1) day) 0)
              else None
          end
      end
  end.

(** ** [Map] and [Set]: insertion ordered *)

Section Collections.
Context {V : Type}.

Definition JsMap := list (string * V).

Fixpoint Map_get (k : string) (m : JsMap) : option V :=
  match m with
  | [] => None
  | (k', v) :: rest => if String.eqb k' k then Some v else Map_get k rest
  end.

(** [m.set(k, v)]: an existing key keeps its place, a new key goes last. *)
Fixpoint Map_set (k : string) (v : V) (m : JsMap) : JsMap :=
  match m with
  | [] => [(k, v)]
  | (k', v') :: rest =>
      if String.eqb k' k then (k', v) :: rest else (k', v') :: Map_set k v rest
  end.

End Collections.
Arguments JsMap V : clear implicits.

Definition Set_has (x : string) (s : list string) : bool :=
  existsb (String.eqb x) s.

Definition Set_add (s : list string) (x : string) : list string :=
  if Set_has x s then s else s ++ [x].

(** [Array.from(new Set(xs))]. *)
Definition Set_from (xs : list string) : list string :=
  fold_left Set_add xs [].

(** ** [Array.prototype.sort]

    The sort is stable and, for a consistent comparator, its result is the
    one stable ordering; insertion from the right computes it. *)
Section Sort.
Context {A : Type} (cmp : A -> A -> Z).

Fixpoint insertBy (x : A) (l : list A) : list A :=
  match l with
  | [] => [x]
  | y :: ys => if cmp x y <=? 0 then x :: y :: ys else y :: insertBy x ys
  end.

Definition sortBy (l : list A) : list A := fold_right insertBy [] l.

End Sort.

(** ** Vocabulary of the properties *)

(** The place at which [x] first occurs in [xs] (its length if nowhere). *)
Fixpoint firstIndex (x : string) (xs : list string) : nat :=
  match xs with
  | [] => 0
  | y :: rest => if String.eqb y x then 0 else S (firstIndex x rest)
  end.

End Js.

(* ===================================================================== *)
(** * types.ts: the data model *)
(* ===================================================================== *)

Module Types.

Record MonthPeriod := {
  monthKey : string;
  startDate : string;
  endDateExclusive : string;
  prevMonthKey : string;
  prevStartDate : string;
  prevEndDateExclusive : string;
  startDateTime : string;
  endDateTimeExclusive : string;
  prevStartDateTime : string;
  prevEndDateTimeExclusive : string
}.

Record DailyTrafficPoint := {
  date : string;
  requests : Z;
  uniques : Z;
  bytes : Z
}.

Record TopPath := { path : string; pathRequests : Z }.

Record SecurityEventGroup := { source : string; action : string; count : Z }.

Record MetricWithDelta := {
  current : Z;
  previous : Z;
  deltaPercent : option Q
}.

Record WeeklyTrafficRow := {
  label : string;
  weekRequests : Z;
  weekUniques : Z;
  weekBytes : Z
}.

Record SecurityCategoryRow := { categoryLabel : string; categoryCount : Z }.

Record LighthouseScores := {
  performance : option Z;
  accessibility : option Z;
  bestPractices : option Z;
  seo : option Z
}.

Record CoreWebVital := {
  vitalId : string;
  vitalTitle : string;
  displayValue : string;
  numericValue : option Q
}.

Record PageSpeedOpportunity := {
  opportunityTitle : string;
  opportunityDescription : string;
  savingsMs : Z
}.

Record PageSpeedResult := {
  url : string;
  mobile : LighthouseScores;
  desktop : LighthouseScores;
  mobileVitals : list CoreWebVital;
  desktopVitals : list CoreWebVital;
  opportunities : list PageSpeedOpportunity
}.

Record TrafficSnapshot := {
  trafficRequests : MetricWithDelta;
  uniqueVisitors : MetricWithDelta;
  bandwidth : MetricWithDelta;
  weeklyBreakdown : list WeeklyTrafficRow;
  topPaths : list TopPath
}.

Record SecuritySnapshot := {
  totalFirewallActions : Z;
  botRateLimitActions : Z;
  topCategories : list SecurityCategoryRow
}.

Record WordPressSnapshot := {
  pluginsUpdated : Z;
  totalPlugins : Z;
  coreVersion : string;
  phpVersion : string;
  securityScanPassed : bool;
  lastBackup : string;
  sslValid : bool;
  databaseOptimized : bool;
  uptimePercent : Q;
  malwareDetected : bool
}.

Record ReportSnapshot := {
  clientId : string;
  zoneId : string;
  domain : string;
  reportMonthKey : string;
  monthLabel : string;
  timezone : string;
  generatedAt : string;
  author : string;
  traffic : TrafficSnapshot;
  security : SecuritySnapshot;
  performanceResults : list PageSpeedResult;
  wordpress : WordPressSnapshot;
  warnings : list string
}.

(** config.ts *)
Record SiteConfig := {
  siteClientId : string;
  siteZoneId : string;
  siteDomain : string;
  pagespeedUrls : list string
}.

End Types.

(* ===================================================================== *)
(** * period.ts: month boundaries and weekly buckets *)
(* ===================================================================== *)

Module Period.
Import Js Types.
Local Open Scope string_scope.
Local Open Scope Z_scope.

Definition toIsoDate (date : Z) : string := sliceTo 10 (toISOString date).

Definition shiftMonth (date offset : Z) : Z :=
  Date_UTC (getUTCFullYear date) (getUTCMonth date + offset) 1.

(** [monthOverride.match(/^(\d{4})-(\d{2})$/)]: the two captured groups. *)
Definition matchMonthKey (s : string) : option (string * string) :=
  match s with
  | String y1 (String y2 (String y3 (String y4 (String h
      (String m1 (String m2 EmptyString)))))) =>
      let ys := String y1 (String y2 (String y3 (String y4 EmptyString))) in
      let ms := String m1 (String m2 EmptyString) in
      if allDigits ys && Ascii.eqb h "-" && allDigits ms
      then Some (ys, ms) else None
  | _ => None
  end.

Definition parseMonthOverride (monthOverride : string) : Result Z :=
  match matchMonthKey monthOverride with
  | None => Throw (newError "month must use YYYY-MM format")
  | Some (ys, ms) =>
      let year := Number_digits ys in
      let month := Number_digits ms in
      if (month <? 1) || (month >? 12)
      then Throw (newError "month must be between 01 and 12")
      else Ok (Date_UTC year (month - 1) 1)
  end.

(** An absent override and the empty string are both falsy: either one
    selects the month before the one of [now]. *)
Definition truthy (monthOverride : option string) : option string :=
  match monthOverride with
  | Some EmptyString => None
  | other => other
  end.

Definition buildMonthPeriod (now : Z) (monthOverride : option string)
  : Result MonthPeriod :=
  targetMonthStart <-
    match truthy monthOverride with
    | Some s => parseMonthOverride s
    | None => Ok (shiftMonth (Date_UTC (getUTCFullYear now) (getUTCMonth now) 1) (-1))
    end ;;
  let targetMonthEnd := shiftMonth targetMonthStart 1 in
  let previousMonthStart := shiftMonth targetMonthStart (-1) in
  let previousMonthEnd := targetMonthStart in
  Ok {|
    monthKey := sliceTo 7 (toIsoDate targetMonthStart);
    startDate := toIsoDate targetMonthStart;
    endDateExclusive := toIsoDate targetMonthEnd;
    prevMonthKey := sliceTo 7 (toIsoDate previousMonthStart);
    prevStartDate := toIsoDate previousMonthStart;
    prevEndDateExclusive := toIsoDate previousMonthEnd;
    startDateTime := toIsoDate targetMonthStart ++ "T00:00:00Z";
    endDateTimeExclusive := toIsoDate targetMonthEnd ++ "T00:00:00Z";
    prevStartDateTime := toIsoDate previousMonthStart ++ "T00:00:00Z";
    prevEndDateTimeExclusive := toIsoDate previousMonthEnd ++ "T00:00:00Z"
  |}.

(** [Intl.DateTimeFormat("en-US", {month: "short", day: "numeric",
    timeZone: "UTC"})]: the short month name, a space, the day. *)
Definition shortMonthName (m : Z) : string :=
  match m with
  | 0 => "Jan" | 1 => "Feb" | 2 => "Mar" | 3 => "Apr" | 4 => "May"
  | 5 => "Jun" | 6 => "Jul" | 7 => "Aug" | 8 => "Sep" | 9 => "Oct"
  | 10 => "Nov" | _ => "Dec"
  end.

Definition formatDay (date : Z) : string :=
  shortMonthName (getUTCMonth date) ++ " " ++ numberToString (getUTCDate date).

(** One turn of the outer loop of [buildWeeklyBreakdown]: the values of
    [weekIndex], [weekStart] and [weekEnd] in that turn. *)
Record WeekWindow := { weekIndex : Z; weekStart : Z; weekEnd : Z }.

(** An upper bound on the number of turns either loop of
    [buildWeeklyBreakdown] takes from [cursor] to [stop]: every turn
    advances the cursor by a day at least. *)
Definition loopBound (cursor stop : Z) : nat :=
  Z.to_nat ((stop - cursor) / msPerDay + 1).

(** The outer loop, [while (cursor < monthEnd)]: each turn ends seven
    days after the cursor or at the end of the month, whichever is first,
    and the next turn starts there. *)
Fixpoint weekWindowsLoop (fuel : nat) (index cursor monthEnd : Z) : list WeekWindow :=
  match fuel with
  | O => []
  | S fuel' =>
      if cursor <? monthEnd then
        let weekEnd0 := setUTCDate cursor (getUTCDate cursor + 7) in
        let weekEnd1 := if weekEnd0 >? monthEnd then monthEnd else weekEnd0 in
        {| weekIndex := index; weekStart := cursor; weekEnd := weekEnd1 |}
          :: weekWindowsLoop fuel' (index + 1) weekEnd1 monthEnd
      else []
  end.

Definition weekWindows (index cursor monthEnd : Z) : list WeekWindow :=
  weekWindowsLoop (loopBound cursor monthEnd) index cursor monthEnd.

(** The inner loop, [while (dayCursor < weekEnd)]: the days it visits. *)
Fixpoint weekDaysLoop (fuel : nat) (dayCursor weekEnd1 : Z) : list Z :=
  match fuel with
  | O => []
  | S fuel' =>
      if dayCursor <? weekEnd1 then
        dayCursor
          :: weekDaysLoop fuel' (setUTCDate dayCursor (getUTCDate dayCursor + 1)) weekEnd1
      else []
  end.

Definition weekDays (dayCursor weekEnd1 : Z) : list Z :=
  weekDaysLoop (loopBound dayCursor weekEnd1) dayCursor weekEnd1.

Definition indexByDate (daily : list DailyTrafficPoint) : JsMap DailyTrafficPoint :=
  fold_left (fun byDate item => Map_set (date item) item byDate) daily [].

(** The body of the inner loop: the totals after one more day. *)
Definition addDay (byDate : JsMap DailyTrafficPoint) (totals : Z * Z * Z) (day : Z)
  : Z * Z * Z :=
  let '(req, uni, byt) := totals in
  match Map_get (toIsoDate day) byDate with
  | Some point => (req + requests point, uni + uniques point, byt + bytes point)
  | None => totals
  end.

Definition weekRow (byDate : JsMap DailyTrafficPoint) (w : WeekWindow)
  : WeeklyTrafficRow :=
  let '(req, uni, byt) :=
    fold_left (addDay byDate) (weekDays (weekStart w) (weekEnd w)) (0, 0, 0) in
  let weekEndLabelDate := setUTCDate (weekEnd w) (getUTCDate (weekEnd w) - 1) in
  {| label := "Week " ++ numberToString (weekIndex w) ++ " ("
                ++ formatDay (weekStart w) ++ " - " ++ formatDay weekEndLabelDate ++ ")";
     weekRequests := req;
     weekUniques := uni;
     weekBytes := byt |}.

(** [Intl.DateTimeFormat.format] throws a RangeError on an invalid date. *)
Definition invalidTimeValue : JsError :=
  mkError "Invalid time value" "RangeError: Invalid time value".

Definition formatMonthLabel (pf : Platform) (monthKey timezone : string) : Result string :=
  match Date_parse (monthKey ++ "-01T00:00:00Z") with
  | Some date => monthYearLabel pf date timezone
  | None => Throw invalidTimeValue
  end.

Definition buildWeeklyBreakdown (daily : list DailyTrafficPoint)
  (startDate endDateExclusive : string) : list WeeklyTrafficRow :=
  let byDate := indexByDate daily in
  match Date_parse (startDate ++ "T00:00:00Z"),
        Date_parse (endDateExclusive ++ "T00:00:00Z") with
  | Some cursor, Some monthEnd => map (weekRow byDate) (weekWindows 1 cursor monthEnd)
  | _, _ => []
  end.

(** ** Vocabulary of the properties *)

(** The time value of the first day of month [mn] (0 to 11) of year [y]. *)
Definition firstOfMonth (y mn : Z) : Z := MakeDate (MakeDay y mn 1) 0.

(** The legacy reading of a two-digit year by [Date.UTC]. *)
Definition fullYear (y : Z) : Z := if (0 <=? y) && (y <=? 99) then 1900 + y else y.

(** The override that names month [m] (1 to 12) of year [y] (0 to 9999). *)
Definition overrideOf (y m : Z) : string := pad4 y ++ "-" ++ pad2 m.

(** The format, with a month from 01 to 12. *)
Definition validOverride (s : string) : Prop :=
  exists y m, 0 <= y <= 9999 /\ 1 <= m <= 12 /\ s = overrideOf y m.

(** The month after month [m] of year [y]. *)
Definition nextMonth (y m : Z) : Z * Z := if m =? 12 then (y + 1, 1) else (y, m + 1).

(** The date string of the first day of month [m] (1 to 12) of year [y]. *)
Definition isoFirstDay (y m : Z) : string := pad4 y ++ "-" ++ pad2 m ++ "-01".

(** The date string of day [d] of month [m] (1 to 12) of year [y]. *)
Definition isoDay (y m d : Z) : string := pad4 y ++ "-" ++ pad2 m ++ "-" ++ pad2 d.

(** [n] consecutive days from [start]. *)
Definition daysFrom (start : Z) (n : nat) : list Z :=
  map (fun i => start + Z.of_nat i * msPerDay) (seq 0 n).

(** The days a window covers: those its inner loop visits. *)
Definition windowDays (w : WeekWindow) : list Z := weekDays (weekStart w) (weekEnd w).

(** The windows follow one another from [from] to [to]. *)
Fixpoint contiguous (from to : Z) (ws : list WeekWindow) : Prop :=
  match ws with
  | [] => from = to
  | w :: rest => weekStart w = from /\ contiguous (weekEnd w) to rest
  end.

(** Every window but the last one holds seven days. *)
Fixpoint fullWeeks (ws : list WeekWindow) : Prop :=
  match ws with
  | [] => True
  | w :: rest =>
      match rest with
      | [] => (1 <= List.length (windowDays w) <= 7)%nat
      | _ :: _ => List.length (windowDays w) = 7%nat
      end /\ fullWeeks rest
  end.

(** The week numbers count up from [index]. *)
Fixpoint numbered (index : Z) (ws : list WeekWindow) : Prop :=
  match ws with
  | [] => True
  | w :: rest => weekIndex w = index /\ numbered (index + 1) rest
  end.

(** The count a day contributes: that of its point, if it has one. *)
Definition dayCount (field : DailyTrafficPoint -> Z) (byDate : JsMap DailyTrafficPoint)
  (day : Z) : Z :=
  match Map_get (toIsoDate day) byDate with
  | Some point => field point
  | None => 0
  end.

Definition Zsum (l : list Z) : Z := fold_right Z.add 0 l.

End Period.

(* ===================================================================== *)
(** * cloudflare.ts: the analytics adapters *)
(* ===================================================================== *)

Module Cloudflare.
Import Js Types.
Local Open Scope string_scope.
Local Open Scope Z_scope.

Definition toNumber (pf : Platform) (value : Scalar) : Z :=
  match value with
  | Num z => z
  | Str s => match Number_ pf s with
             | Some parsed => parsed
             | None => 0
             end
  | Absent => 0
  end.

(** What the body of a GraphQL answer reads as: [data] and the
    [message] of each entry of [errors]. *)
Record GraphqlPayload (T : Type) := {
  data : option T;
  errors : option (list (option string))
}.
Arguments data {T} _.
Arguments errors {T} _.

(** What one request meets: [fetch] (or reading the body) rejects, or an
    answer arrives with its status, its text and what [JSON.parse] makes
    of the text. *)
Inductive Exchange (T : Type) : Type :=
| Rejected (error : JsError)
| Answered (ok : bool) (status : Z) (text : string) (parsed : Result (GraphqlPayload T)).
Arguments Rejected {T} error.
Arguments Answered {T} ok status text parsed.

Definition doubleQuote : string := String (ascii_of_nat 34) EmptyString.

Definition joinMessages (entries : list (option string)) : string :=
  String.concat "; "
    (map (fun entry => match entry with Some m => m | None => "unknown" end) entries).

Definition graphqlRequest {T : Type} (exchange : Exchange T) : Result T :=
  match exchange with
  | Rejected e => Throw e
  | Answered ok status text parsed =>
      if negb ok then
        if (status =? 400)
           && (includes (doubleQuote ++ "code" ++ doubleQuote ++ ":10001") text
               || includes "Unable to authenticate request" text)
        then Throw (newError
               ("Cloudflare GraphQL auth failed. Set a valid CF_API_TOKEN runtime secret. "
                ++ "For local wrangler dev, add CF_API_TOKEN to .dev.vars."))
        else Throw (newError
               ("Cloudflare GraphQL request failed (" ++ numberToString status ++ "): " ++ text))
      else
        payload <- parsed ;;
        match errors payload with
        | Some (e :: es) =>
            Throw (newError ("Cloudflare GraphQL returned errors: " ++ joinMessages (e :: es)))
        | _ =>
            match data payload with
            | None => Throw (newError "Cloudflare GraphQL returned no data")
            | Some d => Ok d
            end
        end
  end.

(** The answers read through optional chaining: a field is [None] when
    it, or an object on the way to it, is missing. *)
Record TrafficGroup := {
  dimensionsDate : option string;
  sumRequests : Scalar;
  sumBytes : Scalar;
  uniqUniques : Scalar
}.

Record TrafficZone := { httpRequests1dGroups : option (list TrafficGroup) }.

Record TrafficQueryResponse := { trafficZones : option (list TrafficZone) }.

Record TopPathGroup := { clientRequestPath : option string; topPathRequests : Scalar }.

Record TopPathQueryResponse := {
  topPathZones : option (list (option (list TopPathGroup)))
}.

Record SecurityGroup := {
  groupCount : Scalar;
  dimensionsAction : option string;
  dimensionsSource : option string
}.

Record SecurityQueryResponse := {
  securityZones : option (list (option (list SecurityGroup)))
}.

Record SecurityActionOnlyGroup := {
  actionOnlyCount : Scalar;
  actionOnlyAction : option string
}.

Record SecurityActionOnlyQueryResponse := {
  actionOnlyZones : option (list (option (list SecurityActionOnlyGroup)))
}.

(** The Cloudflare side of a run: what each query is answered with. *)
Record Upstream := {
  trafficExchange : string -> string -> string -> Exchange TrafficQueryResponse;
  topPathsExchange : string -> string -> string -> Z -> Exchange TopPathQueryResponse;
  securityExchange : string -> string -> string -> Exchange SecurityQueryResponse;
  actionOnlyExchange : string -> string -> string -> Exchange SecurityActionOnlyQueryResponse
}.

Definition orElse {A} (o : option A) (d : A) : A :=
  match o with Some a => a | None => d end.

(** [zones?.[0]?.groups ?? []]. *)
Definition firstZoneGroups {A} (zones : option (list (option (list A)))) : list A :=
  match zones with
  | Some (Some groups :: _) => groups
  | _ => []
  end.

Definition toDailyPoint (pf : Platform) (item : TrafficGroup) : DailyTrafficPoint :=
  {| date := orElse (dimensionsDate item) "";
     requests := toNumber pf (sumRequests item);
     uniques := toNumber pf (uniqUniques item);
     bytes := toNumber pf (sumBytes item) |}.

Definition hasDate (item : DailyTrafficPoint) : bool :=
  (0 <? Z.of_nat (String.length (date item))).

Definition byDateAscending (pf : Platform) (left right : DailyTrafficPoint) : Z :=
  localeCompare pf (date left) (date right).

Definition fetchTrafficDaily (pf : Platform) (up : Upstream)
  (zoneId startDate endDateExclusive : string) : Result (list DailyTrafficPoint) :=
  response <- graphqlRequest (trafficExchange up zoneId startDate endDateExclusive) ;;
  match trafficZones response with
  | Some ({| httpRequests1dGroups := Some groups |} :: _) =>
      Ok (sortBy (byDateAscending pf) (filter hasDate (map (toDailyPoint pf) groups)))
  | _ => Ok []
  end.

Definition toTopPath (pf : Platform) (item : TopPathGroup) : TopPath :=
  {| path := match clientRequestPath item with
             | Some EmptyString | None => "/"
             | Some p => p
             end;
     pathRequests := toNumber pf (topPathRequests item) |}.

Definition fetchTopPaths (pf : Platform) (up : Upstream)
  (zoneId startDateTime endDateTimeExclusive : string) (limit : Z)
  : Result (list TopPath) :=
  response <- graphqlRequest (topPathsExchange up zoneId startDateTime endDateTimeExclusive limit) ;;
  Ok (map (toTopPath pf) (firstZoneGroups (topPathZones response))).

Definition toSecurityEventGroup (pf : Platform) (item : SecurityGroup) : SecurityEventGroup :=
  {| source := orElse (dimensionsSource item) "unknown";
     action := orElse (dimensionsAction item) "unknown";
     count := toNumber pf (groupCount item) |}.

Definition actionOnlyEventGroup (pf : Platform) (item : SecurityActionOnlyGroup)
  : SecurityEventGroup :=
  {| source := "unknown";
     action := orElse (actionOnlyAction item) "unknown";
     count := toNumber pf (actionOnlyCount item) |}.

(** Both [try] blocks catch everything: the promise never rejects. *)
Definition fetchSecurityGroups (pf : Platform) (up : Upstream)
  (zoneId startDateTime endDateTimeExclusive : string)
  : Result (list SecurityEventGroup) :=
  match graphqlRequest (securityExchange up zoneId startDateTime endDateTimeExclusive) with
  | Ok fullData =>
      Ok (map (toSecurityEventGroup pf) (firstZoneGroups (securityZones fullData)))
  | Throw primaryError =>
      let errorMsg := errString primaryError in
      if includes "does not have access" errorMsg then Ok []
      else
        match graphqlRequest (actionOnlyExchange up zoneId startDateTime endDateTimeExclusive) with
        | Ok actionOnlyData =>
            Ok (map (actionOnlyEventGroup pf) (firstZoneGroups (actionOnlyZones actionOnlyData)))
        | Throw _ => Ok []
        end
  end.

(** ** Vocabulary of the properties *)

(** A comparator that orders: any two values compare one way or the
    other, and "not after" is transitive. *)
Definition consistentComparator {A} (cmp : A -> A -> Z) : Prop :=
  (forall a b, cmp a b <= 0 \/ cmp b a <= 0)
  /\ (forall a b c, cmp a b <= 0 -> cmp b c <= 0 -> cmp a c <= 0).

(** The day groups of an answer, none when the zone or its groups are
    missing. *)
Definition dayGroups (response : TrafficQueryResponse) : list TrafficGroup :=
  match trafficZones response with
  | Some ({| httpRequests1dGroups := Some groups |} :: _) => groups
  | _ => []
  end.

End Cloudflare.

(* ===================================================================== *)
(** * pagespeed.ts: the performance adapter *)
(* ===================================================================== *)

Module PageSpeed.
Import Js Types.
Local Open Scope string_scope.
Local Open Scope Z_scope.

Record PageSpeedBundle := {
  results : list PageSpeedResult;
  bundleWarnings : list string
}.

Record LighthouseAudit := {
  auditTitle : option string;
  auditDisplayValue : option string;
  auditNumericValue : option Q;
  auditDescription : option string;
  overallSavingsMs : option Q
}.

(** The answer of the PageSpeed API read through optional chaining: the
    four raw category scores and the audits, in the order [Object.values]
    lists them. *)
Record PageSpeedApiResponse := {
  performanceScore : Unknown;
  accessibilityScore : Unknown;
  bestPracticesScore : Unknown;
  seoScore : Unknown;
  audits : option (list (string * LighthouseAudit))
}.

Definition CORE_VITAL_IDS : list string :=
  [ "first-contentful-paint"; "largest-contentful-paint"; "cumulative-layout-shift";
    "total-blocking-time"; "speed-index" ].

Definition normalizeScore (rawScore : Unknown) : option Z :=
  match rawScore with
  | NotNumber => None
  | IsNumber n =>
      if geFinite n 0 && leFinite n 1 then
        match n with
        | Finite q => Some (Math_round (mulDouble q 100))
        | _ => None
        end
      else if gtFinite n 1 && leFinite n 100 then
        match n with
        | Finite q => Some (Math_round q)
        | _ => None
        end
      else None
  end.

Definition emptyScores : LighthouseScores :=
  {| performance := None; accessibility := None; bestPractices := None; seo := None |}.

Definition extractVitals (audits : option (list (string * LighthouseAudit)))
  : list CoreWebVital :=
  match audits with
  | None => []
  | Some table =>
      flat_map
        (fun id =>
           match Map_get id table with
           | Some audit =>
               [ {| vitalId := id;
                    vitalTitle := match auditTitle audit with Some t => t | None => id end;
                    displayValue :=
                      match auditDisplayValue audit with Some v => v | None => "n/a" end;
                    numericValue := auditNumericValue audit |} ]
           | None => []
           end)
        CORE_VITAL_IDS
  end.

Definition bySavingsDescending (a b : PageSpeedOpportunity) : Z :=
  savingsMs b - savingsMs a.

Definition extractOpportunities (pf : Platform)
  (audits : option (list (string * LighthouseAudit))) : list PageSpeedOpportunity :=
  match audits with
  | None => []
  | Some table =>
      let opportunities :=
        flat_map
          (fun entry : string * LighthouseAudit =>
             let audit := snd entry in
             match overallSavingsMs audit with
             | Some savings =>
                 if negb (Qle_bool savings 0) then
                   [ {| opportunityTitle :=
                          match auditTitle audit with Some t => t | None => "Unknown" end;
                        opportunityDescription :=
                          stripLinks pf
                            (match auditDescription audit with Some d => d | None => "" end);
                        savingsMs := Math_round savings |} ]
                 else []
             | None => []
             end)
          table in
      firstn 5 (sortBy bySavingsDescending opportunities)
  end.

Record SingleRunResult := {
  scores : LighthouseScores;
  vitals : list CoreWebVital;
  runOpportunities : list PageSpeedOpportunity
}.

Inductive Strategy := Mobile | Desktop.

Definition strategyName (strategy : Strategy) : string :=
  match strategy with Mobile => "mobile" | Desktop => "desktop" end.

(** What one probe meets: [fetch] rejects, or an answer arrives with its
    status, its text and what [JSON.parse] makes of the text. *)
Inductive Probe :=
| ProbeRejected (error : JsError)
| ProbeAnswered (ok : bool) (status : Z) (text : string) (parsed : Result PageSpeedApiResponse).

(** The PageSpeed side of a run: what each probe meets, and for each URL
    which of its two probes settles first (the order in which two
    failures of one URL reach the list of warnings). *)
Record PageSpeedApi := {
  probe : string -> Strategy -> Probe;
  desktopSettlesFirst : string -> bool
}.

Definition runPageSpeed (pf : Platform) (api : PageSpeedApi) (url : string)
  (strategy : Strategy) : Result SingleRunResult :=
  match probe api url strategy with
  | ProbeRejected e => Throw e
  | ProbeAnswered ok status text parsed =>
      if negb ok then
        Throw (newError ("PageSpeed request failed for " ++ strategyName strategy
                         ++ " (" ++ numberToString status ++ "): " ++ text))
      else
        payload <- parsed ;;
        Ok {| scores :=
                {| performance := normalizeScore (performanceScore payload);
                   accessibility := normalizeScore (accessibilityScore payload);
                   bestPractices := normalizeScore (bestPracticesScore payload);
                   seo := normalizeScore (seoScore payload) |};
              vitals := extractVitals (audits payload);
              runOpportunities := extractOpportunities pf (audits payload) |}
  end.

Definition emptyRunResult : SingleRunResult :=
  {| scores := emptyScores; vitals := []; runOpportunities := [] |}.

(** [promise.catch(...)] of one probe: the run result, and the warning
    the handler pushes when the probe failed. *)
Definition probeOrEmpty (pf : Platform) (api : PageSpeedApi) (url : string)
  (strategy : Strategy) : SingleRunResult * list string :=
  match runPageSpeed pf api url strategy with
  | Ok result => (result, [])
  | Throw error =>
      (emptyRunResult,
       [ "PageSpeed " ++ strategyName strategy ++ " failed for " ++ url ++ ": "
           ++ errString error ])
  end.

(** Merge by title, the higher saving wins, a title keeps its first place. *)
Definition mergeOpportunity (opMap : JsMap PageSpeedOpportunity) (op : PageSpeedOpportunity)
  : JsMap PageSpeedOpportunity :=
  match Map_get (opportunityTitle op) opMap with
  | Some existing =>
      if savingsMs op >? savingsMs existing
      then Map_set (opportunityTitle op) op opMap
      else opMap
  | None => Map_set (opportunityTitle op) op opMap
  end.

(** One turn of the loop over [uniqueUrls]: the entry pushed to [results]
    and the warnings pushed meanwhile. *)
Definition probeUrl (pf : Platform) (api : PageSpeedApi) (url : string)
  : PageSpeedResult * list string :=
  let '(mobileResult, mobileWarnings) := probeOrEmpty pf api url Mobile in
  let '(desktopResult, desktopWarnings) := probeOrEmpty pf api url Desktop in
  let opMap :=
    fold_left mergeOpportunity
      (runOpportunities mobileResult ++ runOpportunities desktopResult)%list [] in
  ({| url := url;
      mobile := scores mobileResult;
      desktop := scores desktopResult;
      mobileVitals := vitals mobileResult;
      desktopVitals := vitals desktopResult;
      opportunities := firstn 5 (sortBy bySavingsDescending (map snd opMap)) |},
   if desktopSettlesFirst api url
   then (desktopWarnings ++ mobileWarnings)%list
   else (mobileWarnings ++ desktopWarnings)%list).

Definition uniqueUrls (urls : list string) : list string :=
  filter (fun value => 0 <? Z.of_nat (String.length value)) (Set_from urls).

Definition fetchPageSpeedForUrls (pf : Platform) (api : PageSpeedApi) (urls : list string)
  : PageSpeedBundle :=
  fold_left
    (fun bundle url =>
       let '(result, pushed) := probeUrl pf api url in
       {| results := (results bundle ++ [result])%list;
          bundleWarnings := (bundleWarnings bundle ++ pushed)%list |})
    (uniqueUrls urls)
    {| results := []; bundleWarnings := [] |}.

(** ** Vocabulary of the properties *)

(** Two PageSpeed sides that differ at most in the desktop probe of [u]. *)
Definition sameExceptDesktop (u : string) (api api' : PageSpeedApi) : Prop :=
  (forall v, probe api' v Mobile = probe api v Mobile)
  /\ (forall v, v <> u -> probe api' v Desktop = probe api v Desktop)
  /\ (forall v, desktopSettlesFirst api' v = desktopSettlesFirst api v).

(** The warning the handler of a failed desktop probe pushes. *)
Definition desktopWarning (u : string) (e : JsError) : string :=
  "PageSpeed desktop failed for " ++ u ++ ": " ++ errString e.

(** The audits hold an entry for [id]. *)
Definition hasAudit (table : list (string * LighthouseAudit)) (id : string) : bool :=
  match Map_get id table with Some _ => true | None => false end.

(** The opportunities one run meets before sorting and cutting: one for
    each audit with positive savings, in the order of the audits. *)
Definition candidateOpportunities (pf : Platform) (table : list (string * LighthouseAudit))
  : list PageSpeedOpportunity :=
  flat_map
    (fun entry : string * LighthouseAudit =>
       let audit := snd entry in
       match overallSavingsMs audit with
       | Some savings =>
           if negb (Qle_bool savings 0) then
             [ {| opportunityTitle :=
                    match auditTitle audit with Some t => t | None => "Unknown" end;
                  opportunityDescription :=
                    stripLinks pf
                      (match auditDescription audit with Some d => d | None => "" end);
                  savingsMs := Math_round savings |} ]
           else []
       | None => []
       end)
    table.

(** The opportunities of both runs of a URL, the mobile ones first. *)
Definition bothRuns (pf : Platform) (api : PageSpeedApi) (u : string)
  : list PageSpeedOpportunity :=
  (runOpportunities (fst (probeOrEmpty pf api u Mobile))
     ++ runOpportunities (fst (probeOrEmpty pf api u Desktop)))%list.

End PageSpeed.

(* ===================================================================== *)
(** * reporting.ts: aggregation and the snapshot *)
(* ===================================================================== *)

Module Reporting.
Import Js Types.
Local Open Scope string_scope.
Local Open Scope Z_scope.

Record Totals := { totalRequests : Z; totalUniques : Z; totalBytes : Z }.

Definition sumTraffic (daily : list DailyTrafficPoint) : Totals :=
  fold_left
    (fun totals point =>
       {| totalRequests := totalRequests totals + requests point;
          totalUniques := totalUniques totals + uniques point;
          totalBytes := totalBytes totals + bytes point |})
    daily
    {| totalRequests := 0; totalUniques := 0; totalBytes := 0 |}.

(** The percentage is the double that the three operations leave. *)
Definition withDelta (current previous : Z) : MetricWithDelta :=
  let deltaPercent :=
    if previous =? 0 then (if current =? 0 then Some 0%Q else None)
    else Some (mulDouble
                 (divDouble (subDouble (inject_Z current) (inject_Z previous))
                    (inject_Z previous))
                 100) in
  {| current := current; previous := previous; deltaPercent := deltaPercent |}.

Definition firewallActions : list string :=
  [ "block"; "challenge"; "js_challenge"; "managed_challenge" ].

Definition categoryOf (group : SecurityEventGroup) : string :=
  source group ++ "/" ++ action group.

(** The state of the loop of [buildSecuritySnapshot]. *)
Record SecurityTally := {
  tallyFirewall : Z;
  tallyBotRateLimit : Z;
  byCategory : JsMap Z
}.

Definition tallyGroup (tally : SecurityTally) (group : SecurityEventGroup) : SecurityTally :=
  let actionLower := toLowerCase (action group) in
  let sourceLower := toLowerCase (source group) in
  let label := categoryOf group in
  {| tallyFirewall :=
       if Set_has actionLower firewallActions
       then tallyFirewall tally + count group else tallyFirewall tally;
     tallyBotRateLimit :=
       if includes "bot" actionLower || includes "rate" actionLower
       then tallyBotRateLimit tally + count group
       else if includes "bot" sourceLower || includes "rate" sourceLower
       then tallyBotRateLimit tally + count group
       else tallyBotRateLimit tally;
     byCategory :=
       Map_set label
         (match Map_get label (byCategory tally) with Some c => c | None => 0 end
          + count group)
         (byCategory tally) |}.

Definition byCountDescending (left right : string * Z) : Z := snd right - snd left.

Definition buildSecuritySnapshot (groups : list SecurityEventGroup) : SecuritySnapshot :=
  let tally :=
    fold_left tallyGroup groups
      {| tallyFirewall := 0; tallyBotRateLimit := 0; byCategory := [] |} in
  {| totalFirewallActions := tallyFirewall tally;
     botRateLimitActions := tallyBotRateLimit tally;
     topCategories :=
       map (fun entry => {| categoryLabel := fst entry; categoryCount := snd entry |})
         (firstn 3 (sortBy byCountDescending (byCategory tally))) |}.

(** [Math.floor(Math.random() * (max - min + 1)) + min], for the draw [r]. *)
Definition randomInt (r : Q) (min max : Z) : Z :=
  Math_floor (r * inject_Z (max - min + 1)) + min.

(** The four draws are taken in the order of the source: total plugins,
    updated plugins, backup day, uptime. *)
Definition buildWordPressSnapshot (random : nat -> Q) (monthKey : string)
  : WordPressSnapshot :=
  let totalPlugins := randomInt (random 0%nat) 18 35 in
  let pluginsUpdated := randomInt (random 1%nat) 3 (Z.min totalPlugins 15) in
  let backupDay := randomInt (random 2%nat) 1 28 in
  let lastBackup :=
    monthKey ++ "-" ++ padStart2 (numberToString backupDay) ++ "T03:00:00Z" in
  {| pluginsUpdated := pluginsUpdated;
     totalPlugins := totalPlugins;
     coreVersion := "6.7.2";
     phpVersion := "8.3.15";
     securityScanPassed := true;
     lastBackup := lastBackup;
     sslValid := true;
     databaseOptimized := true;
     uptimePercent := toFixed2 ((995 # 10) + random 3%nat * (49 # 100));
     malwareDetected := false |}.

Definition nowIso (clock : Z) : string := toISOString clock.

Definition normalizeWarnings (warnings : list string) : list string :=
  map (sliceTo 450) warnings.

(** Each [safeFetch] returns its result and what it pushed to [warnings]. *)
Definition safeFetchTopPaths (pf : Platform) (cfg : SiteConfig) (up : Cloudflare.Upstream)
  (period : MonthPeriod) : list TopPath * list string :=
  match Cloudflare.fetchTopPaths pf up (siteZoneId cfg)
          (startDateTime period) (endDateTimeExclusive period) 5 with
  | Ok paths => (paths, [])
  | Throw error => ([], [ "Top paths unavailable: " ++ errString error ])
  end.

Definition safeFetchSecurity (pf : Platform) (cfg : SiteConfig) (up : Cloudflare.Upstream)
  (period : MonthPeriod) : list SecurityEventGroup * list string :=
  match Cloudflare.fetchSecurityGroups pf up (siteZoneId cfg)
          (startDateTime period) (endDateTimeExclusive period) with
  | Ok groups => (groups, [])
  | Throw _ => ([], [])
  end.

(** The earlier variant of reporting.ts, which reports the failure. *)
Definition safeFetchSecurity_warning (pf : Platform) (cfg : SiteConfig)
  (up : Cloudflare.Upstream) (period : MonthPeriod)
  : list SecurityEventGroup * list string :=
  match Cloudflare.fetchSecurityGroups pf up (siteZoneId cfg)
          (startDateTime period) (endDateTimeExclusive period) with
  | Ok groups => (groups, [])
  | Throw error => ([], [ "Security analytics unavailable: " ++ errString error ])
  end.

(** The surroundings of one run. *)
Record World := {
  now : Z;
  upstream : Cloudflare.Upstream;
  pageSpeedApi : PageSpeed.PageSpeedApi;
  generatedAtClock : Z;
  random : nat -> Q
}.

Record Env := { REPORT_TIMEZONE : option string }.

Definition timezoneOf (env : Env) : string :=
  match REPORT_TIMEZONE env with
  | Some EmptyString | None => "UTC"
  | Some tz => tz
  end.

(** What the fetches of [generateMonthlyReport] leave behind. *)
Record Aggregation := {
  currentDaily : list DailyTrafficPoint;
  previousDaily : list DailyTrafficPoint;
  aggTopPaths : list TopPath;
  securityGroups : list SecurityEventGroup;
  pageSpeedResults : list PageSpeedResult;
  aggWarnings : list string
}.

(** The two stages of fetching.  A failed traffic query ends the run;
    when both fail, the failure of the current month is the one reported. *)
Definition aggregate (pf : Platform) (cfg : SiteConfig) (w : World)
  (period : MonthPeriod) : Result Aggregation :=
  currentDaily <-
    Cloudflare.fetchTrafficDaily pf (upstream w) (siteZoneId cfg)
      (startDate period) (endDateExclusive period) ;;
  previousDaily <-
    Cloudflare.fetchTrafficDaily pf (upstream w) (siteZoneId cfg)
      (prevStartDate period) (prevEndDateExclusive period) ;;
  let '(topPaths, topPathWarnings) := safeFetchTopPaths pf cfg (upstream w) period in
  let '(groups, securityWarnings) := safeFetchSecurity pf cfg (upstream w) period in
  let pageSpeedBundle :=
    PageSpeed.fetchPageSpeedForUrls pf (pageSpeedApi w) (pagespeedUrls cfg) in
  Ok {| currentDaily := currentDaily;
        previousDaily := previousDaily;
        aggTopPaths := topPaths;
        securityGroups := groups;
        pageSpeedResults := PageSpeed.results pageSpeedBundle;
        aggWarnings :=
          (topPathWarnings ++ securityWarnings
             ++ PageSpeed.bundleWarnings pageSpeedBundle)%list |}.

(** The snapshot literal of [generateMonthlyReport]. *)
Definition assembleSnapshot (cfg : SiteConfig) (timezone : string) (period : MonthPeriod)
  (monthLabel : string) (agg : Aggregation) (generatedAtClock : Z) (random : nat -> Q)
  : ReportSnapshot :=
  let current := sumTraffic (currentDaily agg) in
  let previous := sumTraffic (previousDaily agg) in
  {| clientId := siteClientId cfg;
     zoneId := siteZoneId cfg;
     domain := siteDomain cfg;
     reportMonthKey := monthKey period;
     monthLabel := monthLabel;
     timezone := timezone;
     generatedAt := nowIso generatedAtClock;
     author := "Bernard McWeeney";
     traffic :=
       {| trafficRequests := withDelta (totalRequests current) (totalRequests previous);
          uniqueVisitors := withDelta (totalUniques current) (totalUniques previous);
          bandwidth := withDelta (totalBytes current) (totalBytes previous);
          weeklyBreakdown :=
            Period.buildWeeklyBreakdown (currentDaily agg)
              (startDate period) (endDateExclusive period);
          topPaths := aggTopPaths agg |};
     security := buildSecuritySnapshot (securityGroups agg);
     performanceResults := pageSpeedResults agg;
     wordpress := buildWordPressSnapshot random (monthKey period);
     warnings := normalizeWarnings (aggWarnings agg) |}.

(** [generateMonthlyReport] up to the snapshot; rendering and the writes
    that follow do not change it. *)
Definition generateMonthlySnapshot (pf : Platform) (cfg : SiteConfig) (env : Env)
  (w : World) (monthOverride : option string) : Result ReportSnapshot :=
  period <- Period.buildMonthPeriod (now w) monthOverride ;;
  let timezone := timezoneOf env in
  agg <- aggregate pf cfg w period ;;
  monthLabel <- Period.formatMonthLabel pf (monthKey period) timezone ;;
  Ok (assembleSnapshot cfg timezone period monthLabel agg (generatedAtClock w) (random w)).

(** config.ts as committed. *)
Definition SITE_CONFIG : SiteConfig :=
  {| siteClientId := "demo-client";
     siteZoneId := "REPLACE_WITH_ZONE_ID";
     siteDomain := "example.com";
     pagespeedUrls := [ "https://example.com/" ] |}.

(** ** Vocabulary of the properties *)

Import Cloudflare PageSpeed.

(** The state of the loop of [buildSecuritySnapshot] after all groups. *)
Definition tallyOf (groups : list SecurityEventGroup) : SecurityTally :=
  fold_left tallyGroup groups
    {| tallyFirewall := 0; tallyBotRateLimit := 0; byCategory := [] |}.

(** The events counted under [label]. *)
Fixpoint categoryTotal (label : string) (groups : list SecurityEventGroup) : Z :=
  match groups with
  | [] => 0
  | g :: rest =>
      (if String.eqb (categoryOf g) label then count g else 0) + categoryTotal label rest
  end.

(** The events of the pair ([src], [act]). *)
Fixpoint pairTotal (src act : string) (groups : list SecurityEventGroup) : Z :=
  match groups with
  | [] => 0
  | g :: rest =>
      (if String.eqb (source g) src && String.eqb (action g) act then count g else 0)
      + pairTotal src act rest
  end.

(** The place of the first group filed under [label]. *)
Definition firstSeen (label : string) (groups : list SecurityEventGroup) : nat :=
  firstIndex label (map categoryOf groups).

(** [a] ranks above [b]: more events, or as many and seen first. *)
Definition outranks (groups : list SecurityEventGroup) (a b : string) : Prop :=
  categoryTotal a groups > categoryTotal b groups
  \/ (categoryTotal a groups = categoryTotal b groups
      /\ (firstSeen a groups < firstSeen b groups)%nat).

Definition entryOutranks (groups : list SecurityEventGroup) (a b : string * Z) : Prop :=
  outranks groups (fst a) (fst b).

Definition toRow (entry : string * Z) : SecurityCategoryRow :=
  {| categoryLabel := fst entry; categoryCount := snd entry |}.

Definition withGeneratedAt (stamp : string) (s : ReportSnapshot) : ReportSnapshot :=
  {| clientId := clientId s; zoneId := zoneId s; domain := domain s;
     reportMonthKey := reportMonthKey s; monthLabel := monthLabel s;
     timezone := timezone s; generatedAt := stamp; author := author s;
     traffic := traffic s; security := security s;
     performanceResults := performanceResults s; wordpress := wordpress s;
     warnings := warnings s |}.

Definition withWordpress (wp : WordPressSnapshot) (s : ReportSnapshot) : ReportSnapshot :=
  {| clientId := clientId s; zoneId := zoneId s; domain := domain s;
     reportMonthKey := reportMonthKey s; monthLabel := monthLabel s;
     timezone := timezone s; generatedAt := generatedAt s; author := author s;
     traffic := traffic s; security := security s;
     performanceResults := performanceResults s; wordpress := wp;
     warnings := warnings s |}.

Definition withSecurity (sec : SecuritySnapshot) (s : ReportSnapshot) : ReportSnapshot :=
  {| clientId := clientId s; zoneId := zoneId s; domain := domain s;
     reportMonthKey := reportMonthKey s; monthLabel := monthLabel s;
     timezone := timezone s; generatedAt := generatedAt s; author := author s;
     traffic := traffic s; security := sec;
     performanceResults := performanceResults s; wordpress := wordpress s;
     warnings := warnings s |}.

(** Equal but for the generation timestamp. *)
Definition sameModuloGeneratedAt (s1 s2 : ReportSnapshot) : Prop :=
  withGeneratedAt "" s1 = withGeneratedAt "" s2.

(** The same Cloudflare side with other answers to the security queries. *)
Definition withSecurityExchanges
  (sec : string -> string -> string -> Exchange SecurityQueryResponse)
  (act : string -> string -> string -> Exchange SecurityActionOnlyQueryResponse)
  (w : World) : World :=
  {| now := now w;
     upstream :=
       {| trafficExchange := trafficExchange (upstream w);
          topPathsExchange := topPathsExchange (upstream w);
          securityExchange := sec;
          actionOnlyExchange := act |};
     pageSpeedApi := pageSpeedApi w;
     generatedAtClock := generatedAtClock w;
     random := random w |}.

(** Every security query throws. *)
Definition securityFails (up : Upstream) : Prop :=
  (forall zone from to, exists e,
      graphqlRequest (securityExchange up zone from to) = Throw e)
  /\ (forall zone from to, exists e,
      graphqlRequest (actionOnlyExchange up zone from to) = Throw e).

(** The group's action is one of the firewall actions. *)
Definition isFirewallAction (group : SecurityEventGroup) : bool :=
  Set_has (toLowerCase (action group)) firewallActions.

(** The group's action or source names a bot or a rate limit. *)
Definition isBotOrRateLimit (group : SecurityEventGroup) : bool :=
  includes "bot" (toLowerCase (action group))
  || includes "rate" (toLowerCase (action group))
  || includes "bot" (toLowerCase (source group))
  || includes "rate" (toLowerCase (source group)).

(** A draw of [Math.random]: from 0 up to, not including, 1. *)
Definition unitInterval (r : Q) : Prop := (0 <= r)%Q /\ (r < 1)%Q.

End Reporting.

(* ===================================================================== *)
(** * template.ts: the helpers of the HTML report *)
(* ===================================================================== *)

Module Template.
Import Js Types.
Local Open Scope string_scope.
Local Open Scope Z_scope.

(** [value.replaceAll(pattern, replacement)] for a pattern of one
    character. *)
Fixpoint replaceAll (pattern : ascii) (replacement : string) (value : string) : string :=
  match value with
  | EmptyString => EmptyString
  | String c rest =>
      if Ascii.eqb c pattern then replacement ++ replaceAll pattern replacement rest
      else String c (replaceAll pattern replacement rest)
  end.

Definition quoteChar : ascii := ascii_of_nat 34.

Definition esc (value : string) : string :=
  replaceAll "'" "&#39;"
    (replaceAll quoteChar "&quot;"
       (replaceAll ">" "&gt;"
          (replaceAll "<" "&lt;"
             (replaceAll "&" "&amp;" value)))).

(** The digits of [m], [k] of them, the highest first. *)
Fixpoint fractionDigits (k : nat) (m : Z) : string :=
  match k with
  | O => EmptyString
  | S k' => fractionDigits k' (m / 10) ++ String (digitChar (m mod 10)) EmptyString
  end.

(** [x.toFixed(digits)] below 10^21 in size: the nearest decimal with
    that many digits after the point, the larger one on a tie, the sign
    kept even when the digits are all zero. *)
Definition toFixed (digits : nat) (x : Q) : string :=
  let scale := 10 ^ Z.of_nat digits in
  let n := Qfloor (Qabs x * inject_Z scale + (1 # 2)) in
  (if Qle_bool 0 x then "" else "-")
    ++ numberToString (n / scale)
    ++ match digits with
       | O => ""
       | S _ => "." ++ fractionDigits digits (n mod scale)
       end.

Definition units : list string := [ "B"; "KB"; "MB"; "GB"; "TB" ].

(** The loop of [fmtBytes], [while (v >= 1024 && i < units.length - 1)],
    as the final values of [v] and [i].  Every turn adds one to [i], so
    four turns from [i = 0] are all the loop can take. *)
Fixpoint scaleLoop (fuel : nat) (v : Q) (i : nat) : Q * nat :=
  match fuel with
  | O => (v, i)
  | S fuel' =>
      if Qle_bool 1024 v && (i <? List.length units - 1)%nat
      then scaleLoop fuel' (v / 1024) (S i)
      else (v, i)
  end.

Definition fmtBytes (bytes : Z) : string :=
  let '(v, i) := scaleLoop (List.length units - 1) (inject_Z bytes) 0 in
  toFixed (if Qle_bool 10 v then 0 else 1) v ++ " " ++ nth i units "".

Definition deltaClass (m : MetricWithDelta) : string :=
  match deltaPercent m with
  | None => ""
  | Some d => if Qle_bool 0 d then "delta-up" else "delta-down"
  end.

Definition scoreColor (score : option Z) : string :=
  match score with
  | None => "#9ca3af"
  | Some s =>
      if s >=? 90 then "#22c55e"
      else if s >=? 50 then "#f59e0b"
      else "#ef4444"
  end.

(** ** Vocabulary of the properties *)

(** What [esc] makes of one character. *)
Definition escapeChar (c : ascii) : string :=
  if Ascii.eqb c "&" then "&amp;"
  else if Ascii.eqb c "<" then "&lt;"
  else if Ascii.eqb c ">" then "&gt;"
  else if Ascii.eqb c quoteChar then "&quot;"
  else if Ascii.eqb c "'" then "&#39;"
  else String c EmptyString.

Fixpoint escapeEach (s : string) : string :=
  match s with
  | EmptyString => EmptyString
  | String c rest => escapeChar c ++ escapeEach rest
  end.

(** The characters that open or close markup or an attribute value. *)
Definition isMarkup (c : ascii) : bool :=
  Ascii.eqb c "<" || Ascii.eqb c ">" || Ascii.eqb c quoteChar || Ascii.eqb c "'".

Definition isSpecial (c : ascii) : bool := Ascii.eqb c "&" || isMarkup c.

Fixpoint forallChars (f : ascii -> bool) (s : string) : bool :=
  match s with
  | EmptyString => true
  | String c rest => f c && forallChars f rest
  end.

(** The unit [fmtBytes] settles on: the largest of B, KB, MB, GB and TB
    that the value reaches. *)
Definition unitIndex (bytes : Z) : nat :=
  if bytes <? 1024 then 0
  else if bytes <? 1024 ^ 2 then 1
  else if bytes <? 1024 ^ 3 then 2
  else if bytes <? 1024 ^ 4 then 3
  else 4.

End Template.

(* ===================================================================== *)
(** * reporting.ts: the run around the snapshot *)
(* ===================================================================== *)

Module Run.
Import Js Types Period Cloudflare PageSpeed Reporting.
Local Open Scope string_scope.
Local Open Scope Z_scope.

Record GeneratedReport := {
  reportRunId : string;
  reportMonth : string;
  htmlKey : string;
  pdfKey : string;
  reportSnapshot : ReportSnapshot
}.

Inductive Trigger := Manual | Scheduled.

Definition triggerName (trigger : Trigger) : string :=
  match trigger with Manual => "manual" | Scheduled => "scheduled" end.

Record RunRecordFinish := {
  finishStatus : string;
  finishedAt : string;
  finishHtmlKey : option string;
  finishPdfKey : option string;
  warningCount : Z;
  finishErrorMessage : option string
}.

(** What the request to Browser Rendering meets: [fetch] rejects, or an
    answer arrives with its status, its text, its content type, what
    [JSON.stringify] makes of its JSON body and its bytes; reading the
    text, the JSON body or the bytes can fail. *)
Inductive PdfExchange :=
| PdfRejected (error : JsError)
| PdfAnswered (ok : bool) (status : Z) (text : Result string)
    (contentType : option string) (payloadJson : Result string) (bytes : Result string).

Definition renderPdfFromHtml (exchange : PdfExchange) : Result string :=
  match exchange with
  | PdfRejected e => Throw e
  | PdfAnswered ok status text contentType payloadJson bytes =>
      if negb ok then
        body <- text ;;
        Throw (newError ("Browser Rendering PDF request failed ("
                         ++ numberToString status ++ "): " ++ body))
      else if includes "application/json" (orElse contentType "") then
        payload <- payloadJson ;;
        Throw (newError ("Unexpected JSON response from PDF endpoint: " ++ payload))
      else bytes
  end.

(** The writes a run asks of D1 and R2: the two statements on
    [report_runs], [REPORTS_BUCKET.put] and the upsert into
    [monthly_reports] with the values it binds (the snapshot stands for
    its JSON text). *)
Inductive Write :=
| InsertRunStart (runId clientId reportMonth triggerType status startedAt : string)
| UpdateRunFinish (runId : string) (payload : RunRecordFinish)
| PutObject (key contentType body : string)
| UpsertMonthlyReport (clientId zoneId domain reportMonth timezone generatedAt : string)
    (r2HtmlKey r2PdfKey : string) (snapshot : ReportSnapshot).

(** The surroundings of a whole run: those of the snapshot, the run id
    that [crypto.randomUUID] gives, the clock at the start and at the end,
    the template, what Browser Rendering answers for a page, how D1 and R2
    take each write, and which of two failing uploads fails first. *)
Record Services := {
  world : World;
  runId : string;
  startedAtClock : Z;
  finishedAtClock : Z;
  instanceOfError : JsError -> bool;
  renderReportHtml : ReportSnapshot -> string;
  pdfExchange : string -> PdfExchange;
  outcome : Write -> Result unit;
  pdfPutSettlesFirst : bool
}.

Definition truncateErrorMessage (sv : Services) (error : JsError) : string :=
  sliceTo 1800 (if instanceOfError sv error then errMessage error else errString error).

(** [try { await ... } catch { console.error(...) }]: the write is asked
    for and its failure goes no further. *)
Definition safeInsertRunStart (sv : Services) (cfg : SiteConfig)
  (runId monthKey : string) (trigger : Trigger) (startedAt : string) : list Write :=
  let insert :=
    InsertRunStart runId (siteClientId cfg) monthKey (triggerName trigger) "started" startedAt in
  match outcome sv insert with
  | Ok _ => [ insert ]
  | Throw _ => [ insert ]
  end.

Definition safeUpdateRunFinish (sv : Services) (runId : string) (payload : RunRecordFinish)
  : list Write :=
  let update := UpdateRunFinish runId payload in
  match outcome sv update with
  | Ok _ => [ update ]
  | Throw _ => [ update ]
  end.

Definition persistSnapshot (sv : Services) (snapshot : ReportSnapshot)
  (htmlKey pdfKey : string) : Result unit * list Write :=
  let upsert :=
    UpsertMonthlyReport (clientId snapshot) (zoneId snapshot) (domain snapshot)
      (reportMonthKey snapshot) (timezone snapshot) (generatedAt snapshot)
      htmlKey pdfKey snapshot in
  (outcome sv upsert, [ upsert ]).

(** [Promise.all] of the two uploads: both are asked for; the failure of
    one is the failure of both, the earlier one when both fail. *)
Definition putBoth (sv : Services) (htmlPut pdfPut : Write) : Result unit * list Write :=
  (match outcome sv htmlPut, outcome sv pdfPut with
   | Ok _, Ok _ => Ok tt
   | Throw e, Ok _ => Throw e
   | Ok _, Throw e => Throw e
   | Throw htmlError, Throw pdfError =>
       if pdfPutSettlesFirst sv then Throw pdfError else Throw htmlError
   end,
   [ htmlPut; pdfPut ]).

(** The [try] block of [generateMonthlyReport]: how it ends, the writes
    it asked for, and the length of [warnings] at that point. *)
Definition tryBlock (pf : Platform) (cfg : SiteConfig) (env : Env) (sv : Services)
  (period : MonthPeriod) : Result GeneratedReport * list Write * Z :=
  let timezone := timezoneOf env in
  match aggregate pf cfg (world sv) period with
  | Throw e => (Throw e, [], 0)
  | Ok agg =>
      let collected := Z.of_nat (List.length (aggWarnings agg)) in
      match formatMonthLabel pf (monthKey period) timezone with
      | Throw e => (Throw e, [], collected)
      | Ok monthLabel =>
          let snapshot :=
            assembleSnapshot cfg timezone period monthLabel agg
              (generatedAtClock (world sv)) (random (world sv)) in
          let html := renderReportHtml sv snapshot in
          match renderPdfFromHtml (pdfExchange sv html) with
          | Throw e => (Throw e, [], collected)
          | Ok pdf =>
              let keyPrefix := "reports/" ++ siteClientId cfg ++ "/" ++ monthKey period in
              let htmlKey := keyPrefix ++ ".html" in
              let pdfKey := keyPrefix ++ ".pdf" in
              let '(stored, puts) :=
                putBoth sv (PutObject htmlKey "text/html; charset=utf-8" html)
                  (PutObject pdfKey "application/pdf" pdf) in
              match stored with
              | Throw e => (Throw e, puts, collected)
              | Ok _ =>
                  let '(persisted, upserts) := persistSnapshot sv snapshot htmlKey pdfKey in
                  match persisted with
                  | Throw e => (Throw e, (puts ++ upserts)%list, collected)
                  | Ok _ =>
                      let finish :=
                        safeUpdateRunFinish sv (runId sv)
                          {| finishStatus := "success";
                             finishedAt := nowIso (finishedAtClock sv);
                             finishHtmlKey := Some htmlKey;
                             finishPdfKey := Some pdfKey;
                             warningCount := Z.of_nat (List.length (warnings snapshot));
                             finishErrorMessage := None |} in
                      (Ok {| reportRunId := runId sv;
                             reportMonth := monthKey period;
                             htmlKey := htmlKey;
                             pdfKey := pdfKey;
                             reportSnapshot := snapshot |},
                       (puts ++ upserts ++ finish)%list, collected)
                  end
              end
          end
      end
  end.

(** The result of the run and the writes it asked for, in order.  A
    month override that does not parse ends the run before its first
    write. *)
Definition generateMonthlyReport (pf : Platform) (cfg : SiteConfig) (env : Env)
  (sv : Services) (monthOverride : option string) (trigger : Trigger)
  : Result GeneratedReport * list Write :=
  match buildMonthPeriod (now (world sv)) monthOverride with
  | Throw e => (Throw e, [])
  | Ok period =>
      let startedAt := nowIso (startedAtClock sv) in
      let started := safeInsertRunStart sv cfg (runId sv) (monthKey period) trigger startedAt in
      let '(result, writes, collected) := tryBlock pf cfg env sv period in
      match result with
      | Ok report => (Ok report, (started ++ writes)%list)
      | Throw error =>
          let finish :=
            safeUpdateRunFinish sv (runId sv)
              {| finishStatus := "failed";
                 finishedAt := nowIso (finishedAtClock sv);
                 finishHtmlKey := None;
                 finishPdfKey := None;
                 warningCount := collected;
                 finishErrorMessage := Some (truncateErrorMessage sv error) |} in
          (Throw error, (started ++ writes ++ finish)%list)
      end
  end.

(** ** Vocabulary of the properties *)

(** A statement on [report_runs]. *)
Definition isRunRecord (w : Write) : bool :=
  match w with
  | InsertRunStart _ _ _ _ _ _ | UpdateRunFinish _ _ => true
  | _ => false
  end.

(** The same surroundings with D1 and R2 taking the writes as [o] says. *)
Definition withOutcome (o : Write -> Result unit) (sv : Services) : Services :=
  {| world := world sv;
     runId := runId sv;
     startedAtClock := startedAtClock sv;
     finishedAtClock := finishedAtClock sv;
     instanceOfError := instanceOfError sv;
     renderReportHtml := renderReportHtml sv;
     pdfExchange := pdfExchange sv;
     outcome := o;
     pdfPutSettlesFirst := pdfPutSettlesFirst sv |}.


(** The keys of the two objects of a month. *)
Definition htmlKeyOf (cfg : SiteConfig) (monthKey : string) : string :=
  ("reports/" ++ siteClientId cfg ++ "/" ++ monthKey) ++ ".html".

Definition pdfKeyOf (cfg : SiteConfig) (monthKey : string) : string :=
  ("reports/" ++ siteClientId cfg ++ "/" ++ monthKey) ++ ".pdf".

End Run.

(* ===================================================================== *)
(** * index.ts: the routes of the Worker *)
(* ===================================================================== *)

Module Worker.
Import Js Types Run.
Local Open Scope string_scope.
Local Open Scope Z_scope.

(** What the handler reads of a request: the path and the method, the
    [x-run-token] header and the [month] parameter of the query, each
    [None] when it is not there. *)
Record Request := {
  pathname : string;
  method : string;
  runTokenHeader : option string;
  monthParam : option string
}.

(** The object handed to [json], by route. *)
Inductive Body :=
| HealthBody (service now : string)
| RunBody (month htmlKey pdfKey : string) (warnings : list string)
| ErrorBody (error : string)
| RootBody (routes : list string) (manualRunEnabled : option bool).

Record Response := { status : Z; body : Body }.

(** [json(data, init)]: the status is 200 unless [init] sets it. *)
Definition json (data : Body) (init : option Z) : Response :=
  {| status := match init with Some s => s | None => 200 end; body := data |}.

Section Handler.

(** [error instanceof Error], for a thrown value. *)
Variable instanceOfError : JsError -> bool.
(** [env.RUN_TOKEN]. *)
Variable RUN_TOKEN : option string.
(** [new Date()] at the time of the request. *)
Variable clock : Z.
(** [generateMonthlyReport(env, { monthOverride, trigger: "manual" })]. *)
Variable generateMonthlyReport : option string -> Result GeneratedReport.

Definition tokenMatches (request : Request) (token : string) : bool :=
  match runTokenHeader request with
  | Some header => String.eqb header token
  | None => false
  end.

Definition getRunAuthError (request : Request) : option string :=
  match RUN_TOKEN with
  | None | Some EmptyString =>
      Some "Manual /run is disabled. Configure RUN_TOKEN to enable it."
  | Some token => if tokenMatches request token then None else Some "Unauthorized"
  end.

(** The earlier state of index.ts: no token configured, no check. *)
Definition hasValidRunToken (request : Request) : bool :=
  match RUN_TOKEN with
  | None | Some EmptyString => true
  | Some token => tokenMatches request token
  end.

Definition errorMessage (error : JsError) : string :=
  if instanceOfError error then errMessage error else errString error.

(** The answer to a run that was let through. *)
Definition runReport (request : Request) : Response :=
  match generateMonthlyReport (monthParam request) with
  | Ok result =>
      json (RunBody (reportMonth result) (htmlKey result) (pdfKey result)
              (warnings (reportSnapshot result))) None
  | Throw error => json (ErrorBody (errorMessage error)) (Some 500)
  end.

Definition fetch (request : Request) : Response :=
  if String.eqb (pathname request) "/health" then
    json (HealthBody "website-reports-mvp" (toISOString clock)) None
  else if String.eqb (pathname request) "/run" && String.eqb (method request) "GET" then
    match getRunAuthError request with
    | Some authError =>
        json (ErrorBody authError)
          (Some (if String.eqb authError "Unauthorized" then 401 else 403))
    | None => runReport request
    end
  else if String.eqb (pathname request) "/" && String.eqb (method request) "GET" then
    json (RootBody [ "/health" ]
            (Some (match RUN_TOKEN with
                   | None | Some EmptyString => false
                   | Some _ => true
                   end))) None
  else json (ErrorBody "Not found") (Some 404).

(** [fetch] in the earlier state of index.ts. *)
Definition fetch_earlier (request : Request) : Response :=
  if String.eqb (pathname request) "/health" then
    json (HealthBody "website-reports-mvp" (toISOString clock)) None
  else if String.eqb (pathname request) "/run" && String.eqb (method request) "GET" then
    if negb (hasValidRunToken request)
    then json (ErrorBody "Unauthorized") (Some 401)
    else runReport request
  else if String.eqb (pathname request) "/" && String.eqb (method request) "GET" then
    json (RootBody [ "/health"; "/run?month=YYYY-MM" ] None) None
  else json (ErrorBody "Not found") (Some 404).

End Handler.

(** ** Vocabulary of the properties *)

(** A request for a manual run. *)
Definition isRunRequest (request : Request) : Prop :=
  pathname request = "/run" /\ method request = "GET".

(** A token is configured: [RUN_TOKEN] is set and not empty. *)
Definition configured (RUN_TOKEN : option string) : Prop :=
  exists token, RUN_TOKEN = Some token /\ token <> "".

End Worker.

(* ===================================================================== *)
(** * Closed examples: a platform and the surroundings of a run *)
(* ===================================================================== *)

Module Samples.
Import Js Types Cloudflare PageSpeed Reporting.
Local Open Scope string_scope.
Local Open Scope Z_scope.

(** The code units of a string read as one number in base 256: on
    strings of one length, such as ISO dates, its order is the order of
    the code units. *)
Fixpoint codeUnits (acc : Z) (s : string) : Z :=
  match s with
  | EmptyString => acc
  | String c rest => codeUnits (256 * acc + Z.of_nat (nat_of_ascii c)) rest
  end.

Definition longMonthName (m : Z) : string :=
  match m with
  | 0 => "January" | 1 => "February" | 2 => "March" | 3 => "April" | 4 => "May"
  | 5 => "June" | 6 => "July" | 7 => "August" | 8 => "September" | 9 => "October"
  | 10 => "November" | _ => "December"
  end.

(** Library functions for the closed examples: [Number] on strings of
    decimal digits, the comparison of code units, the month label in UTC,
    and descriptions that hold no links. *)
Definition samplePlatform : Platform :=
  {| Number_ := fun s => if allDigits s then Some (Number_digits s) else None;
     localeCompare := fun a b => codeUnits 0 a - codeUnits 0 b;
     monthYearLabel := fun date _ =>
       Ok (longMonthName (MonthFromTime date) ++ " " ++ numberToString (YearFromTime date));
     stripLinks := fun s => s |}.

Definition unreachable : JsError :=
  mkError "fetch failed" "TypeError: fetch failed".

(** A GraphQL answer with [data] and no [errors]. *)
Definition answer {T} (d : T) : Exchange T :=
  Answered true 200 "" (Ok {| data := Some d; errors := None |}).

Definition januaryGroups : list TrafficGroup :=
  [ {| dimensionsDate := Some "2026-01-02"; sumRequests := Num 70; sumBytes := Str "7000";
       uniqUniques := Num 7 |};
    {| dimensionsDate := Some "2026-01-01"; sumRequests := Num 30; sumBytes := Num 3000;
       uniqUniques := Num 3 |};
    {| dimensionsDate := None; sumRequests := Num 1; sumBytes := Num 1; uniqUniques := Num 1 |} ].

(** Traffic for January 2026 only, no top paths, and both security
    queries failing. *)
Definition sampleUpstream : Upstream :=
  {| trafficExchange := fun _ startDate _ =>
       if String.eqb startDate "2026-01-01"
       then answer {| trafficZones := Some [ {| httpRequests1dGroups := Some januaryGroups |} ] |}
       else answer {| trafficZones := None |};
     topPathsExchange := fun _ _ _ _ => answer {| topPathZones := None |};
     securityExchange := fun _ _ _ => Rejected unreachable;
     actionOnlyExchange := fun _ _ _ => Rejected unreachable |}.

Definition samplePayload : PageSpeedApiResponse :=
  {| performanceScore := IsNumber (Finite (87 # 100));
     accessibilityScore := IsNumber (Finite 1);
     bestPracticesScore := IsNumber (Finite 92);
     seoScore := NotNumber;
     audits := None |}.

(** Every mobile probe succeeds, every desktop probe is refused. *)
Definition samplePageSpeed : PageSpeedApi :=
  {| probe := fun _ strategy =>
       match strategy with
       | Mobile => ProbeAnswered true 200 "" (Ok samplePayload)
       | Desktop => ProbeAnswered false 500 "backend error" (Throw unreachable)
       end;
     desktopSettlesFirst := fun _ => false |}.

Definition quietPageSpeed : PageSpeedApi :=
  {| probe := fun _ _ => ProbeAnswered true 200 "" (Ok samplePayload);
     desktopSettlesFirst := fun _ => false |}.

Definition sampleWorld : World :=
  {| now := 1770000000000;
     upstream := sampleUpstream;
     pageSpeedApi := quietPageSpeed;
     generatedAtClock := 1770000000000;
     random := fun _ => 0%Q |}.

Definition sampleEnv : Env := {| REPORT_TIMEZONE := None |}.

Definition januaryPoints : list DailyTrafficPoint :=
  [ {| date := "2026-01-01"; requests := 30; uniques := 3; bytes := 3000 |};
    {| date := "2026-01-02"; requests := 70; uniques := 7; bytes := 7000 |} ].

(** An answer that holds the same day twice. *)
Definition duplicateUpstream : Upstream :=
  {| trafficExchange := fun _ _ _ =>
       answer {| trafficZones :=
                   Some [ {| httpRequests1dGroups :=
                               Some [ {| dimensionsDate := Some "2026-01-01";
                                         sumRequests := Num 1; sumBytes := Num 10;
                                         uniqUniques := Num 1 |};
                                      {| dimensionsDate := Some "2026-01-01";
                                         sumRequests := Num 2; sumBytes := Num 20;
                                         uniqUniques := Num 2 |} ] |} ] |};
     topPathsExchange := fun _ _ _ _ => answer {| topPathZones := None |};
     securityExchange := fun _ _ _ => Rejected unreachable;
     actionOnlyExchange := fun _ _ _ => Rejected unreachable |}.

Definition samplePeriod : MonthPeriod :=
  {| monthKey := "2026-01";
     startDate := "2026-01-01";
     endDateExclusive := "2026-02-01";
     prevMonthKey := "2025-12";
     prevStartDate := "2025-12-01";
     prevEndDateExclusive := "2026-01-01";
     startDateTime := "2026-01-01T00:00:00Z";
     endDateTimeExclusive := "2026-02-01T00:00:00Z";
     prevStartDateTime := "2025-12-01T00:00:00Z";
     prevEndDateTimeExclusive := "2026-01-01T00:00:00Z" |}.

Definition sampleAggregation : Aggregation :=
  {| currentDaily := januaryPoints;
     previousDaily := [];
     aggTopPaths := [];
     securityGroups := [];
     pageSpeedResults := [];
     aggWarnings := [] |}.

Definition sampleGroups : list SecurityEventGroup :=
  [ {| source := "waf"; action := "block"; count := 5 |};
    {| source := "rateLimit"; action := "challenge"; count := 7 |};
    {| source := "bic"; action := "log"; count := 5 |};
    {| source := "waf"; action := "block"; count := 2 |};
    {| source := "fw"; action := "allow"; count := 5 |};
    {| source := "Bot"; action := "skip"; count := 9 |} ].

(** The snapshot of the sample run for January 2026. *)
Definition sampleSnapshot : ReportSnapshot :=
  Eval vm_compute in
    match generateMonthlySnapshot samplePlatform SITE_CONFIG sampleEnv sampleWorld
            (Some "2026-01") with
    | Ok snapshot => snapshot
    | Throw _ =>
        assembleSnapshot SITE_CONFIG "UTC" samplePeriod "" sampleAggregation 0 (fun _ => 0%Q)
    end.

(** Top paths with a missing and an empty path among them. *)
Definition pathsUpstream : Upstream :=
  {| trafficExchange := trafficExchange sampleUpstream;
     topPathsExchange := fun _ _ _ _ =>
       answer {| topPathZones :=
                   Some [ Some [ {| clientRequestPath := Some "/about";
                                    topPathRequests := Num 12 |};
                                 {| clientRequestPath := None; topPathRequests := Str "7" |};
                                 {| clientRequestPath := Some "";
                                    topPathRequests := Absent |} ] ] |};
     securityExchange := securityExchange sampleUpstream;
     actionOnlyExchange := actionOnlyExchange sampleUpstream |}.

(** The sample run with the top-paths query refused. *)
Definition noPathsWorld : World :=
  {| now := now sampleWorld;
     upstream :=
       {| trafficExchange := trafficExchange sampleUpstream;
          topPathsExchange := fun _ _ _ _ => Answered false 500 "backend error" (Throw unreachable);
          securityExchange := securityExchange sampleUpstream;
          actionOnlyExchange := actionOnlyExchange sampleUpstream |};
     pageSpeedApi := pageSpeedApi sampleWorld;
     generatedAtClock := generatedAtClock sampleWorld;
     random := random sampleWorld |}.

Definition noPathsSnapshot : ReportSnapshot :=
  Eval vm_compute in
    match generateMonthlySnapshot samplePlatform SITE_CONFIG sampleEnv noPathsWorld
            (Some "2026-01") with
    | Ok snapshot => snapshot
    | Throw _ =>
        assembleSnapshot SITE_CONFIG "UTC" samplePeriod "" sampleAggregation 0 (fun _ => 0%Q)
    end.

End Samples.

Module RunSamples.
Import Js Types Cloudflare PageSpeed Reporting Run Samples.
Local Open Scope string_scope.
Local Open Scope Z_scope.

(** The sample run with a template of one line, a PDF of four bytes, and
    D1 refusing every statement on [report_runs]. *)
Definition sampleServices : Services :=
  {| world := sampleWorld;
     runId := "run-1";
     startedAtClock := 1770000000000;
     finishedAtClock := 1770000004000;
     instanceOfError := fun _ => true;
     renderReportHtml := fun snapshot => "<p>" ++ domain snapshot ++ "</p>";
     pdfExchange := fun _ =>
       PdfAnswered true 200 (Ok "") (Some "application/pdf") (Throw unreachable) (Ok "%PDF");
     outcome := fun w =>
       if isRunRecord w then Throw (newError "no such table: report_runs") else Ok tt;
     pdfPutSettlesFirst := false |}.


Definition sampleReport : GeneratedReport :=
  {| reportRunId := "run-1";
     reportMonth := "2026-01";
     htmlKey := "reports/demo-client/2026-01.html";
     pdfKey := "reports/demo-client/2026-01.pdf";
     reportSnapshot := sampleSnapshot |}.

End RunSamples.

(* ===================================================================== *)
(** * Facts about the runtime: calendar, digits, strings, collections *)
(* ===================================================================== *)

Module JsFacts.
Import Js.
Local Open Scope string_scope.
Local Open Scope Z_scope.

Ltac split_months m :=
  let C := fresh "C" in
  assert (m = 0 \/ m = 1 \/ m = 2 \/ m = 3 \/ m = 4 \/ m = 5 \/ m = 6
          \/ m = 7 \/ m = 8 \/ m = 9 \/ m = 10 \/ m = 11) as C by lia;
  repeat destruct C as [C | C]; subst m.

Lemma DayFromYear_succ y : DayFromYear (y + 1) = DayFromYear y + DaysInYear y.
Proof.
  unfold DayFromYear, DaysInYear.
  repeat match goal with |- context [?a =? ?b] => destruct (Z.eqb_spec a b) end; simpl negb; cbv iota;
  Z.div_mod_to_equations; lia.
Qed.

Lemma DayFromYear_mono a b : a <= b -> DayFromYear a <= DayFromYear b.
Proof. unfold DayFromYear. intros. Z.div_mod_to_equations. lia. Qed.

Lemma YearFromDay_spec d :
  DayFromYear (YearFromDay d) <= d < DayFromYear (YearFromDay d + 1).
Proof.
  unfold YearFromDay.
  set (y0 := 1970 + 400 * d / 146097).
  destruct (Z.leb_spec (DayFromYear (y0 + 1)) d);
  [| destruct (Z.leb_spec (DayFromYear y0) d)].
  all: subst y0; unfold DayFromYear in *; Z.div_mod_to_equations; lia.
Qed.

Lemma YearFromDay_unique y d :
  DayFromYear y <= d < DayFromYear (y + 1) -> YearFromDay d = y.
Proof.
  intros H. pose proof (YearFromDay_spec d) as S.
  destruct (Z.lt_trichotomy (YearFromDay d) y) as [L | [E | G]]; [| exact E |].
  - pose proof (DayFromYear_mono (YearFromDay d + 1) y ltac:(lia)). lia.
  - pose proof (DayFromYear_mono (y + 1) (YearFromDay d) ltac:(lia)). lia.
Qed.

Lemma DaysInYear_range y : DaysInYear y = 365 \/ DaysInYear y = 366.
Proof.
  unfold DaysInYear.
  repeat match goal with |- context [?a =? ?b] => destruct (Z.eqb_spec a b) end; simpl; auto.
Qed.

Lemma monthOfDayWithinYear_range leap dwy : 0 <= monthOfDayWithinYear leap dwy <= 11.
Proof.
  unfold monthOfDayWithinYear.
  repeat match goal with |- context [?a <? ?b] => destruct (Z.ltb_spec a b) end; lia.
Qed.

Lemma MakeDay_of_time t k :
  MakeDay (YearFromTime t) (MonthFromTime t) (DateFromTime t + k) = Day t + k.
Proof.
  unfold MakeDay, DateFromTime, DayWithinYear.
  pose proof (monthOfDayWithinYear_range (InLeapYear t) (Day t - DayFromYear (YearFromTime t))) as R.
  fold (DayWithinYear t) in R. fold (MonthFromTime t) in R.
  rewrite (Z.div_small (MonthFromTime t) 12) by lia.
  rewrite (Z.mod_small (MonthFromTime t) 12) by lia.
  rewrite Z.add_0_r. unfold InLeapYear. lia.
Qed.

Lemma setUTCDate_add t k : setUTCDate t (getUTCDate t + k) = t + k * msPerDay.
Proof.
  unfold setUTCDate, getUTCDate. rewrite MakeDay_of_time.
  unfold MakeDate, Day, TimeWithinDay, msPerDay. Z.div_mod_to_equations. lia.
Qed.

Lemma monthStart_range leap m :
  0 <= leap <= 1 -> 0 <= m <= 11 -> 0 <= monthStart leap m <= 334 + leap.
Proof.
  intros Hl Hm.
  split_months m; cbv beta iota delta [monthStart]; lia.
Qed.

Lemma month_of_monthStart leap m d :
  0 <= leap <= 1 -> 0 <= m <= 11 -> 0 <= d < 28 ->
  monthOfDayWithinYear leap (monthStart leap m + d) = m.
Proof.
  intros Hl Hm Hd.
  unfold monthOfDayWithinYear.
  split_months m; cbv beta iota delta [monthStart];
  repeat match goal with |- context [?a <? ?b] => destruct (Z.ltb_spec a b); try lia end.
Qed.

(** ** A time value and its calendar fields *)

Lemma leapFlag_range y : 0 <= (if DaysInYear y =? 366 then 1 else 0) <= 1.
Proof. destruct (DaysInYear y =? 366); lia. Qed.

Lemma Day_MakeDate d tm : 0 <= tm < msPerDay -> Day (MakeDate d tm) = d.
Proof. unfold Day, MakeDate, msPerDay. intros. Z.div_mod_to_equations. lia. Qed.

Lemma TimeWithinDay_MakeDate d tm : 0 <= tm < msPerDay -> TimeWithinDay (MakeDate d tm) = tm.
Proof. unfold TimeWithinDay, MakeDate, msPerDay. intros. Z.div_mod_to_equations. lia. Qed.

Lemma MakeDay_carry y m d : MakeDay y m d = MakeDay (y + m / 12) (m mod 12) d.
Proof.
  unfold MakeDay.
  pose proof (Z.mod_pos_bound m 12 ltac:(lia)).
  rewrite (Z.div_small (m mod 12) 12) by lia.
  rewrite Z.mod_mod by lia. rewrite Z.add_0_r. reflexivity.
Qed.

(** A day of month [mn] of year [y], [d] days after its first day. *)
Lemma calendar_of_MakeDay y mn d tm :
  0 <= mn <= 11 -> 0 <= d < 28 -> 0 <= tm < msPerDay ->
  let t := MakeDate (MakeDay y mn (1 + d)) tm in
  YearFromTime t = y /\ MonthFromTime t = mn /\ DateFromTime t = 1 + d.
Proof.
  intros Hm Hd Htm t.
  assert (Day t = DayFromYear y + monthStart (if DaysInYear y =? 366 then 1 else 0) mn + d) as HD.
  { subst t. rewrite Day_MakeDate by assumption. unfold MakeDay.
    rewrite Z.div_small, Z.mod_small by lia. rewrite Z.add_0_r. lia. }
  assert (YearFromTime t = y) as HY.
  { unfold YearFromTime. apply YearFromDay_unique. rewrite HD, DayFromYear_succ.
    pose proof (monthStart_range _ mn (leapFlag_range y) Hm).
    pose proof (DaysInYear_range y).
    destruct (Z.eqb_spec (DaysInYear y) 366); lia. }
  assert (DayWithinYear t = monthStart (InLeapYear t) mn + d) as HW.
  { unfold DayWithinYear, InLeapYear. rewrite HY, HD. lia. }
  assert (MonthFromTime t = mn) as HM.
  { unfold MonthFromTime. rewrite HW. apply month_of_monthStart; try assumption.
    unfold InLeapYear. apply leapFlag_range. }
  split; [exact HY |]. split; [exact HM |].
  unfold DateFromTime. rewrite HM, HW. lia.
Qed.

(** ** Decimal digits *)

Ltac split_digit d :=
  let C := fresh "C" in
  assert (d = 0 \/ d = 1 \/ d = 2 \/ d = 3 \/ d = 4 \/ d = 5 \/ d = 6
          \/ d = 7 \/ d = 8 \/ d = 9) as C by lia;
  repeat destruct C as [C | C]; subst d.

Lemma digitValue_digitChar d : 0 <= d <= 9 -> digitValue (digitChar d) = d.
Proof. intros H. split_digit d; reflexivity. Qed.

Lemma isDigit_digitChar d : 0 <= d <= 9 -> isDigit (digitChar d) = true.
Proof. intros H. split_digit d; reflexivity. Qed.

Lemma digitChar_digitValue c : isDigit c = true -> digitChar (digitValue c) = c.
Proof.
  destruct c as [[] [] [] [] [] [] [] []]; vm_compute; intros H; try reflexivity; discriminate H.
Qed.

Lemma digitValue_range c : isDigit c = true -> 0 <= digitValue c <= 9.
Proof.
  destruct c as [[] [] [] [] [] [] [] []]; vm_compute; intros H; try discriminate H; split; discriminate.
Qed.

Lemma digit_mod n : 0 <= n mod 10 <= 9.
Proof. pose proof (Z.mod_pos_bound n 10). lia. Qed.

Lemma Number_pad2 n : 0 <= n <= 99 -> Number_digits (pad2 n) = n.
Proof.
  intros H. unfold Number_digits, pad2. cbn [digitsValue].
  rewrite !digitValue_digitChar by apply digit_mod.
  Z.div_mod_to_equations. lia.
Qed.

Lemma Number_pad4 n : 0 <= n <= 9999 -> Number_digits (pad4 n) = n.
Proof.
  intros H. unfold Number_digits, pad4, pad3, pad2. cbn [digitsValue].
  rewrite !digitValue_digitChar by apply digit_mod.
  Z.div_mod_to_equations. lia.
Qed.

Lemma allDigits_pad2 n : allDigits (pad2 n) = true.
Proof. unfold pad2. cbn [allDigits]. rewrite !isDigit_digitChar by apply digit_mod. reflexivity. Qed.

Lemma allDigits_pad4 n : allDigits (pad4 n) = true.
Proof.
  unfold pad4, pad3, pad2. cbn [allDigits].
  rewrite !isDigit_digitChar by apply digit_mod. reflexivity.
Qed.

Lemma pad2_Number c1 c2 :
  isDigit c1 = true -> isDigit c2 = true ->
  pad2 (Number_digits (String c1 (String c2 EmptyString))) = String c1 (String c2 EmptyString).
Proof.
  intros H1 H2. unfold Number_digits. cbn [digitsValue].
  pose proof (digitValue_range _ H1). pose proof (digitValue_range _ H2).
  unfold pad2.
  replace ((10 * (10 * 0 + digitValue c1) + digitValue c2) / 10 mod 10) with (digitValue c1)
    by (Z.div_mod_to_equations; lia).
  replace ((10 * (10 * 0 + digitValue c1) + digitValue c2) mod 10) with (digitValue c2)
    by (Z.div_mod_to_equations; lia).
  now rewrite !digitChar_digitValue.
Qed.

Lemma pad4_Number c1 c2 c3 c4 :
  isDigit c1 = true -> isDigit c2 = true -> isDigit c3 = true -> isDigit c4 = true ->
  let s := String c1 (String c2 (String c3 (String c4 EmptyString))) in
  pad4 (Number_digits s) = s /\ 0 <= Number_digits s <= 9999.
Proof.
  intros H1 H2 H3 H4 s. subst s. unfold Number_digits. cbn [digitsValue].
  pose proof (digitValue_range _ H1). pose proof (digitValue_range _ H2).
  pose proof (digitValue_range _ H3). pose proof (digitValue_range _ H4).
  set (n := 10 * (10 * (10 * (10 * 0 + digitValue c1) + digitValue c2) + digitValue c3) + digitValue c4).
  split; [| subst n; lia].
  unfold pad4, pad3, pad2.
  replace (n / 1000 mod 10) with (digitValue c1) by (subst n; Z.div_mod_to_equations; lia).
  replace (n / 100 mod 10) with (digitValue c2) by (subst n; Z.div_mod_to_equations; lia).
  replace (n / 10 mod 10) with (digitValue c3) by (subst n; Z.div_mod_to_equations; lia).
  replace (n mod 10) with (digitValue c4) by (subst n; Z.div_mod_to_equations; lia).
  now rewrite !digitChar_digitValue.
Qed.

(** ** Substrings *)

Lemma prefix_append x s : prefix x (x ++ s) = true.
Proof.
  induction x as [| c x IH]; cbn [prefix append]; [now destruct s |].
  destruct (ascii_dec c c); [assumption | congruence].
Qed.

Lemma includes_here x s : includes x (x ++ s) = true.
Proof.
  destruct (x ++ s) eqn:E; cbn [includes]; rewrite <- E, prefix_append; reflexivity.
Qed.

Lemma includes_later x a s : includes x s = true -> includes x (a ++ s) = true.
Proof.
  intros H. induction a as [| c a IH]; cbn [append includes]; [assumption |].
  rewrite IH. now destruct (prefix x (String c (a ++ s))).
Qed.

Lemma includes_middle x a b : includes x (a ++ x ++ b) = true.
Proof. apply includes_later, includes_here. Qed.

(** ** Stable sorting *)

Section StableSort.
Context {A : Type} (cmp : A -> A -> Z).

Lemma insertBy_perm x l : Permutation (insertBy cmp x l) (x :: l).
Proof.
  induction l as [| y ys IH]; cbn [insertBy]; [reflexivity |].
  destruct (cmp x y <=? 0); [reflexivity |].
  rewrite IH. apply perm_swap.
Qed.

Lemma sortBy_perm l : Permutation (sortBy cmp l) l.
Proof.
  induction l as [| x xs IH]; cbn [sortBy fold_right]; [reflexivity |].
  fold (sortBy cmp xs). rewrite insertBy_perm. now constructor.
Qed.

(** [before a b]: the sorted array may hold [a] ahead of [b]. *)
Variable before : A -> A -> Prop.
(** [earlier a b]: [a] stood ahead of [b] in the array given to [sort]. *)
Variable earlier : A -> A -> Prop.
Hypothesis keep_or_swap :
  forall a b, earlier a b -> if cmp a b <=? 0 then before a b else before b a.
Hypothesis keep_through :
  forall a b c, earlier a b -> earlier a c -> (cmp a b <=? 0) = true -> before b c -> before a c.

Lemma insertBy_sorted x l :
  StronglySorted before l -> Forall (earlier x) l ->
  StronglySorted before (insertBy cmp x l).
Proof.
  induction l as [| y ys IH]; intros Hs Hx; cbn [insertBy].
  - repeat constructor.
  - inversion Hs as [| ? ? Hs' Hy]; subst. inversion Hx as [| ? ? Hxy Hxs]; subst.
    pose proof (keep_or_swap x y Hxy) as K.
    destruct (cmp x y <=? 0) eqn:E.
    + constructor; [exact Hs |]. constructor; [exact K |].
      rewrite Forall_forall in *. intros z Hz.
      apply (keep_through x y z); auto.
    + constructor; [apply IH; assumption |].
      apply (Permutation_Forall (Permutation_sym (insertBy_perm x ys))).
      constructor; assumption.
Qed.

Lemma sortBy_sorted l :
  StronglySorted earlier l -> StronglySorted before (sortBy cmp l).
Proof.
  induction l as [| x xs IH]; intros Hs; cbn [sortBy fold_right]; [constructor |].
  fold (sortBy cmp xs). inversion Hs; subst.
  apply insertBy_sorted; [auto |].
  apply (Permutation_Forall (Permutation_sym (sortBy_perm xs))). assumption.
Qed.

End StableSort.

Lemma StronglySorted_app_inv {A} (R : A -> A -> Prop) l1 l2 :
  StronglySorted R (l1 ++ l2)%list ->
  StronglySorted R l1 /\ StronglySorted R l2
  /\ (forall a b, In a l1 -> In b l2 -> R a b).
Proof.
  induction l1 as [| x xs IH]; cbn [app]; intros H.
  - repeat split; [constructor | exact H | intros a b []].
  - inversion H as [| ? ? Hs Hx]; subst.
    destruct (IH Hs) as (H1 & H2 & H12).
    rewrite Forall_app in Hx. destruct Hx as [Hx1 Hx2].
    repeat split; [constructor; assumption | assumption |].
    intros a b [<- | Ha] Hb; [| auto].
    rewrite Forall_forall in Hx2. auto.
Qed.

Lemma StronglySorted_snoc {A} (R : A -> A -> Prop) l x :
  StronglySorted R l -> Forall (fun a => R a x) l -> StronglySorted R (l ++ [x])%list.
Proof.
  induction l as [| y ys IH]; cbn [app]; intros Hs Hx.
  - repeat constructor.
  - inversion Hs; subst. inversion Hx; subst.
    constructor; [auto |]. rewrite Forall_app. split; [assumption | repeat constructor; assumption].
Qed.

Lemma StronglySorted_weaken {A} (R R' : A -> A -> Prop) l :
  (forall a b, In a l -> In b l -> R a b -> R' a b) ->
  StronglySorted R l -> StronglySorted R' l.
Proof.
  induction l as [| x xs IH]; intros Himp Hs; [constructor |].
  inversion Hs as [| ? ? Hs' Hx]; subst. constructor.
  - apply IH; [| assumption]. intros a b Ha Hb. apply Himp; now right.
  - rewrite Forall_forall in *. intros b Hb. apply Himp; [now left | now right | auto].
Qed.

Lemma StronglySorted_map {A B} (f : A -> B) (R : B -> B -> Prop) l :
  StronglySorted (fun a b => R (f a) (f b)) l -> StronglySorted R (map f l).
Proof.
  induction 1; cbn [map]; constructor; [assumption |].
  rewrite Forall_map. assumption.
Qed.

(** ** Insertion-ordered sets and maps *)

Lemma firstIndex_le x xs : (firstIndex x xs <= List.length xs)%nat.
Proof.
  induction xs as [| y ys IH]; cbn [firstIndex List.length]; [lia |].
  destruct (String.eqb y x); lia.
Qed.

Lemma firstIndex_In x xs : In x xs <-> (firstIndex x xs < List.length xs)%nat.
Proof.
  induction xs as [| y ys IH]; cbn [firstIndex List.length In]; [lia |].
  destruct (String.eqb_spec y x); [intuition lia |].
  rewrite IH. intuition lia.
Qed.

Lemma firstIndex_app_l x xs ys :
  In x xs -> firstIndex x (xs ++ ys) = firstIndex x xs.
Proof.
  induction xs as [| y rest IH]; cbn [firstIndex app In]; [intros [] |].
  destruct (String.eqb_spec y x); [reflexivity |].
  intros [E | H]; [contradiction | now rewrite IH].
Qed.

Lemma firstIndex_app_r x xs ys :
  ~ In x xs -> firstIndex x (xs ++ ys)%list = (List.length xs + firstIndex x ys)%nat.
Proof.
  induction xs as [| y rest IH]; cbn [firstIndex app In List.length]; [reflexivity |].
  intros H. destruct (String.eqb_spec y x); [tauto |]. rewrite IH by tauto. lia.
Qed.

Lemma Set_has_In x s : Set_has x s = true <-> In x s.
Proof.
  unfold Set_has. rewrite existsb_exists. split.
  - intros (y & Hy & E). apply String.eqb_eq in E. now subst.
  - intros H. exists x. split; [assumption | apply String.eqb_refl].
Qed.

Lemma fold_left_snoc {A B} (f : A -> B -> A) l x a :
  fold_left f (l ++ [x])%list a = f (fold_left f l a) x.
Proof. now rewrite fold_left_app. Qed.

Lemma Set_from_snoc xs x : Set_from (xs ++ [x])%list = Set_add (Set_from xs) x.
Proof. apply fold_left_snoc. Qed.

Lemma Set_from_spec xs :
  NoDup (Set_from xs)
  /\ (forall x, In x (Set_from xs) <-> In x xs)
  /\ StronglySorted (fun a b => (firstIndex a xs < firstIndex b xs)%nat) (Set_from xs).
Proof.
  induction xs as [| x xs (Hnd & Hin & Hs)] using rev_ind.
  - repeat split; try constructor; auto.
  - rewrite Set_from_snoc. unfold Set_add.
    assert (forall a, In a xs ->
              firstIndex a (xs ++ [x]) = firstIndex a xs) as Hkeep
      by (intros; now apply firstIndex_app_l).
    assert (StronglySorted
              (fun a b => (firstIndex a (xs ++ [x]) < firstIndex b (xs ++ [x]))%nat)
              (Set_from xs)) as Hs'.
    { revert Hs. apply StronglySorted_weaken. cbv beta.
      intros a b Ha Hb. apply Hin in Ha, Hb. now rewrite !Hkeep. }
    destruct (Set_has x (Set_from xs)) eqn:E.
    + apply Set_has_In in E. repeat split; auto.
      * intros H. apply in_or_app. left. now apply Hin.
      * rewrite in_app_iff. intros [H | [<- | []]]; apply Hin; [assumption | now apply Hin].
    + assert (~ In x xs) as Hx.
      { intros H. apply Hin, Set_has_In in H. congruence. }
      repeat split.
      * apply NoDup_app; [assumption | repeat constructor; auto | ].
        intros a Ha [<- | []]. apply Hx. now apply Hin.
      * rewrite !in_app_iff, Hin. tauto.
      * rewrite !in_app_iff, Hin. tauto.
      * apply StronglySorted_snoc; [assumption |].
        rewrite Forall_forall. intros a Ha. apply Hin in Ha.
        rewrite (Hkeep a Ha), (firstIndex_app_r x xs [x] Hx).
        apply firstIndex_In in Ha. lia.
Qed.

Section MapFacts.
Context {V : Type}.

Lemma Map_get_set (k k' : string) (v : V) m :
  Map_get k' (Map_set k v m) = if String.eqb k k' then Some v else Map_get k' m.
Proof.
  induction m as [| [k0 v0] rest IH]; cbn [Map_set Map_get].
  - reflexivity.
  - destruct (String.eqb_spec k0 k) as [-> | Hne]; cbn [Map_get].
    + destruct (String.eqb_spec k k'); reflexivity.
    + rewrite IH. destruct (String.eqb_spec k0 k') as [-> | ?]; [| reflexivity].
      destruct (String.eqb_spec k k'); [congruence | reflexivity].
Qed.

Lemma Map_set_keys (k : string) (v : V) m :
  map fst (Map_set k v m) = Set_add (map fst m) k.
Proof.
  unfold Set_add, Set_has.
  induction m as [| [k0 v0] rest IH]; cbn [Map_set map fst existsb app]; [reflexivity |].
  rewrite (String.eqb_sym k k0).
  destruct (String.eqb_spec k0 k) as [-> | Hne]; cbn [map fst orb]; [reflexivity |].
  rewrite IH. destruct (existsb (String.eqb k) (map fst rest)); reflexivity.
Qed.

Lemma Map_get_In k (v : V) m : Map_get k m = Some v -> In (k, v) m.
Proof.
  induction m as [| [k0 v0] rest IH]; cbn [Map_get In]; [discriminate |].
  destruct (String.eqb_spec k0 k) as [-> | ?]; [intros [= ->]; auto | auto].
Qed.

Lemma Map_In_get k (v : V) m : NoDup (map fst m) -> In (k, v) m -> Map_get k m = Some v.
Proof.
  induction m as [| [k0 v0] rest IH]; cbn [Map_get In map fst]; [intros _ [] |].
  intros Hnd [[= -> ->] | Hin]; [now rewrite String.eqb_refl |].
  inversion Hnd as [| ? ? Hk Hnd']; subst.
  destruct (String.eqb_spec k0 k) as [-> | ?]; [| auto].
  exfalso. apply Hk. now apply (in_map fst) in Hin.
Qed.

End MapFacts.

(** ** Double precision *)

Lemma pow2_pos e : (0 < pow2 e)%Q.
Proof. unfold pow2. apply Qpower_0_lt. reflexivity. Qed.

Lemma pow2_add a b : (pow2 (a + b) == pow2 a * pow2 b)%Q.
Proof. unfold pow2. apply Qpower_plus. discriminate. Qed.

Lemma pow2_opp a : (pow2 (- a) * pow2 a == 1)%Q.
Proof.
  rewrite <- pow2_add. replace (- a + a) with 0 by lia. reflexivity.
Qed.

Lemma pow2_Z n : 0 <= n -> (pow2 n == inject_Z (2 ^ n))%Q.
Proof. intros H. unfold pow2. now rewrite Zpower_Qpower. Qed.

Lemma log2_bounds n :
  0 < n -> (pow2 (Z.log2 n) <= inject_Z n /\ inject_Z n < pow2 (Z.log2 n + 1))%Q.
Proof.
  intros H. pose proof (Z.log2_nonneg n) as L.
  destruct (Z.log2_spec n H) as [A B].
  rewrite !pow2_Z by lia. split.
  - now rewrite <- Zle_Qle.
  - rewrite <- Zlt_Qlt. now rewrite <- Z.add_1_r in B.
Qed.

(** The scaled significand of a number other than 0 lies in [2^52, 2^53). *)
Lemma lastPlace_spec x :
  ~ (x == 0)%Q ->
  (pow2 52 <= Qabs x * pow2 (- lastPlace x) /\ Qabs x * pow2 (- lastPlace x) < pow2 53)%Q.
Proof.
  intros Hx. unfold lastPlace.
  set (n := Z.abs (Qnum x)). set (d := Z.pos (Qden x)).
  set (a := Z.log2 n). set (b := Z.log2 d).
  assert (0 < n) as Hn.
  { subst n. destruct x as [[| p | p] q]; cbn; try lia. exfalso. apply Hx. reflexivity. }
  assert (0 < d) as Hd by (subst d; lia).
  destruct (log2_bounds n Hn) as [A1 A2]. destruct (log2_bounds d Hd) as [B1 B2].
  fold a in A1, A2. fold b in B1, B2.
  assert (Qabs x * inject_Z d == inject_Z n)%Q as E.
  { subst n d. destruct x as [xn xd]. unfold Qabs, Qeq, Qmult, inject_Z. cbn. lia. }
  rewrite pow2_add in A2, B2. change (pow2 1) with 2%Q in A2, B2.
  pose proof (pow2_pos a) as Pa. pose proof (pow2_pos b) as Pb.
  pose proof (pow2_pos (a - b)) as Pk.
  assert (pow2 (a - b) * pow2 b == pow2 a)%Q as K.
  { rewrite <- pow2_add. now replace (a - b + b) with a by lia. }
  pose proof (Qabs_nonneg x) as X0.
  set (X := Qabs x) in *. set (D := inject_Z d) in *. set (N := inject_Z n) in *.
  set (P := pow2 (a - b)) in *. set (A := pow2 a) in *. set (B := pow2 b) in *.
  (* the size of x is within a factor 2 of P *)
  assert (P < 2 * X)%Q as L1.
  { apply Qnot_le_lt. intros C.
    assert (2 * X * D <= P * D)%Q by (apply Qmult_le_compat_r; [exact C | lra]).
    assert (P * D < P * (B * 2))%Q by (apply Qmult_lt_l; [exact Pk | exact B2]).
    assert (2 * X * D == 2 * N)%Q by (rewrite <- E; ring).
    assert (P * (B * 2) == 2 * A)%Q by (rewrite <- K; ring).
    lra. }
  assert (X < 2 * P)%Q as L2.
  { apply Qnot_le_lt. intros C.
    assert (2 * P * B <= X * B)%Q by (apply Qmult_le_compat_r; [exact C | lra]).
    assert (X * B <= X * D)%Q
      by (rewrite !(Qmult_comm X); apply Qmult_le_compat_r; [exact B1 | exact X0]).
    assert (2 * P * B == 2 * A)%Q by (rewrite <- K; ring).
    lra. }
  assert (forall j, pow2 (- (a - b - j)) * P == pow2 j)%Q as Sc.
  { intros j. unfold P. rewrite <- pow2_add.
    now replace (- (a - b - j) + (a - b)) with j by lia. }
  assert (forall j lo hi, (lo * P <= X)%Q -> (X < hi * P)%Q ->
            (lo * pow2 j <= X * pow2 (- (a - b - j))
             /\ X * pow2 (- (a - b - j)) < hi * pow2 j)%Q) as G.
  { intros j lo hi Hlo Hhi. specialize (Sc j).
    pose proof (pow2_pos (- (a - b - j))) as Pj.
    set (S := pow2 (- (a - b - j))) in *. split.
    - assert (lo * P * S <= X * S)%Q by (apply Qmult_le_compat_r; [exact Hlo | lra]).
      assert (lo * P * S == lo * pow2 j)%Q by (rewrite <- Sc; ring). lra.
    - assert (X * S < hi * P * S)%Q by (apply Qmult_lt_r; [exact Pj | exact Hhi]).
      assert (hi * P * S == hi * pow2 j)%Q by (rewrite <- Sc; ring). lra. }
  destruct (Qle_bool P X) eqn:T.
  - apply Qle_bool_iff in T.
    destruct (G 52 1%Q 2%Q) as [G1 G2]; [lra | lra |].
    change (pow2 53) with (2 * pow2 52)%Q. lra.
  - assert (X < P)%Q as T'.
    { apply Qnot_le_lt. intros C. apply Qle_bool_iff in C. congruence. }
    destruct (G 53 (1 # 2)%Q 1%Q) as [G1 G2]; [lra | lra |].
    change (pow2 53) with (2 * pow2 52)%Q in *. lra.
Qed.

Lemma roundTiesToEven_near s :
  (Qabs (inject_Z (roundTiesToEven s) - s) <= 1 # 2)%Q.
Proof.
  unfold roundTiesToEven.
  pose proof (Qfloor_le s) as F1. pose proof (Qlt_floor s) as F2.
  rewrite inject_Z_plus in F2. change (inject_Z 1) with 1%Q in F2.
  set (f := Qfloor s) in *.
  destruct (Qcompare (s - inject_Z f) (1 # 2)) eqn:C.
  - apply Qeq_alt in C. destruct (Z.even f).
    + apply Qabs_case; intros; lra.
    + rewrite inject_Z_plus. change (inject_Z 1) with 1%Q. apply Qabs_case; intros; lra.
  - apply Qlt_alt in C. apply Qabs_case; intros; lra.
  - apply Qgt_alt in C. rewrite inject_Z_plus. change (inject_Z 1) with 1%Q.
    apply Qabs_case; intros; lra.
Qed.

(** Rounding to the nearest double moves a number by at most the
    2^53-rd part of its size. *)
Lemma roundDouble_near x :
  (Qabs (roundDouble x - x) <= Qabs x * pow2 (- 53))%Q.
Proof.
  unfold roundDouble. destruct (Qeq_bool x 0) eqn:Z0.
  - apply Qeq_bool_iff in Z0. rewrite Z0. cbn. discriminate.
  - assert (~ (x == 0)%Q) as Hx.
    { intros C. apply Qeq_bool_iff in C. congruence. }
    cbv zeta. rewrite Qred_correct.
    destruct (lastPlace_spec x Hx) as [R1 R2].
    set (e := lastPlace x) in *.
    pose proof (roundTiesToEven_near (x * pow2 (- e))) as N.
    set (m := inject_Z (roundTiesToEven (x * pow2 (- e)))) in *.
    pose proof (pow2_pos e) as Pe. pose proof (pow2_pos (- e)) as Pne.
    pose proof (pow2_opp e) as O.
    assert (m * pow2 e - x == (m - x * pow2 (- e)) * pow2 e)%Q as ->.
    { transitivity (m * pow2 e - x * (pow2 (- e) * pow2 e))%Q; [rewrite O; ring | ring]. }
    rewrite Qabs_Qmult. rewrite (Qabs_pos (pow2 e)) by lra.
    assert (Qabs x * pow2 (- 53) == Qabs x * pow2 (- e) * pow2 (- 53) * pow2 e)%Q as ->.
    { transitivity (Qabs x * pow2 (- 53) * (pow2 (- e) * pow2 e))%Q; [rewrite O; ring | ring]. }
    apply Qmult_le_compat_r; [| lra].
    assert (pow2 52 * pow2 (- 53) == 1 # 2)%Q as H by reflexivity.
    assert (pow2 52 * pow2 (- 53) <= Qabs x * pow2 (- e) * pow2 (- 53))%Q.
    { apply Qmult_le_compat_r; [exact R1 |]. pose proof (pow2_pos (- 53)). lra. }
    lra.
Qed.

Lemma roundDouble_zero x : (x == 0)%Q -> roundDouble x = 0%Q.
Proof. intros H. unfold roundDouble. apply Qeq_bool_iff in H. now rewrite H. Qed.

(** Rounding keeps the sign, and only 0 rounds to 0. *)
Lemma roundDouble_sign x :
  ((0 < x -> 0 < roundDouble x) /\ (x < 0 -> roundDouble x < 0))%Q.
Proof.
  pose proof (roundDouble_near x) as N.
  change (pow2 (- 53)) with (1 # 9007199254740992)%Q in N.
  split; intros H.
  - rewrite (Qabs_pos x) in N by lra. revert N. apply Qabs_case; intros; lra.
  - rewrite (Qabs_neg x) in N by lra. revert N. apply Qabs_case; intros; lra.
Qed.

(** One more rounding after an error of [eps] parts of the exact value
    [x] leaves an error of at most [eps + u + eps * u] parts, [u] being
    2^-53. *)
Lemma roundDouble_step eps x y :
  (Qabs (y - x) <= eps * Qabs x ->
   Qabs (roundDouble y - x) <= (eps + pow2 (- 53) + eps * pow2 (- 53)) * Qabs x)%Q.
Proof.
  intros H. pose proof (roundDouble_near y) as N.
  change (pow2 (- 53)) with (1 # 9007199254740992)%Q in *.
  set (e := (eps * Qabs x)%Q) in *.
  assert ((eps + (1 # 9007199254740992) + eps * (1 # 9007199254740992)) * Qabs x
          == e + (1 # 9007199254740992) * Qabs x + (1 # 9007199254740992) * e)%Q as ->
    by (unfold e; ring).
  apply Qabs_Qle_condition in H.
  pose proof (Qle_Qabs x) as X1. pose proof (Qle_Qabs (- x)) as X2.
  rewrite Qabs_opp in X2.
  assert (Qabs y <= Qabs x + e)%Q as Y by (apply Qabs_Qle_condition; lra).
  apply Qabs_Qle_condition in N. apply Qabs_Qle_condition.
  revert H X1 X2 Y N. generalize (Qabs x) (Qabs y) (roundDouble y) e.
  intros ax ay r e' H X1 X2 Y N. lra.
Qed.

Lemma Qabs_scale k x y eps :
  (Qabs (y - x) <= eps * Qabs x -> Qabs (y * k - x * k) <= eps * Qabs (x * k))%Q.
Proof.
  intros H. assert (y * k - x * k == (y - x) * k)%Q as -> by ring.
  rewrite !Qabs_Qmult. rewrite Qmult_assoc.
  apply Qmult_le_compat_r; [exact H | apply Qabs_nonneg].
Qed.

Lemma roundDouble_nonneg x : (0 <= roundDouble x <-> 0 <= x)%Q.
Proof.
  destruct (roundDouble_sign x) as [P N].
  destruct (Qlt_le_dec x 0) as [Hneg | Hpos].
  - specialize (N Hneg). split; intros; lra.
  - destruct (Qlt_le_dec 0 x) as [Hgt | Hle].
    + specialize (P Hgt). split; intros; lra.
    + rewrite roundDouble_zero by lra. split; intros; lra.
Qed.

(** The difference, the quotient and the product of a percentage, each
    rounded: within 2^-51 parts of the exact percentage. *)
Lemma three_roundings (c p : Q) :
  (Qabs (mulDouble (divDouble (subDouble c p) p) 100 - (c - p) / p * 100)
   <= pow2 (- 51) * Qabs ((c - p) / p * 100))%Q.
Proof.
  unfold mulDouble, divDouble, subDouble, Qdiv.
  set (u := pow2 (- 53)).
  assert (Qabs (c - p - (c - p)) <= 0 * Qabs (c - p))%Q as E0.
  { assert (c - p - (c - p) == 0)%Q as -> by ring. rewrite Qmult_0_l. discriminate. }
  apply roundDouble_step in E0. fold u in E0.
  apply (Qabs_scale (/ p)) in E0.
  apply roundDouble_step in E0. fold u in E0.
  apply (Qabs_scale 100) in E0.
  apply roundDouble_step in E0. fold u in E0.
  eapply Qle_trans; [exact E0 |].
  apply Qmult_le_compat_r; [| apply Qabs_nonneg].
  vm_compute. discriminate.
Qed.

End JsFacts.

(* ===================================================================== *)
(** * period.ts: month periods and weekly windows *)
(* ===================================================================== *)

Module PeriodFacts.
Import Js Types Period JsFacts.
Local Open Scope string_scope.
Local Open Scope Z_scope.

(** ** The first day of a month *)

Lemma firstOfMonth_calendar y mn :
  0 <= mn <= 11 ->
  YearFromTime (firstOfMonth y mn) = y /\ MonthFromTime (firstOfMonth y mn) = mn
  /\ DateFromTime (firstOfMonth y mn) = 1.
Proof.
  intros Hm. apply (calendar_of_MakeDay y mn 0 0); unfold msPerDay; lia.
Qed.

Lemma firstOfMonth_clock y mn :
  HourFromTime (firstOfMonth y mn) = 0 /\ MinFromTime (firstOfMonth y mn) = 0
  /\ SecFromTime (firstOfMonth y mn) = 0 /\ msFromTime (firstOfMonth y mn) = 0.
Proof.
  unfold HourFromTime, MinFromTime, SecFromTime, msFromTime, firstOfMonth, MakeDate, msPerDay.
  generalize (MakeDay y mn 1). intros z.
  repeat split; Z.div_mod_to_equations; lia.
Qed.

Lemma Date_UTC_first y m :
  Date_UTC y m 1 = firstOfMonth (fullYear y + m / 12) (m mod 12).
Proof.
  unfold Date_UTC, firstOfMonth, fullYear. now rewrite MakeDay_carry.
Qed.

Lemma shiftMonth_first y mn offset :
  0 <= mn <= 11 ->
  shiftMonth (firstOfMonth y mn) offset
  = firstOfMonth (fullYear y + (mn + offset) / 12) ((mn + offset) mod 12).
Proof.
  intros Hm. unfold shiftMonth, getUTCFullYear, getUTCMonth.
  destruct (firstOfMonth_calendar y mn Hm) as (-> & -> & _).
  apply Date_UTC_first.
Qed.

Lemma toIsoDate_first y mn :
  0 <= mn <= 11 -> 0 <= y <= 9999 ->
  toIsoDate (firstOfMonth y mn) = pad4 y ++ "-" ++ pad2 (mn + 1) ++ "-01".
Proof.
  intros Hm Hy. unfold toIsoDate, toISOString.
  destruct (firstOfMonth_calendar y mn Hm) as (-> & -> & ->).
  unfold isoYear. replace ((0 <=? y) && (y <=? 9999)) with true
    by (symmetry; apply andb_true_iff; split; apply Z.leb_le; lia).
  reflexivity.
Qed.

Lemma toIsoDate_first_eq a b a' b' :
  a = a' -> b = b' -> toIsoDate (firstOfMonth a b) = toIsoDate (firstOfMonth a' b').
Proof. now intros -> ->. Qed.

Lemma firstOfMonth_in_range y m :
  0 <= y <= 9999 -> 1 <= m <= 12 ->
  TimeClip (firstOfMonth y (m - 1)) = Some (firstOfMonth y (m - 1)).
Proof.
  intros Hy Hm. unfold TimeClip, firstOfMonth, MakeDate, MakeDay.
  replace ((m - 1) / 12) with 0 by (Z.div_mod_to_equations; lia).
  rewrite !Z.add_0_r.
  set (leap := if DaysInYear y =? 366 then 1 else 0).
  assert (0 <= leap <= 1) as Hl by (subst leap; destruct (DaysInYear y =? 366); lia).
  pose proof (monthStart_range leap ((m - 1) mod 12) Hl
                ltac:(Z.div_mod_to_equations; lia)) as Hs.
  set (start := monthStart leap ((m - 1) mod 12)) in *. clearbody start.
  assert (- 719528 <= DayFromYear y <= 2932897) as Hd
    by (unfold DayFromYear; Z.div_mod_to_equations; lia).
  set (first := DayFromYear y) in *. clearbody first.
  match goal with
  | |- (if ?a <=? ?b then _ else _) = _ => destruct (Z.leb_spec a b) as [| Hout]
  end; [reflexivity | exfalso].
  unfold msPerDay in Hout. lia.
Qed.

Lemma Date_parse_first y m :
  0 <= y <= 9999 -> 1 <= m <= 12 ->
  Date_parse (isoFirstDay y m ++ "T00:00:00Z") = Some (firstOfMonth y (m - 1)).
Proof.
  intros Hy Hm.
  pose proof (Number_pad4 y Hy) as N4. pose proof (Number_pad2 m ltac:(lia)) as N2.
  pose proof (allDigits_pad4 y) as A4. pose proof (allDigits_pad2 m) as A2.
  pose proof (firstOfMonth_in_range y m Hy Hm) as Clip.
  unfold isoFirstDay, pad4, pad3, pad2 in *. cbn [append] in *.
  unfold Date_parse, parseYear, takeDigits. cbn [splitAt]. rewrite A4, N4.
  unfold parseField, takeDigits.
  replace (Ascii.eqb "-" "-") with true by reflexivity. cbn [splitAt]. rewrite A2, N2.
  destruct (Z.leb_spec 1 m); [| lia]. destruct (Z.leb_spec m 12); [| lia].
  cbn [andb].
  replace (allDigits "01") with true by reflexivity.
  replace (Number_digits "01") with 1 by reflexivity.
  replace ((1 <=? 1) && (1 <=? 31)) with true by reflexivity.
  replace (String.eqb "T00:00:00Z" "T00:00:00Z") with true by reflexivity.
  exact Clip.
Qed.

Lemma month_length y m :
  1 <= m <= 12 ->
  exists n : nat,
    (28 <= n <= 31)%nat
    /\ firstOfMonth (fst (nextMonth y m)) (snd (nextMonth y m) - 1)
       = firstOfMonth y (m - 1) + Z.of_nat n * msPerDay.
Proof.
  intros Hm.
  exists (Z.to_nat (MakeDay (fst (nextMonth y m)) (snd (nextMonth y m) - 1) 1
                    - MakeDay y (m - 1) 1)).
  assert (28 <= MakeDay (fst (nextMonth y m)) (snd (nextMonth y m) - 1) 1
                - MakeDay y (m - 1) 1 <= 31) as R.
  { unfold nextMonth. destruct (Z.eqb_spec m 12) as [-> | Hne]; cbn [fst snd]; unfold MakeDay.
    - replace ((1 - 1) / 12) with 0 by reflexivity. replace ((1 - 1) mod 12) with 0 by reflexivity.
      replace ((12 - 1) / 12) with 0 by reflexivity. replace ((12 - 1) mod 12) with 11 by reflexivity.
      rewrite !Z.add_0_r, DayFromYear_succ. cbv beta iota delta [monthStart].
      pose proof (DaysInYear_range y).
      destruct (Z.eqb_spec (DaysInYear (y + 1)) 366); destruct (Z.eqb_spec (DaysInYear y) 366); lia.
    - rewrite !Z.div_small, !Z.mod_small by lia. rewrite !Z.add_0_r.
      replace (m + 1 - 1) with m by lia.
      destruct (DaysInYear y =? 366);
      split_months m; cbv beta iota delta [monthStart]; cbn; lia. }
  split; [lia |]. unfold firstOfMonth, MakeDate. rewrite Z2Nat.id by lia. lia.
Qed.

(** ** Month overrides *)

Lemma matchMonthKey_overrideOf y mm :
  matchMonthKey (overrideOf y mm) = Some (pad4 y, pad2 mm).
Proof.
  unfold overrideOf, matchMonthKey, pad4, pad3. cbn [append].
  fold (pad2 y). fold (pad2 mm).
  change (String (digitChar (y / 1000 mod 10)) (String (digitChar (y / 100 mod 10)) (pad2 y)))
    with (pad4 y).
  unfold pad2 at 1 2 3. cbn [append].
  change (String (digitChar (y / 1000 mod 10))
            (String (digitChar (y / 100 mod 10))
               (String (digitChar (y / 10 mod 10)) (String (digitChar (y mod 10)) ""))))
    with (pad4 y).
  change (String (digitChar (mm / 10 mod 10)) (String (digitChar (mm mod 10)) "")) with (pad2 mm).
  rewrite allDigits_pad4, allDigits_pad2. reflexivity.
Qed.

Lemma matchMonthKey_inv s ys ms :
  matchMonthKey s = Some (ys, ms) ->
  exists y mm, 0 <= y <= 9999 /\ 0 <= mm <= 99 /\ s = overrideOf y mm
               /\ ys = pad4 y /\ ms = pad2 mm.
Proof.
  unfold matchMonthKey.
  destruct s as [| y1 [| y2 [| y3 [| y4 [| h [| m1 [| m2 [| ? ?]]]]]]]]; try discriminate.
  destruct (allDigits (String y1 (String y2 (String y3 (String y4 ""))))) eqn:Ey;
    [| discriminate].
  destruct (Ascii.eqb_spec h "-"); [| discriminate].
  destruct (allDigits (String m1 (String m2 ""))) eqn:Em; [| discriminate].
  cbn [andb]. intros [= <- <-]. subst h.
  cbn [allDigits] in Ey, Em.
  repeat match goal with H : _ && _ = true |- _ => apply andb_true_iff in H; destruct H end.
  destruct (pad4_Number y1 y2 y3 y4) as [P4 R4]; try assumption.
  pose proof (pad2_Number m1 m2 ltac:(assumption) ltac:(assumption)) as P2.
  exists (Number_digits (String y1 (String y2 (String y3 (String y4 ""))))).
  exists (Number_digits (String m1 (String m2 ""))).
  assert (0 <= Number_digits (String m1 (String m2 "")) <= 99) as R2.
  { unfold Number_digits. cbn [digitsValue].
    pose proof (digitValue_range m1 ltac:(assumption)).
    pose proof (digitValue_range m2 ltac:(assumption)). lia. }
  repeat split; try lia; try (symmetry; assumption).
  unfold overrideOf. rewrite P4. rewrite P2. reflexivity.
Qed.

Lemma fullYear_idem y : 0 <= y -> fullYear (fullYear y) = fullYear y.
Proof.
  intros H. unfold fullYear.
  destruct (Z.leb_spec 0 y); destruct (Z.leb_spec y 99); cbn [andb]; try lia;
  repeat match goal with |- context [?a <=? ?b] => destruct (Z.leb_spec a b) end;
  cbn [andb]; lia.
Qed.

Lemma fullYear_id y : 100 <= y -> fullYear y = y.
Proof.
  intros H. unfold fullYear. destruct (Z.leb_spec y 99); [lia |].
  now rewrite andb_false_r.
Qed.

Lemma parseMonthOverride_valid y m :
  0 <= y <= 9999 -> 1 <= m <= 12 ->
  parseMonthOverride (overrideOf y m) = Ok (firstOfMonth (fullYear y) (m - 1)).
Proof.
  intros Hy Hm. unfold parseMonthOverride.
  rewrite matchMonthKey_overrideOf, Number_pad4, Number_pad2 by lia.
  destruct (Z.ltb_spec m 1); [lia |]. destruct (Z.gtb_spec m 12); [lia |].
  cbn [orb]. rewrite Date_UTC_first.
  rewrite Z.div_small, Z.mod_small by lia. now rewrite Z.add_0_r.
Qed.

Lemma parseMonthOverride_throws_iff s :
  (exists e, parseMonthOverride s = Throw e) <-> ~ validOverride s.
Proof.
  split.
  - intros [e He] (y & m & Hy & Hm & ->).
    rewrite parseMonthOverride_valid in He by assumption. discriminate.
  - intros NV. unfold parseMonthOverride.
    destruct (matchMonthKey s) as [[ys ms] |] eqn:M; [| eauto].
    destruct (matchMonthKey_inv _ _ _ M) as (y & mm & Hy & Hmm & -> & -> & ->).
    rewrite Number_pad2 by assumption.
    destruct (Z.ltb_spec mm 1); cbn [orb]; [eauto |].
    destruct (Z.gtb_spec mm 12); [eauto |].
    exfalso. apply NV. exists y, mm. repeat split; lia.
Qed.

Lemma buildMonthPeriod_valid now y m :
  0 <= y <= 9999 -> 1 <= m <= 12 ->
  let Y := fullYear y in
  exists p,
    buildMonthPeriod now (Some (overrideOf y m)) = Ok p
    /\ monthKey p = sliceTo 7 (toIsoDate (firstOfMonth Y (m - 1)))
    /\ startDate p = toIsoDate (firstOfMonth Y (m - 1))
    /\ endDateExclusive p = toIsoDate (firstOfMonth (Y + m / 12) (m mod 12))
    /\ prevStartDate p = toIsoDate (firstOfMonth (Y + (m - 2) / 12) ((m - 2) mod 12))
    /\ prevEndDateExclusive p = toIsoDate (firstOfMonth Y (m - 1)).
Proof.
  intros Hy Hm Y. unfold buildMonthPeriod.
  replace (truthy (Some (overrideOf y m))) with (Some (overrideOf y m)) by reflexivity.
  rewrite parseMonthOverride_valid by assumption. fold Y. cbn [bind].
  eexists. split; [reflexivity |]. cbn [monthKey startDate endDateExclusive prevStartDate prevEndDateExclusive].
  rewrite !shiftMonth_first by lia.
  unfold Y. rewrite fullYear_idem by lia.
  replace (m - 1 + 1) with m by lia. replace (m - 1 + -1) with (m - 2) by lia.
  repeat split; reflexivity.
Qed.

Lemma monthKey_overrideOf y m :
  0 <= y <= 9999 -> 1 <= m <= 12 ->
  sliceTo 7 (toIsoDate (firstOfMonth y (m - 1))) = overrideOf y m.
Proof.
  intros Hy Hm. rewrite toIsoDate_first by lia.
  replace (m - 1 + 1) with m by lia. reflexivity.
Qed.

Lemma validOverride_empty : ~ validOverride "".
Proof. intros (y & m & _ & _ & E). discriminate E. Qed.

Lemma truthy_nonempty s : s <> "" -> truthy (Some s) = Some s.
Proof. destruct s; [congruence | reflexivity]. Qed.

Lemma previous_period_contiguous now s p :
  buildMonthPeriod now s = Ok p ->
  prevEndDateExclusive p = startDate p
  /\ prevEndDateTimeExclusive p = startDateTime p.
Proof.
  unfold buildMonthPeriod.
  destruct (match truthy s with Some s0 => parseMonthOverride s0 | None => _ end) as [t | e];
    cbn [bind]; [| discriminate].
  intros E. apply (f_equal (fun r => match r with Ok v => v | Throw _ => p end)) in E.
  cbv beta iota in E. subst p.
  cbn [prevEndDateExclusive startDate prevEndDateTimeExclusive startDateTime].
  split; reflexivity.
Qed.

(** C7, as amended.  With a non-empty override [buildMonthPeriod] throws
    exactly when the override is not four digits, a hyphen and a month
    from 01 to 12.  The empty override is taken as absent and gives the
    default month, which always succeeds.  Every valid override succeeds,
    and for the years 0100 to 9999 the month key of the period is the
    override itself. *)
Theorem buildMonthPeriod_override_validation now s :
  (s <> "" ->
     ((exists e, buildMonthPeriod now (Some s) = Throw e) <-> ~ validOverride s))
  /\ buildMonthPeriod now (Some "") = buildMonthPeriod now None
  /\ (exists p, buildMonthPeriod now None = Ok p)
  /\ (validOverride s -> exists p, buildMonthPeriod now (Some s) = Ok p)
  /\ (forall y m, 100 <= y <= 9999 -> 1 <= m <= 12 -> s = overrideOf y m ->
        exists p, buildMonthPeriod now (Some s) = Ok p /\ monthKey p = s).
Proof.
  split; [| split; [| split; [| split]]].
  - intros Hs. unfold buildMonthPeriod. rewrite truthy_nonempty by assumption.
    rewrite <- parseMonthOverride_throws_iff.
    destruct (parseMonthOverride s) as [t | e]; cbn [bind].
    + split; intros [e He]; discriminate He.
    + split; intros _; eauto.
  - reflexivity.
  - unfold buildMonthPeriod. cbn [truthy bind]. eauto.
  - intros (y & m & Hy & Hm & ->).
    destruct (buildMonthPeriod_valid now y m Hy Hm) as (p & Hp & _). eauto.
  - intros y m Hy Hm ->.
    destruct (buildMonthPeriod_valid now y m ltac:(lia) Hm) as (p & Hp & Hk & _).
    exists p. split; [exact Hp |]. rewrite Hk, fullYear_id by lia.
    apply monthKey_overrideOf; lia.
Qed.

(** C7 as stated fails twice: the empty override matches no format and
    yet no error is raised, and the valid override 0050-03 yields the
    month key 1950-03. *)
Lemma override_counterexample :
  (exists p, buildMonthPeriod 0 (Some "") = Ok p)
  /\ ~ validOverride ""
  /\ validOverride "0050-03"
  /\ (exists p, buildMonthPeriod 0 (Some "0050-03") = Ok p /\ monthKey p = "1950-03").
Proof.
  split; [| split; [| split]].
  - eexists. vm_compute. reflexivity.
  - exact validOverride_empty.
  - exists 50, 3. repeat split; try lia.
  - eexists. split; vm_compute; reflexivity.
Qed.

(** C5 at the override 0099-12: its period ends on 2000-01-01, while the
    period of the following override, 0100-01, starts on 0100-01-01. *)
Example next_month_mismatch_0099_12 now :
  exists p q,
    buildMonthPeriod now (Some "0099-12") = Ok p
    /\ buildMonthPeriod now (Some "0100-01") = Ok q
    /\ endDateExclusive p = "2000-01-01"
    /\ startDate q = "0100-01-01".
Proof.
  eexists. eexists. repeat split; vm_compute; reflexivity.
Qed.

(** From the year 0100 on, the period of a month ends where the period of
    the next month starts, and the previous-month bounds of the next
    period are the bounds of this one. *)
Theorem consecutive_periods_adjacent now y m :
  100 <= y <= 9999 -> 1 <= m <= 12 -> fst (nextMonth y m) <= 9999 ->
  exists p q,
    buildMonthPeriod now (Some (overrideOf y m)) = Ok p
    /\ buildMonthPeriod now (Some (overrideOf (fst (nextMonth y m)) (snd (nextMonth y m)))) = Ok q
    /\ endDateExclusive p = startDate q
    /\ prevStartDate q = startDate p
    /\ prevEndDateExclusive q = endDateExclusive p
    /\ prevEndDateExclusive p = startDate p.
Proof.
  intros Hy Hm Hn.
  destruct (buildMonthPeriod_valid now y m ltac:(lia) Hm) as (p & Hp & _ & Sp & Ep & _ & PEp).
  assert (100 <= fst (nextMonth y m) <= 9999 /\ 1 <= snd (nextMonth y m) <= 12) as [Hy' Hm'].
  { unfold nextMonth in *. destruct (Z.eqb_spec m 12); cbn [fst snd] in *; lia. }
  destruct (buildMonthPeriod_valid now (fst (nextMonth y m)) (snd (nextMonth y m))
              ltac:(lia) Hm') as (q & Hq & _ & Sq & _ & PSq & PEq).
  exists p, q. split; [exact Hp |]. split; [exact Hq |].
  rewrite Sp, Ep, PEp, Sq, PSq, PEq. rewrite !fullYear_id by lia.
  unfold nextMonth. destruct (Z.eqb_spec m 12) as [-> | Hne]; cbn [fst snd];
    repeat split; apply toIsoDate_first_eq; Z.div_mod_to_equations; lia.
Qed.

Lemma consecutive_periods_adjacent_2026_01 :
  exists p q,
    buildMonthPeriod 0 (Some (overrideOf 2026 1)) = Ok p
    /\ buildMonthPeriod 0 (Some (overrideOf 2026 2)) = Ok q
    /\ endDateExclusive p = startDate q
    /\ prevStartDate q = startDate p
    /\ prevEndDateExclusive q = endDateExclusive p
    /\ prevEndDateExclusive p = startDate p.
Proof.
  apply (consecutive_periods_adjacent 0 2026 1); cbn; lia.
Defined.

(** ** The weekly windows *)

Lemma weekWindowsLoop_done fuel index cursor monthEnd :
  monthEnd <= cursor -> weekWindowsLoop fuel index cursor monthEnd = [].
Proof.
  intros H. destruct fuel; cbn [weekWindowsLoop]; [reflexivity |].
  destruct (Z.ltb_spec cursor monthEnd); [lia | reflexivity].
Qed.

Lemma loopBound_step cursor stop k :
  0 < k -> cursor + k * msPerDay < stop ->
  (loopBound (cursor + k * msPerDay) stop < loopBound cursor stop)%nat.
Proof.
  unfold loopBound, msPerDay. intros Hk H. Z.div_mod_to_equations. lia.
Qed.

Lemma loopBound_pos cursor stop : cursor < stop -> (0 < loopBound cursor stop)%nat.
Proof. unfold loopBound, msPerDay. intros H. Z.div_mod_to_equations. lia. Qed.

(** Fuel beyond the bound changes nothing: the loops end by their tests. *)
Lemma weekWindowsLoop_fuel f1 : forall f2 index cursor monthEnd,
  (loopBound cursor monthEnd <= f1)%nat -> (loopBound cursor monthEnd <= f2)%nat ->
  weekWindowsLoop f1 index cursor monthEnd = weekWindowsLoop f2 index cursor monthEnd.
Proof.
  induction f1 as [| f1 IH]; intros f2 index cursor monthEnd H1 H2.
  - destruct (Z.lt_ge_cases cursor monthEnd) as [Hlt | Hge].
    + pose proof (loopBound_pos _ _ Hlt). lia.
    + now rewrite !weekWindowsLoop_done.
  - destruct (Z.lt_ge_cases cursor monthEnd) as [Hlt | Hge];
      [| now rewrite !weekWindowsLoop_done].
    pose proof (loopBound_pos _ _ Hlt).
    destruct f2 as [| f2]; [lia |]. cbn [weekWindowsLoop].
    destruct (Z.ltb_spec cursor monthEnd); [| lia].
    rewrite setUTCDate_add. f_equal.
    destruct (Z.gtb_spec (cursor + 7 * msPerDay) monthEnd) as [Hcap | Hfull].
    + now rewrite !weekWindowsLoop_done by lia.
    + destruct (Z.eq_dec (cursor + 7 * msPerDay) monthEnd) as [-> | Hne];
        [now rewrite !weekWindowsLoop_done by lia |].
      pose proof (loopBound_step cursor monthEnd 7 ltac:(lia) ltac:(lia)).
      apply IH; lia.
Qed.

(** The outer loop of [buildWeeklyBreakdown], turn by turn. *)
Lemma weekWindows_unfold index cursor monthEnd :
  weekWindows index cursor monthEnd
  = if cursor <? monthEnd then
      let weekEnd0 := cursor + 7 * msPerDay in
      let weekEnd1 := if weekEnd0 >? monthEnd then monthEnd else weekEnd0 in
      {| weekIndex := index; weekStart := cursor; weekEnd := weekEnd1 |}
        :: weekWindows (index + 1) weekEnd1 monthEnd
    else [].
Proof.
  unfold weekWindows.
  destruct (Z.ltb_spec cursor monthEnd) as [Hlt | Hge]; [| now apply weekWindowsLoop_done].
  pose proof (loopBound_pos _ _ Hlt).
  destruct (loopBound cursor monthEnd) as [| f] eqn:E; [lia |]. cbn [weekWindowsLoop].
  destruct (Z.ltb_spec cursor monthEnd); [| lia].
  rewrite setUTCDate_add. cbv zeta. f_equal.
  destruct (Z.gtb_spec (cursor + 7 * msPerDay) monthEnd) as [Hcap | Hfull].
  - now rewrite !weekWindowsLoop_done by lia.
  - destruct (Z.eq_dec (cursor + 7 * msPerDay) monthEnd) as [-> | Hne];
      [now rewrite !weekWindowsLoop_done by lia |].
    pose proof (loopBound_step cursor monthEnd 7 ltac:(lia) ltac:(lia)).
    apply weekWindowsLoop_fuel; lia.
Qed.

Lemma weekDaysLoop_done fuel dayCursor stop :
  stop <= dayCursor -> weekDaysLoop fuel dayCursor stop = [].
Proof.
  intros H. destruct fuel; cbn [weekDaysLoop]; [reflexivity |].
  destruct (Z.ltb_spec dayCursor stop); [lia | reflexivity].
Qed.

Lemma weekDaysLoop_fuel f1 : forall f2 dayCursor stop,
  (loopBound dayCursor stop <= f1)%nat -> (loopBound dayCursor stop <= f2)%nat ->
  weekDaysLoop f1 dayCursor stop = weekDaysLoop f2 dayCursor stop.
Proof.
  induction f1 as [| f1 IH]; intros f2 dayCursor stop H1 H2.
  - destruct (Z.lt_ge_cases dayCursor stop) as [Hlt | Hge].
    + pose proof (loopBound_pos _ _ Hlt). lia.
    + now rewrite !weekDaysLoop_done.
  - destruct (Z.lt_ge_cases dayCursor stop) as [Hlt | Hge];
      [| now rewrite !weekDaysLoop_done].
    pose proof (loopBound_pos _ _ Hlt).
    destruct f2 as [| f2]; [lia |]. cbn [weekDaysLoop].
    destruct (Z.ltb_spec dayCursor stop); [| lia].
    rewrite setUTCDate_add. f_equal.
    destruct (Z.lt_ge_cases (dayCursor + 1 * msPerDay) stop) as [Hmore | Hlast];
      [| now rewrite !weekDaysLoop_done by lia].
    pose proof (loopBound_step dayCursor stop 1 ltac:(lia) Hmore).
    apply IH; lia.
Qed.

(** The inner loop of [buildWeeklyBreakdown], turn by turn. *)
Lemma weekDays_unfold dayCursor stop :
  weekDays dayCursor stop
  = if dayCursor <? stop then dayCursor :: weekDays (dayCursor + 1 * msPerDay) stop else [].
Proof.
  unfold weekDays.
  destruct (Z.ltb_spec dayCursor stop) as [Hlt | Hge]; [| now apply weekDaysLoop_done].
  pose proof (loopBound_pos _ _ Hlt).
  destruct (loopBound dayCursor stop) as [| f] eqn:E; [lia |]. cbn [weekDaysLoop].
  destruct (Z.ltb_spec dayCursor stop); [| lia].
  rewrite setUTCDate_add. f_equal.
  destruct (Z.lt_ge_cases (dayCursor + 1 * msPerDay) stop) as [Hmore | Hlast];
    [| now rewrite !weekDaysLoop_done by lia].
  pose proof (loopBound_step dayCursor stop 1 ltac:(lia) Hmore).
  apply weekDaysLoop_fuel; lia.
Qed.

Lemma daysFrom_S start n :
  daysFrom start (S n) = start :: daysFrom (start + msPerDay) n.
Proof.
  unfold daysFrom. cbn [seq map]. f_equal; [unfold msPerDay; lia |].
  rewrite <- seq_shift, map_map. apply map_ext. intros i. lia.
Qed.

Lemma daysFrom_app start a b :
  daysFrom start (a + b) = (daysFrom start a ++ daysFrom (start + Z.of_nat a * msPerDay) b)%list.
Proof.
  revert start. induction a as [| a IH]; intros start.
  - change (Z.of_nat 0) with 0. now rewrite Z.mul_0_l, Z.add_0_r.
  - cbn [Nat.add]. rewrite !daysFrom_S, IH. cbn [app]. do 2 f_equal.
    f_equal. lia.
Qed.

Lemma length_daysFrom start n : List.length (daysFrom start n) = n.
Proof. unfold daysFrom. now rewrite length_map, length_seq. Qed.

Lemma weekDaysLoop_days k : forall fuel c,
  (k < fuel)%nat ->
  weekDaysLoop fuel c (c + Z.of_nat k * msPerDay) = daysFrom c k.
Proof.
  induction k as [| k IH]; intros fuel c Hf; (destruct fuel as [| fuel]; [lia |]);
    cbn [weekDaysLoop].
  - destruct (Z.ltb_spec c (c + Z.of_nat 0 * msPerDay)); [lia | reflexivity].
  - destruct (Z.ltb_spec c (c + Z.of_nat (S k) * msPerDay)); [| unfold msPerDay in *; lia].
    rewrite setUTCDate_add, daysFrom_S.
    replace (c + 1 * msPerDay) with (c + msPerDay) by lia.
    replace (c + Z.of_nat (S k) * msPerDay) with (c + msPerDay + Z.of_nat k * msPerDay) by lia.
    now rewrite IH by lia.
Qed.

Lemma loopBound_days c k : loopBound c (c + Z.of_nat k * msPerDay) = S k.
Proof.
  unfold loopBound. replace (c + Z.of_nat k * msPerDay - c) with (Z.of_nat k * msPerDay) by lia.
  rewrite Z.div_mul by (unfold msPerDay; lia). lia.
Qed.

Lemma weekDays_days c k : weekDays c (c + Z.of_nat k * msPerDay) = daysFrom c k.
Proof. unfold weekDays. rewrite loopBound_days. apply weekDaysLoop_days. lia. Qed.

Lemma windowDays_mk i s e :
  windowDays {| weekIndex := i; weekStart := s; weekEnd := e |} = weekDays s e.
Proof. reflexivity. Qed.

Lemma weekWindowsLoop_spec n : forall k fuel index c,
  (k <= n)%nat -> (k < fuel)%nat ->
  let ws := weekWindowsLoop fuel index c (c + Z.of_nat k * msPerDay) in
  List.concat (map windowDays ws) = daysFrom c k
  /\ contiguous c (c + Z.of_nat k * msPerDay) ws
  /\ fullWeeks ws
  /\ numbered index ws
  /\ (ws = [] <-> k = 0%nat).
Proof.
  induction n as [| n IH]; intros k fuel index c Hk Hf ws; subst ws;
    (destruct fuel as [| fuel]; [lia |]); cbn [weekWindowsLoop].
  - assert (k = 0%nat) as -> by lia.
    destruct (Z.ltb_spec c (c + Z.of_nat 0 * msPerDay)); [lia |].
    cbn. repeat split; auto; lia.
  - destruct (Z.ltb_spec c (c + Z.of_nat k * msPerDay)) as [Hlt | Hge].
    2:{ assert (k = 0%nat) as -> by (unfold msPerDay in *; lia).
        cbn. repeat split; auto; lia. }
    assert (k <> 0%nat) as Hk0 by (intros ->; lia).
    rewrite setUTCDate_add.
    destruct (Z.gtb_spec (c + 7 * msPerDay) (c + Z.of_nat k * msPerDay)) as [Hcap | Hfull].
    + (* the last, shortened window *)
      assert (k <= 7)%nat by (unfold msPerDay in *; lia).
      destruct fuel as [| fuel]; cbn [weekWindowsLoop].
      * cbn [map List.concat contiguous fullWeeks numbered windowDays weekStart weekEnd weekIndex].
        rewrite windowDays_mk, weekDays_days, app_nil_r, length_daysFrom.
        repeat split; auto; try lia; try discriminate.
      * destruct (Z.ltb_spec (c + Z.of_nat k * msPerDay) (c + Z.of_nat k * msPerDay)); [lia |].
        cbn [map List.concat contiguous fullWeeks numbered windowDays weekStart weekEnd weekIndex].
        rewrite windowDays_mk, weekDays_days, app_nil_r, length_daysFrom.
        repeat split; auto; try lia; try discriminate.
    + (* a full week, and the rest of the month after it *)
      assert (7 <= k)%nat as H7 by (unfold msPerDay in *; lia).
      replace (c + Z.of_nat k * msPerDay)
        with (c + 7 * msPerDay + Z.of_nat (k - 7) * msPerDay) by (unfold msPerDay; lia).
      destruct (IH (k - 7)%nat fuel (index + 1) (c + 7 * msPerDay) ltac:(lia) ltac:(lia))
        as (Hc & Hg & Hw & Hi & He).
      set (rest := weekWindowsLoop fuel (index + 1) (c + 7 * msPerDay)
                     (c + 7 * msPerDay + Z.of_nat (k - 7) * msPerDay)) in *.
      cbn [map List.concat contiguous fullWeeks numbered windowDays weekStart weekEnd weekIndex].
      rewrite windowDays_mk.
      change (weekDays c (c + 7 * msPerDay)) with (weekDays c (c + Z.of_nat 7 * msPerDay)).
      rewrite weekDays_days.
      repeat split; auto; try discriminate; try lia.
      * rewrite Hc. replace k with (7 + (k - 7))%nat at 2 by lia.
        now rewrite daysFrom_app.
      * rewrite length_daysFrom. destruct rest; lia.
Qed.

Lemma Zsum_app a b : Zsum (a ++ b) = Zsum a + Zsum b.
Proof. unfold Zsum. induction a as [| x a IH]; cbn [fold_right app] in *; lia. Qed.

Lemma fold_addDay byDate days : forall req uni byt,
  fold_left (addDay byDate) days (req, uni, byt)
  = (req + Zsum (map (dayCount requests byDate) days),
     uni + Zsum (map (dayCount uniques byDate) days),
     byt + Zsum (map (dayCount bytes byDate) days)).
Proof.
  induction days as [| d days IH]; intros req uni byt; cbn [fold_left map].
  - unfold Zsum. cbn [fold_right]. now rewrite !Z.add_0_r.
  - assert (addDay byDate (req, uni, byt) d
            = (req + dayCount requests byDate d, uni + dayCount uniques byDate d,
               byt + dayCount bytes byDate d)) as ->.
    { unfold addDay, dayCount. destruct (Map_get (toIsoDate d) byDate); [reflexivity |].
      now rewrite !Z.add_0_r. }
    rewrite IH. unfold Zsum. cbn [fold_right]. f_equal; [f_equal |]; lia.
Qed.

Lemma weekRow_totals byDate w :
  weekRequests (weekRow byDate w) = Zsum (map (dayCount requests byDate) (windowDays w))
  /\ weekUniques (weekRow byDate w) = Zsum (map (dayCount uniques byDate) (windowDays w))
  /\ weekBytes (weekRow byDate w) = Zsum (map (dayCount bytes byDate) (windowDays w)).
Proof.
  unfold weekRow, windowDays. rewrite fold_addDay.
  cbn [weekRequests weekUniques weekBytes]. repeat split; lia.
Qed.

Lemma rows_totals byDate ws :
  Zsum (map weekRequests (map (weekRow byDate) ws))
  = Zsum (map (dayCount requests byDate) (List.concat (map windowDays ws)))
  /\ Zsum (map weekUniques (map (weekRow byDate) ws))
     = Zsum (map (dayCount uniques byDate) (List.concat (map windowDays ws)))
  /\ Zsum (map weekBytes (map (weekRow byDate) ws))
     = Zsum (map (dayCount bytes byDate) (List.concat (map windowDays ws))).
Proof.
  induction ws as [| w ws (IH1 & IH2 & IH3)]; [repeat split; reflexivity |].
  cbn [map List.concat]. rewrite !map_app, !Zsum_app.
  destruct (weekRow_totals byDate w) as (H1 & H2 & H3).
  rewrite <- H1, <- H2, <- H3, <- IH1, <- IH2, <- IH3. repeat split; reflexivity.
Qed.

(** C4.  For the month [m] of the year [y], given as the date strings of
    its first day and of the first day of the next month,
    [buildWeeklyBreakdown] returns one row per window of its outer loop;
    the windows, taken in order, cover the [n] days of the month once each
    with no gap and no overlap, follow one another from the first day to
    the end of the month, hold seven days each except the last, which
    holds one to seven, and the rows add up each day's counts once. *)
Theorem weekly_windows_partition_month y m daily :
  0 <= y <= 9999 -> 1 <= m <= 12 -> fst (nextMonth y m) <= 9999 ->
  let y' := fst (nextMonth y m) in
  let m' := snd (nextMonth y m) in
  let start := firstOfMonth y (m - 1) in
  let stop := firstOfMonth y' (m' - 1) in
  let ws := weekWindows 1 start stop in
  let byDate := indexByDate daily in
  let rows := buildWeeklyBreakdown daily (isoFirstDay y m) (isoFirstDay y' m') in
  exists n : nat,
    (28 <= n <= 31)%nat
    /\ stop = start + Z.of_nat n * msPerDay
    /\ rows = map (weekRow byDate) ws
    /\ List.concat (map windowDays ws) = daysFrom start n
    /\ contiguous start stop ws
    /\ fullWeeks ws
    /\ numbered 1 ws
    /\ Zsum (map weekRequests rows) = Zsum (map (dayCount requests byDate) (daysFrom start n))
    /\ Zsum (map weekUniques rows) = Zsum (map (dayCount uniques byDate) (daysFrom start n))
    /\ Zsum (map weekBytes rows) = Zsum (map (dayCount bytes byDate) (daysFrom start n)).
Proof.
  intros Hy Hm Hn y' m' start stop ws byDate rows.
  assert (0 <= y' <= 9999 /\ 1 <= m' <= 12) as [Hy' Hm'].
  { subst y' m'. unfold nextMonth in *. destruct (Z.eqb_spec m 12); cbn [fst snd] in *; lia. }
  destruct (month_length y m Hm) as (n & Rn & En). fold y' m' stop start in En.
  assert (rows = map (weekRow byDate) ws) as Hrows.
  { subst rows. unfold buildWeeklyBreakdown. rewrite !Date_parse_first by assumption.
    reflexivity. }
  assert (List.concat (map windowDays ws) = daysFrom start n
          /\ contiguous start stop ws /\ fullWeeks ws /\ numbered 1 ws)
    as (Hc & Hg & Hw & Hi).
  { subst ws. unfold weekWindows. rewrite En, loopBound_days.
    destruct (weekWindowsLoop_spec n n (S n) 1 start ltac:(lia) ltac:(lia))
      as (Hc & Hg & Hw & Hi & _).
    auto. }
  destruct (rows_totals byDate ws) as (T1 & T2 & T3).
  exists n. rewrite Hrows, T1, T2, T3, Hc.
  split; [exact Rn |]. split; [exact En |]. split; [reflexivity |].
  split; [reflexivity |]. split; [exact Hg |]. split; [exact Hw |]. split; [exact Hi |].
  split; [reflexivity |]. split; reflexivity.
Qed.

Lemma weekly_windows_january_2026 :
  let start := firstOfMonth 2026 0 in
  let stop := firstOfMonth 2026 1 in
  let ws := weekWindows 1 start stop in
  exists n : nat,
    (28 <= n <= 31)%nat
    /\ stop = start + Z.of_nat n * msPerDay
    /\ buildWeeklyBreakdown [] (isoFirstDay 2026 1) (isoFirstDay 2026 2)
       = map (weekRow (indexByDate [])) ws
    /\ List.concat (map windowDays ws) = daysFrom start n
    /\ contiguous start stop ws
    /\ fullWeeks ws
    /\ numbered 1 ws.
Proof.
  destruct (weekly_windows_partition_month 2026 1 [])
    as (n & H1 & H2 & H3 & H4 & H5 & H6 & H7 & _); [lia | lia | cbn; lia |].
  exists n. repeat (split; [assumption |]). assumption.
Defined.

End PeriodFacts.

(* ===================================================================== *)
(** * cloudflare.ts: the traffic adapter *)
(* ===================================================================== *)

Module CloudflareFacts.
Import Js Types Cloudflare JsFacts Samples.
Local Open Scope string_scope.
Local Open Scope Z_scope.

Lemma fetchTrafficDaily_eq pf up zoneId startDate endDateExclusive :
  fetchTrafficDaily pf up zoneId startDate endDateExclusive
  = bind (graphqlRequest (trafficExchange up zoneId startDate endDateExclusive))
      (fun response =>
         Ok (sortBy (byDateAscending pf)
               (filter hasDate (map (toDailyPoint pf) (dayGroups response))))).
Proof.
  unfold fetchTrafficDaily, dayGroups.
  destruct (graphqlRequest _) as [response | e]; cbn [bind]; [| reflexivity].
  destruct (trafficZones response) as [[| [[groups |]] ?] |]; reflexivity.
Qed.

Lemma hasDate_true p : hasDate p = true <-> date p <> "".
Proof.
  unfold hasDate. destruct (date p); cbn; split; congruence.
Qed.

(** C9, as amended.  When [localeCompare] orders the dates, what
    [fetchTrafficDaily] returns is sorted by date ascending and is, up to
    order, the day groups of the answer that carry a date: no point is
    added for a day the answer lacks, and no date is empty.  The adapter
    does not remove duplicates: the dates returned are distinct when those
    of the answer are. *)
Theorem fetchTrafficDaily_sorted pf up zoneId startDate endDateExclusive points :
  consistentComparator (localeCompare pf) ->
  fetchTrafficDaily pf up zoneId startDate endDateExclusive = Ok points ->
  exists response,
    graphqlRequest (trafficExchange up zoneId startDate endDateExclusive) = Ok response
    /\ StronglySorted (fun a b => localeCompare pf (date a) (date b) <= 0) points
    /\ Permutation points (filter hasDate (map (toDailyPoint pf) (dayGroups response)))
    /\ Forall (fun p => date p <> "") points
    /\ (NoDup (map date (filter hasDate (map (toDailyPoint pf) (dayGroups response)))) ->
        NoDup (map date points)).
Proof.
  intros [Htotal Htrans]. rewrite fetchTrafficDaily_eq.
  destruct (graphqlRequest _) as [response | e]; cbn [bind]; [| discriminate].
  intros E. apply (f_equal (fun r => match r with Ok v => v | Throw _ => points end)) in E.
  cbv beta iota in E. subst points.
  exists response. split; [reflexivity |].
  set (raw := filter hasDate (map (toDailyPoint pf) (dayGroups response))).
  pose proof (sortBy_perm (byDateAscending pf) raw) as Hperm.
  split; [| split; [exact Hperm | split]].
  - apply (sortBy_sorted (byDateAscending pf)
             (fun a b => localeCompare pf (date a) (date b) <= 0) (fun _ _ => True)).
    + intros a b _. unfold byDateAscending.
      destruct (Z.leb_spec (localeCompare pf (date a) (date b)) 0); [assumption |].
      destruct (Htotal (date a) (date b)); [lia | assumption].
    + intros a b c _ _ Hab Hbc. unfold byDateAscending in Hab. apply Z.leb_le in Hab.
      eapply Htrans; eassumption.
    + clear. induction raw; constructor; [assumption |]. now apply Forall_forall.
  - apply (Permutation_Forall (Permutation_sym Hperm)).
    apply Forall_forall. intros p Hp. apply filter_In in Hp. now apply hasDate_true.
  - apply Permutation_NoDup. apply Permutation_map. now symmetry.
Qed.

Lemma sample_localeCompare_consistent :
  consistentComparator (localeCompare samplePlatform).
Proof. split; cbn [localeCompare samplePlatform]; intros; lia. Qed.

Lemma fetchTrafficDaily_january_2026 :
  fetchTrafficDaily samplePlatform sampleUpstream "zone" "2026-01-01" "2026-02-01"
  = Ok januaryPoints
  /\ StronglySorted (fun a b => localeCompare samplePlatform (date a) (date b) <= 0)
       januaryPoints
  /\ Forall (fun p => date p <> "") januaryPoints.
Proof.
  assert (fetchTrafficDaily samplePlatform sampleUpstream "zone" "2026-01-01" "2026-02-01"
          = Ok januaryPoints) as Hrun by (vm_compute; reflexivity).
  destruct (fetchTrafficDaily_sorted samplePlatform sampleUpstream "zone" "2026-01-01"
              "2026-02-01" januaryPoints sample_localeCompare_consistent Hrun)
    as (response & _ & Hsorted & _ & Hdates & _).
  split; [exact Hrun |]. split; [exact Hsorted | exact Hdates].
Defined.

(** C9 as stated fails: an answer with the same day twice comes back with
    both points. *)
Lemma fetchTrafficDaily_keeps_duplicates :
  fetchTrafficDaily samplePlatform duplicateUpstream "zone" "2026-01-01" "2026-02-01"
  = Ok [ {| date := "2026-01-01"; requests := 1; uniques := 1; bytes := 10 |};
         {| date := "2026-01-01"; requests := 2; uniques := 2; bytes := 20 |} ].
Proof. vm_compute. reflexivity. Qed.

End CloudflareFacts.


(* ===================================================================== *)
(** * pagespeed.ts: scores and probes *)
(* ===================================================================== *)

Module PageSpeedFacts.
Import Js Types PageSpeed JsFacts Samples.
Local Open Scope string_scope.
Local Open Scope Z_scope.

Lemma Math_round_bounds (x : Q) (lo hi : Z) :
  (inject_Z lo <= x)%Q -> (x <= inject_Z hi)%Q -> lo <= Math_round x <= hi.
Proof.
  intros Hlo Hhi. unfold Math_round. split.
  - rewrite <- (Qfloor_Z lo). apply Qfloor_resp_le. lra.
  - pose proof (Qfloor_le (x + (1 # 2))) as Hf.
    assert (inject_Z (Qfloor (x + (1 # 2))) < inject_Z (hi + 1))%Q as Hlt
      by (rewrite inject_Z_plus; change (inject_Z 1) with 1%Q; lra).
    rewrite <- Zlt_Qlt in Hlt. lia.
Qed.

Lemma Math_round_within (x : Q) (lo hi : Z) :
  (inject_Z lo - (1 # 2) <= x)%Q -> (x < inject_Z hi + (1 # 2))%Q ->
  lo <= Math_round x <= hi.
Proof.
  intros Hlo Hhi. unfold Math_round. split.
  - rewrite <- (Qfloor_Z lo). apply Qfloor_resp_le. lra.
  - pose proof (Qfloor_le (x + (1 # 2))) as Hf.
    assert (inject_Z (Qfloor (x + (1 # 2))) < inject_Z (hi + 1))%Q as Hlt
      by (rewrite inject_Z_plus; change (inject_Z 1) with 1%Q; lra).
    rewrite <- Zlt_Qlt in Hlt. lia.
Qed.

Lemma Math_round_near (x : Q) : (Qabs (inject_Z (Math_round x) - x) <= 1 # 2)%Q.
Proof.
  unfold Math_round. pose proof (Qfloor_le (x + (1 # 2))) as F1.
  pose proof (Qlt_floor (x + (1 # 2))) as F2.
  rewrite inject_Z_plus in F2. change (inject_Z 1) with 1%Q in F2.
  apply Qabs_Qle_condition. lra.
Qed.

(** The product of a score from 0 to 1 and 100, as a double: within
    100 * 2^-53 of the exact product. *)
Lemma unit_score_product (q : Q) :
  (0 <= q)%Q -> (q <= 1)%Q ->
  (Qabs (mulDouble q 100 - q * 100) <= 100 * pow2 (- 53))%Q.
Proof.
  intros H0 H1. unfold mulDouble. pose proof (roundDouble_near (q * 100)) as N.
  change (pow2 (- 53)) with (1 # 9007199254740992)%Q in *.
  assert (Qabs (q * 100) == q * 100)%Q as A by (apply Qabs_pos; lra).
  rewrite A in N. lra.
Qed.

(** C10.  [normalizeScore] returns null or an integer from 0 to 100: null
    for a value that is no number; for a number from 0 to 1 the rounding
    of a hundred times the value (so that 1 gives 100), the product being
    the double that the multiplication leaves, which puts the result
    within 1/2 + 100 * 2^-53 of a hundred times the value; the rounding
    of the value for a number above 1 and up to 100; and null for a
    negative number, a number above 100, NaN and the infinities. *)
Theorem normalizeScore_spec (rawScore : Unknown) :
  (normalizeScore rawScore = None
   \/ exists n, normalizeScore rawScore = Some n /\ 0 <= n <= 100)
  /\ (rawScore = NotNumber -> normalizeScore rawScore = None)
  /\ (forall q, rawScore = IsNumber (Finite q) -> (0 <= q)%Q -> (q <= 1)%Q ->
        exists n,
          normalizeScore rawScore = Some n
          /\ n = Math_round (mulDouble q 100)
          /\ (Qabs (inject_Z n - q * 100) <= (1 # 2) + 100 * pow2 (- 53))%Q)
  /\ (forall q, rawScore = IsNumber (Finite q) -> (1 < q)%Q -> (q <= 100)%Q ->
        normalizeScore rawScore = Some (Math_round q))
  /\ (forall q, rawScore = IsNumber (Finite q) -> (q < 0)%Q \/ (100 < q)%Q ->
        normalizeScore rawScore = None)
  /\ (rawScore = IsNumber NaN -> normalizeScore rawScore = None)
  /\ (forall negative, rawScore = IsNumber (Infinity negative) ->
        normalizeScore rawScore = None)
  /\ normalizeScore (IsNumber (Finite 1)) = Some 100.
Proof.
  assert (forall q, (0 <= q)%Q -> (q <= 1)%Q ->
            normalizeScore (IsNumber (Finite q)) = Some (Math_round (mulDouble q 100)))
    as Hunit.
  { intros q H0 H1. unfold normalizeScore, geFinite, leFinite.
    destruct (Qle_bool 0 q) eqn:E0; [| rewrite <- Qle_bool_iff in H0; congruence].
    destruct (Qle_bool q 1) eqn:E1; [| rewrite <- Qle_bool_iff in H1; congruence].
    reflexivity. }
  assert (forall q, (1 < q)%Q -> (q <= 100)%Q ->
            normalizeScore (IsNumber (Finite q)) = Some (Math_round q)) as Hcent.
  { intros q H1 H100. unfold normalizeScore, geFinite, leFinite, gtFinite.
    destruct (Qle_bool q 1) eqn:E1; [apply Qle_bool_iff in E1; lra |].
    rewrite andb_false_r. cbn [negb andb].
    destruct (Qle_bool q 100) eqn:E100; [| rewrite <- Qle_bool_iff in H100; congruence].
    reflexivity. }
  assert (forall q, (q < 0)%Q \/ (100 < q)%Q ->
            normalizeScore (IsNumber (Finite q)) = None) as Hout.
  { intros q H. unfold normalizeScore, geFinite, leFinite, gtFinite.
    destruct (Qle_bool 0 q) eqn:E0; destruct (Qle_bool q 1) eqn:E1;
      destruct (Qle_bool q 100) eqn:E100; cbn [negb andb]; try reflexivity;
      repeat match goal with
             | E : Qle_bool _ _ = true |- _ => apply Qle_bool_iff in E
             | E : Qle_bool _ _ = false |- _ =>
                 apply not_true_iff_false in E; rewrite Qle_bool_iff in E
             end;
      destruct H; lra. }
  split; [| split; [| split; [| split; [| split; [| split; [| split]]]]]].
  - destruct rawScore as [[q | | negative] |]; try (left; reflexivity).
    + destruct (Qlt_le_dec q 0) as [Hneg | Hpos]; [left; apply Hout; auto |].
      destruct (Qlt_le_dec 1 q) as [Hbig | Hsmall].
      * destruct (Qlt_le_dec 100 q) as [Hhuge | Hok]; [left; apply Hout; auto |].
        right. rewrite Hcent by assumption. eexists. split; [reflexivity |].
        apply Math_round_bounds;
          change (inject_Z 0) with 0%Q; change (inject_Z 100) with 100%Q; lra.
      * right. rewrite Hunit by assumption. eexists. split; [reflexivity |].
        pose proof (unit_score_product q Hpos Hsmall) as P.
        apply Qabs_Qle_condition in P.
        change (pow2 (- 53)) with (1 # 9007199254740992)%Q in P.
        apply Math_round_within;
          change (inject_Z 0) with 0%Q; change (inject_Z 100) with 100%Q; lra.
    + left. destruct negative; reflexivity.
  - intros ->. reflexivity.
  - intros q -> H0 H1. eexists. split; [apply Hunit; assumption |]. split; [reflexivity |].
    pose proof (unit_score_product q H0 H1) as P.
    pose proof (Math_round_near (mulDouble q 100)) as R.
    apply Qabs_Qle_condition in P. apply Qabs_Qle_condition in R.
    apply Qabs_Qle_condition. lra.
  - intros q ->. apply Hcent.
  - intros q ->. apply Hout.
  - intros ->. reflexivity.
  - intros negative ->. destruct negative; reflexivity.
  - vm_compute. reflexivity.
Qed.

(** The double nearest to 0.015 lies below 0.015, and a hundred times it
    is the double 1.5: the score is 2, where the exact product rounds
    to 1. *)
Example normalizeScore_0_015 :
  normalizeScore (IsNumber (Finite (roundDouble (15 # 1000)))) = Some 2
  /\ Math_round (roundDouble (15 # 1000) * 100) = 1.
Proof. split; vm_compute; reflexivity. Qed.

Lemma fetchPageSpeedForUrls_eq pf api urls :
  results (fetchPageSpeedForUrls pf api urls)
  = map (fun u => fst (probeUrl pf api u)) (uniqueUrls urls)
  /\ bundleWarnings (fetchPageSpeedForUrls pf api urls)
     = List.concat (map (fun u => snd (probeUrl pf api u)) (uniqueUrls urls)).
Proof.
  unfold fetchPageSpeedForUrls.
  induction (uniqueUrls urls) as [| u us [IHr IHw]] using rev_ind; [split; reflexivity |].
  rewrite fold_left_snoc, !map_app, concat_app. cbn [map List.concat].
  destruct (probeUrl pf api u) as [result pushed]. cbn [results bundleWarnings fst snd].
  rewrite IHr, IHw, app_nil_r. split; reflexivity.
Qed.

Lemma uniqueUrls_NoDup urls : NoDup (uniqueUrls urls).
Proof.
  unfold uniqueUrls. apply NoDup_filter. apply Set_from_spec.
Qed.

Lemma probeUrl_other pf api api' u v :
  sameExceptDesktop u api api' -> v <> u -> probeUrl pf api' v = probeUrl pf api v.
Proof.
  intros (Hm & Hd & Hf) Hv.
  unfold probeUrl, probeOrEmpty, runPageSpeed. now rewrite Hm, Hd, Hf.
Qed.

(** C6.  When the mobile probe of a probed URL [u] succeeds and its
    desktop probe throws, the entry of [u] in the results carries the
    normalized mobile scores and four null desktop scores; the turn of [u]
    adds one warning, which names [u] and "desktop"; and the entry and the
    warnings of every other URL are what they are whatever the desktop
    probe of [u] does. *)
Theorem desktop_failure_isolated pf api urls u status text payload e :
  In u (uniqueUrls urls) ->
  probe api u Mobile = ProbeAnswered true status text (Ok payload) ->
  runPageSpeed pf api u Desktop = Throw e ->
  let bundle := fetchPageSpeedForUrls pf api urls in
  exists before after entry,
    uniqueUrls urls = (before ++ u :: after)%list
    /\ ~ In u before /\ ~ In u after
    /\ results bundle
       = (map (fun v => fst (probeUrl pf api v)) before ++ entry
            :: map (fun v => fst (probeUrl pf api v)) after)%list
    /\ url entry = u
    /\ mobile entry
       = {| performance := normalizeScore (performanceScore payload);
            accessibility := normalizeScore (accessibilityScore payload);
            bestPractices := normalizeScore (bestPracticesScore payload);
            seo := normalizeScore (seoScore payload) |}
    /\ desktop entry
       = {| performance := None; accessibility := None; bestPractices := None; seo := None |}
    /\ bundleWarnings bundle
       = (List.concat (map (fun v => snd (probeUrl pf api v)) before)
            ++ desktopWarning u e
            :: List.concat (map (fun v => snd (probeUrl pf api v)) after))%list
    /\ includes u (desktopWarning u e) = true
    /\ includes "desktop" (desktopWarning u e) = true
    /\ (forall api' v, sameExceptDesktop u api api' -> v <> u ->
          probeUrl pf api' v = probeUrl pf api v).
Proof.
  intros Hin Hmobile Hdesktop bundle.
  destruct (in_split _ _ Hin) as (before & after & Hsplit).
  pose proof (uniqueUrls_NoDup urls) as Hnd. rewrite Hsplit in Hnd.
  apply NoDup_remove_2 in Hnd.
  destruct (fetchPageSpeedForUrls_eq pf api urls) as [Hr Hw]. fold bundle in Hr, Hw.
  assert (probeUrl pf api u
          = ({| url := u;
                mobile := {| performance := normalizeScore (performanceScore payload);
                             accessibility := normalizeScore (accessibilityScore payload);
                             bestPractices := normalizeScore (bestPracticesScore payload);
                             seo := normalizeScore (seoScore payload) |};
                desktop := emptyScores;
                mobileVitals := extractVitals (audits payload);
                desktopVitals := [];
                opportunities :=
                  firstn 5 (sortBy bySavingsDescending
                              (map snd (fold_left mergeOpportunity
                                          (extractOpportunities pf (audits payload) ++ [])%list
                                          []))) |},
             [desktopWarning u e])) as Hu.
  { unfold probeUrl, probeOrEmpty. rewrite Hdesktop.
    unfold runPageSpeed. rewrite Hmobile. cbn [negb bind scores vitals runOpportunities emptyRunResult].
    destruct (desktopSettlesFirst api u); reflexivity. }
  exists before, after, (fst (probeUrl pf api u)).
  rewrite Hr, Hw, Hsplit, !map_app, concat_app. cbn [map List.concat].
  rewrite Hu. cbn [fst snd url mobile desktop app].
  split; [reflexivity |].
  split; [intros H; apply Hnd; apply in_or_app; now left |].
  split; [intros H; apply Hnd; apply in_or_app; now right |].
  do 5 (split; [reflexivity |]).
  split; [apply (includes_middle u "PageSpeed desktop failed for ") |].
  split; [apply (includes_middle "desktop" "PageSpeed ") |].
  intros api' v. apply probeUrl_other.
Qed.

Lemma desktop_failure_example :
  let u := "https://a.example/" in
  let e := newError "PageSpeed request failed for desktop (500): backend error" in
  let bundle :=
    fetchPageSpeedForUrls samplePlatform samplePageSpeed [u; "https://b.example/"] in
  exists entry,
    In entry (results bundle)
    /\ url entry = u
    /\ mobile entry
       = {| performance := Some 87; accessibility := Some 100;
            bestPractices := Some 92; seo := None |}
    /\ desktop entry = emptyScores
    /\ In (desktopWarning u e) (bundleWarnings bundle).
Proof.
  intros u e bundle.
  destruct (desktop_failure_isolated samplePlatform samplePageSpeed
              [u; "https://b.example/"] u 200 "" samplePayload e)
    as (before & after & entry & _ & _ & _ & Hr & Hu & Hm & Hd & Hw & _).
  - vm_compute. auto.
  - reflexivity.
  - reflexivity.
  - exists entry. fold bundle in Hr, Hw.
    split; [rewrite Hr; apply in_or_app; right; now left |].
    split; [exact Hu |]. split; [exact Hm |]. split; [exact Hd |].
    rewrite Hw. apply in_or_app. right. now left.
Defined.

End PageSpeedFacts.


(* ===================================================================== *)
(** * reporting.ts: deltas, security categories, the snapshot *)
(* ===================================================================== *)

Module ReportingFacts.
Import Js Types Cloudflare PageSpeed Reporting JsFacts Samples.
Local Open Scope string_scope.
Local Open Scope Z_scope.

(** ** Deltas *)

(** C3.  [withDelta] keeps [current] and [previous]; the percentage is 0
    when both are zero, null exactly when [previous] is zero and [current]
    is not, and otherwise (current - previous) / previous * 100 as the
    code computes it: the difference, the quotient and the product each
    rounded to the nearest double, which leaves the percentage within
    2^-51 parts of its exact value; so 0 for (0, 0), null for (5, 0) and
    50 for (150, 100). *)
Theorem withDelta_spec (c p : Z) :
  current (withDelta c p) = c
  /\ previous (withDelta c p) = p
  /\ (c = 0 -> p = 0 -> deltaPercent (withDelta c p) = Some 0%Q)
  /\ (deltaPercent (withDelta c p) = None <-> p = 0 /\ c <> 0)
  /\ (p <> 0 ->
        let percentage := ((inject_Z c - inject_Z p) / inject_Z p * 100)%Q in
        exists q,
          deltaPercent (withDelta c p) = Some q
          /\ q = mulDouble (divDouble (subDouble (inject_Z c) (inject_Z p)) (inject_Z p)) 100
          /\ (Qabs (q - percentage) <= pow2 (- 51) * Qabs percentage)%Q)
  /\ withDelta 0 0 = {| current := 0; previous := 0; deltaPercent := Some 0%Q |}
  /\ deltaPercent (withDelta 5 0) = None
  /\ deltaPercent (withDelta 150 100) = Some 50%Q.
Proof.
  unfold withDelta. cbn [current previous deltaPercent].
  split; [reflexivity |]. split; [reflexivity |].
  split; [intros -> ->; reflexivity |].
  split; [| split; [| split; [reflexivity | split; [reflexivity | vm_compute; reflexivity]]]].
  - split.
    + destruct (Z.eqb_spec p 0); [| discriminate].
      destruct (Z.eqb_spec c 0); [discriminate | auto].
    + intros [-> Hc]. cbn. destruct (Z.eqb_spec c 0); [contradiction | reflexivity].
  - intros Hp. cbv zeta. destruct (Z.eqb_spec p 0); [contradiction |].
    eexists. split; [reflexivity |]. split; [reflexivity |].
    apply three_roundings.
Qed.

(** The percentage of 107 against 100 is the double next above 7, which
    prints as 7.000000000000001. *)
Example withDelta_107_100 :
  deltaPercent (withDelta 107 100) = Some (7881299347898369 # 1125899906842624)%Q
  /\ (7881299347898369 # 1125899906842624 == 7 + pow2 (- 50))%Q.
Proof. split; vm_compute; reflexivity. Qed.

(** ** Security categories *)

Lemma categoryTotal_app label gs hs :
  categoryTotal label (gs ++ hs) = categoryTotal label gs + categoryTotal label hs.
Proof. induction gs as [| g gs IH]; cbn [categoryTotal app]; lia. Qed.

Lemma categoryTotal_absent label gs :
  ~ In label (map categoryOf gs) -> categoryTotal label gs = 0.
Proof.
  induction gs as [| g gs IH]; cbn [categoryTotal map In]; [reflexivity |].
  intros H. destruct (String.eqb_spec (categoryOf g) label); [tauto |].
  rewrite IH by tauto. reflexivity.
Qed.

Lemma byCategory_spec groups :
  map fst (byCategory (tallyOf groups)) = Set_from (map categoryOf groups)
  /\ forall label,
       Map_get label (byCategory (tallyOf groups))
       = if Set_has label (map categoryOf groups)
         then Some (categoryTotal label groups) else None.
Proof.
  unfold tallyOf.
  induction groups as [| g gs [Hk Hv]] using rev_ind; [split; reflexivity |].
  rewrite fold_left_snoc. cbn [tallyGroup byCategory]. split.
  - rewrite Map_set_keys, Hk, map_app. cbn [map]. now rewrite Set_from_snoc.
  - intros label. rewrite Map_get_set, Hv, map_app, categoryTotal_app.
    cbn [map categoryTotal]. unfold Set_has in *. rewrite existsb_app. cbn [existsb].
    rewrite orb_false_r, (String.eqb_sym label (categoryOf g)).
    destruct (String.eqb_spec (categoryOf g) label) as [-> | Hne].
    + rewrite orb_true_r.
      destruct (existsb (String.eqb label) (map categoryOf gs)) eqn:E.
      * f_equal. lia.
      * f_equal. rewrite categoryTotal_absent; [lia |].
        intros H. apply Set_has_In in H. unfold Set_has in H. congruence.
    + rewrite orb_false_r, Hv. destruct (existsb (String.eqb label) (map categoryOf gs));
        [f_equal; lia | reflexivity].
Qed.

Lemma byCategory_entries groups label total :
  In (label, total) (byCategory (tallyOf groups)) ->
  In label (map categoryOf groups) /\ total = categoryTotal label groups.
Proof.
  intros Hin. destruct (byCategory_spec groups) as [Hk Hv].
  destruct (Set_from_spec (map categoryOf groups)) as (Hnd & Hmem & _).
  assert (In label (map categoryOf groups)) as Hl.
  { apply Hmem. rewrite <- Hk. now apply (in_map fst) in Hin. }
  split; [exact Hl |].
  apply Map_In_get in Hin; [| now rewrite Hk].
  rewrite Hv in Hin. apply Set_has_In in Hl. rewrite Hl in Hin. congruence.
Qed.

Lemma sorted_entries groups :
  StronglySorted (entryOutranks groups)
    (sortBy byCountDescending (byCategory (tallyOf groups))).
Proof.
  set (m := byCategory (tallyOf groups)).
  set (earlier := fun a b : string * Z =>
         In a m /\ In b m /\ (firstSeen (fst a) groups < firstSeen (fst b) groups)%nat).
  apply (sortBy_sorted byCountDescending (entryOutranks groups) earlier).
  - intros [la ca] [lb cb] (Ha & Hb & Hlt).
    destruct (byCategory_entries _ _ _ Ha) as [_ ->].
    destruct (byCategory_entries _ _ _ Hb) as [_ ->].
    unfold byCountDescending, entryOutranks, outranks. cbn [fst snd] in *.
    destruct (Z.leb_spec (categoryTotal lb groups - categoryTotal la groups) 0).
    + destruct (Z.eq_dec (categoryTotal la groups) (categoryTotal lb groups)); [right | left]; lia.
    + left. lia.
  - intros [la ca] [lb cb] [lc cc] (Ha & Hb & Hab) (_ & Hc & Hac) Hcmp Hbc.
    destruct (byCategory_entries _ _ _ Ha) as [_ ->].
    destruct (byCategory_entries _ _ _ Hb) as [_ ->].
    destruct (byCategory_entries _ _ _ Hc) as [_ ->].
    unfold byCountDescending, entryOutranks, outranks in *. cbn [fst snd] in *.
    apply Z.leb_le in Hcmp.
    destruct (Z.eq_dec (categoryTotal la groups) (categoryTotal lc groups)); [right | left]; lia.
  - destruct (byCategory_spec groups) as [Hk _].
    destruct (Set_from_spec (map categoryOf groups)) as (_ & _ & Hs).
    rewrite <- Hk in Hs. fold m in Hs.
    assert (forall l : list (string * Z),
              (forall e, In e l -> In e m) ->
              StronglySorted
                (fun a b => (firstIndex a (map categoryOf groups)
                             < firstIndex b (map categoryOf groups))%nat) (map fst l) ->
              StronglySorted earlier l) as G.
    { induction l as [| e l IH]; intros Hsub Hl; [constructor |].
      cbn [map] in Hl. inversion Hl as [| ? ? Hl' He]; subst. constructor.
      - apply IH; [intros; apply Hsub; now right | assumption].
      - rewrite Forall_map in He. rewrite Forall_forall in *. intros b Hb.
        unfold earlier, firstSeen. repeat split; [apply Hsub; now left | apply Hsub; now right |].
        now apply He. }
    apply G; auto.
Qed.

Lemma includes_slash_cons c s :
  includes "/" (String c s) = false -> c <> "/"%char /\ includes "/" s = false.
Proof.
  cbn [includes prefix]. destruct (ascii_dec "/" c) as [<- | Hne].
  - destruct s; discriminate.
  - intros H. split; [congruence | exact H].
Qed.

Lemma label_unambiguous s1 a1 s2 a2 :
  includes "/" s1 = false -> includes "/" s2 = false ->
  s1 ++ "/" ++ a1 = s2 ++ "/" ++ a2 -> s1 = s2 /\ a1 = a2.
Proof.
  revert s2. induction s1 as [| c1 r1 IH]; intros [| c2 r2] H1 H2 E; cbn [append] in E.
  - injection E as ->. auto.
  - injection E as <- _. apply includes_slash_cons in H2. tauto.
  - injection E as -> _. apply includes_slash_cons in H1. tauto.
  - injection E as -> E. apply includes_slash_cons in H1, H2.
    destruct (IH r2 (proj2 H1) (proj2 H2) E) as [-> ->]. auto.
Qed.

Lemma categoryTotal_pairTotal src act groups :
  includes "/" src = false ->
  (forall g, In g groups -> includes "/" (source g) = false) ->
  categoryTotal (src ++ "/" ++ act) groups = pairTotal src act groups.
Proof.
  intros Hs. induction groups as [| g gs IH]; intros Hg; cbn [categoryTotal pairTotal];
    [reflexivity |].
  rewrite IH by (intros; apply Hg; now right). f_equal.
  unfold categoryOf.
  destruct (String.eqb_spec (source g ++ "/" ++ action g) (src ++ "/" ++ act)) as [E | Hne].
  - apply label_unambiguous in E; [| apply Hg; now left | assumption].
    destruct E as [-> ->]. now rewrite !String.eqb_refl.
  - destruct (String.eqb_spec (source g) src) as [E1 | ?]; [| reflexivity].
    destruct (String.eqb_spec (action g) act) as [E2 | ?]; [| reflexivity].
    exfalso. apply Hne. now rewrite E1, E2.
Qed.

(** C8.  [buildSecuritySnapshot] returns at most three category rows, with
    distinct labels.  Every row is labelled [source/action] for a group of
    the input and counts all events filed under that label: the events of
    that pair of source and action when no source holds a slash, and
    otherwise those of every pair that spells the same label.  The rows
    are in descending order of count, rows of equal count in the order in
    which their labels first appear in the input; and every category left
    out ranks below all three rows in that order. *)
Theorem buildSecuritySnapshot_topCategories groups :
  let rows := topCategories (buildSecuritySnapshot groups) in
  (List.length rows <= 3)%nat
  /\ NoDup (map categoryLabel rows)
  /\ (forall r, In r rows ->
        In (categoryLabel r) (map categoryOf groups)
        /\ categoryCount r = categoryTotal (categoryLabel r) groups)
  /\ StronglySorted (fun a b => categoryCount a >= categoryCount b) rows
  /\ StronglySorted
       (fun a b => outranks groups (categoryLabel a) (categoryLabel b)) rows
  /\ (forall g, In g groups ->
        In (categoryOf g) (map categoryLabel rows)
        \/ (List.length rows = 3%nat
            /\ forall r, In r rows -> outranks groups (categoryLabel r) (categoryOf g)))
  /\ ((forall g, In g groups -> includes "/" (source g) = false) ->
      forall r, In r rows ->
        exists g, In g groups
                  /\ categoryLabel r = source g ++ "/" ++ action g
                  /\ categoryCount r = pairTotal (source g) (action g) groups).
Proof.
  intros rows.
  set (m := byCategory (tallyOf groups)).
  set (sorted := sortBy byCountDescending m).
  assert (rows = map toRow (firstn 3 sorted)) as Hrows by reflexivity.
  pose proof (sortBy_perm byCountDescending m) as Hperm. fold sorted in Hperm.
  pose proof (sorted_entries groups) as Hsorted. fold m sorted in Hsorted.
  destruct (byCategory_spec groups) as [Hk _]. fold m in Hk.
  destruct (Set_from_spec (map categoryOf groups)) as (Hnd & Hmem & _).
  rewrite <- (firstn_skipn 3 sorted) in Hsorted, Hperm.
  destruct (StronglySorted_app_inv _ _ _ Hsorted) as (Htop & _ & Hcut).
  assert (forall e, In e (firstn 3 sorted) -> In e m) as Hsub.
  { intros e He. apply (Permutation_in _ Hperm). apply in_or_app. now left. }
  assert (map categoryLabel rows = map fst (firstn 3 sorted)) as Hlabels.
  { rewrite Hrows, map_map. reflexivity. }
  assert (forall a b, In a (firstn 3 sorted) -> In b (firstn 3 sorted) ->
            entryOutranks groups a b -> snd a >= snd b) as Hcount.
  { intros [la ca] [lb cb] Ha Hb.
    destruct (byCategory_entries _ _ _ (Hsub _ Ha)) as [_ ->].
    destruct (byCategory_entries _ _ _ (Hsub _ Hb)) as [_ ->].
    unfold entryOutranks, outranks. cbn [fst snd]. lia. }
  assert (forall r, In r rows ->
            In (categoryLabel r) (map categoryOf groups)
            /\ categoryCount r = categoryTotal (categoryLabel r) groups) as Hrow.
  { intros r Hr. rewrite Hrows in Hr. apply in_map_iff in Hr.
    destruct Hr as ([l c] & <- & He). cbn [toRow categoryLabel categoryCount fst snd].
    apply (byCategory_entries groups l c). now apply Hsub. }
  split; [| split; [| split; [| split; [| split; [| split]]]]].
  - rewrite Hrows, length_map. apply firstn_le_length.
  - rewrite Hlabels.
    assert (NoDup (map fst (firstn 3 sorted ++ skipn 3 sorted))) as H.
    { apply (Permutation_NoDup (l := map fst m)); [| now rewrite Hk].
      apply Permutation_map. now symmetry. }
    rewrite map_app in H. now apply NoDup_app_remove_r in H.
  - exact Hrow.
  - rewrite Hrows. apply StronglySorted_map. cbn [toRow categoryCount].
    revert Htop. apply StronglySorted_weaken. exact Hcount.
  - rewrite Hrows. apply StronglySorted_map. exact Htop.
  - intros g Hg.
    assert (In (categoryOf g) (map fst m)) as Hl.
    { rewrite Hk. apply Hmem. now apply in_map. }
    apply in_map_iff in Hl. destruct Hl as ([l c] & Hfst & He). cbn [fst] in Hfst. subst l.
    apply (Permutation_in _ (Permutation_sym Hperm)) in He.
    apply in_app_or in He. destruct He as [He | He].
    + left. rewrite Hlabels. now apply (in_map fst) in He.
    + right. split.
      * rewrite Hrows, length_map, length_firstn.
        assert (List.length (skipn 3 sorted) <> 0%nat) as Hne
          by (destruct (skipn 3 sorted); [destruct He | discriminate]).
        rewrite length_skipn in Hne. lia.
      * intros r Hr. rewrite Hrows in Hr. apply in_map_iff in Hr.
        destruct Hr as (e & <- & Hin). apply (Hcut e _ Hin He).
  - intros Hslash r Hr. destruct (Hrow r Hr) as [Hl Hc].
    apply in_map_iff in Hl. destruct Hl as (g & Hg & Hin).
    exists g. split; [exact Hin |]. split; [now rewrite <- Hg |].
    rewrite Hc, <- Hg. apply categoryTotal_pairTotal; [now apply Hslash | exact Hslash].
Qed.

(** Two pairs under one label: the source a/b with the action c and the
    source a with the action b/c are both filed under a/b/c, and the one
    row counts the events of both. *)
Lemma slash_in_source_merges_pairs :
  topCategories
    (buildSecuritySnapshot
       [ {| source := "a/b"; action := "c"; count := 1 |};
         {| source := "a"; action := "b/c"; count := 2 |} ])
  = [ {| categoryLabel := "a/b/c"; categoryCount := 3 |} ]
  /\ pairTotal "a/b" "c"
       [ {| source := "a/b"; action := "c"; count := 1 |};
         {| source := "a"; action := "b/c"; count := 2 |} ] = 1
  /\ pairTotal "a" "b/c"
       [ {| source := "a/b"; action := "c"; count := 1 |};
         {| source := "a"; action := "b/c"; count := 2 |} ] = 2.
Proof. vm_compute. repeat split; reflexivity. Qed.

Example topCategories_ties_first_seen :
  buildSecuritySnapshot sampleGroups
  = {| totalFirewallActions := 14;
       botRateLimitActions := 16;
       topCategories :=
         [ {| categoryLabel := "Bot/skip"; categoryCount := 9 |};
           {| categoryLabel := "waf/block"; categoryCount := 7 |};
           {| categoryLabel := "rateLimit/challenge"; categoryCount := 7 |} ] |}.
Proof. vm_compute. reflexivity. Qed.

(** ** The snapshot *)

Lemma randomInt_ext r r' lo hi : r = r' -> randomInt r lo hi = randomInt r' lo hi.
Proof. now intros ->. Qed.

Lemma buildWordPressSnapshot_ext rnd1 rnd2 monthKey :
  (forall n, (n < 4)%nat -> rnd1 n = rnd2 n) ->
  buildWordPressSnapshot rnd1 monthKey = buildWordPressSnapshot rnd2 monthKey.
Proof.
  intros H. unfold buildWordPressSnapshot.
  rewrite (H 0%nat), (H 1%nat), (H 2%nat), (H 3%nat) by lia. reflexivity.
Qed.

(** C1, as amended.  Two assemblies from the same client, time zone,
    period, month label and aggregation agree on every field except
    [generatedAt] and the [wordpress] section, which is drawn from
    [Math.random] at each assembly; when the draws agree too, the
    snapshots agree on every field except [generatedAt]. *)
Theorem snapshot_determined_modulo_timestamp_and_draws
  cfg tz period label agg clock1 clock2 rnd1 rnd2 :
  let s1 := assembleSnapshot cfg tz period label agg clock1 rnd1 in
  let s2 := assembleSnapshot cfg tz period label agg clock2 rnd2 in
  (forall stamp wp,
     withWordpress wp (withGeneratedAt stamp s1) = withWordpress wp (withGeneratedAt stamp s2))
  /\ ((forall n, (n < 4)%nat -> rnd1 n = rnd2 n) -> sameModuloGeneratedAt s1 s2)
  /\ generatedAt s1 = toISOString clock1
  /\ wordpress s1 = buildWordPressSnapshot rnd1 (monthKey period).
Proof.
  intros s1 s2. subst s1 s2. unfold sameModuloGeneratedAt, withWordpress, withGeneratedAt, assembleSnapshot.
  cbn [clientId zoneId domain reportMonthKey monthLabel timezone generatedAt author traffic
       security performanceResults wordpress warnings].
  split; [reflexivity |]. split; [| split; reflexivity].
  intros H. now rewrite (buildWordPressSnapshot_ext rnd1 rnd2 _ H).
Qed.

(** C1 as stated fails: two assemblies from the same inputs, at the same
    instant, differ in the plugin count that each one draws. *)
Lemma snapshot_depends_on_random_draws :
  let s1 := assembleSnapshot SITE_CONFIG "UTC" samplePeriod "January 2026"
              sampleAggregation 1770000000000 (fun _ => 0%Q) in
  let s2 := assembleSnapshot SITE_CONFIG "UTC" samplePeriod "January 2026"
              sampleAggregation 1770000000000 (fun _ => (1 # 2)%Q) in
  totalPlugins (wordpress s1) = 18
  /\ totalPlugins (wordpress s2) = 27
  /\ ~ sameModuloGeneratedAt s1 s2.
Proof.
  intros s1 s2. split; [reflexivity |]. split; [reflexivity |].
  intros H. apply (f_equal (fun s => totalPlugins (wordpress s))) in H.
  vm_compute in H. discriminate H.
Qed.

(** ** A failing security source *)

Lemma fetchSecurityGroups_never_throws pf up zone from to :
  exists groups, fetchSecurityGroups pf up zone from to = Ok groups.
Proof.
  unfold fetchSecurityGroups.
  destruct (graphqlRequest (securityExchange up zone from to)); [eauto |].
  destruct (includes "does not have access" (errString error)); [eauto |].
  destruct (graphqlRequest (actionOnlyExchange up zone from to)); eauto.
Qed.

Lemma fetchSecurityGroups_failed pf up zone from to :
  securityFails up -> fetchSecurityGroups pf up zone from to = Ok [].
Proof.
  intros [H1 H2]. unfold fetchSecurityGroups.
  destruct (H1 zone from to) as [e1 ->]. destruct (H2 zone from to) as [e2 ->].
  now destruct (includes "does not have access" (errString e1)).
Qed.

Lemma safeFetchSecurity_silent pf cfg up period :
  snd (safeFetchSecurity pf cfg up period) = [].
Proof.
  unfold safeFetchSecurity. now destruct (fetchSecurityGroups _ _ _ _ _).
Qed.

Lemma safeFetchSecurity_warning_silent pf cfg up period :
  safeFetchSecurity_warning pf cfg up period = safeFetchSecurity pf cfg up period.
Proof.
  unfold safeFetchSecurity_warning, safeFetchSecurity.
  now destruct (fetchSecurityGroups_never_throws pf up (siteZoneId cfg)
                  (startDateTime period) (endDateTimeExclusive period)) as [groups ->].
Qed.

Lemma traffic_untouched pf sec act w zone from to :
  fetchTrafficDaily pf (upstream (withSecurityExchanges sec act w)) zone from to
  = fetchTrafficDaily pf (upstream w) zone from to.
Proof. reflexivity. Qed.

Lemma topPaths_untouched pf cfg sec act w period :
  safeFetchTopPaths pf cfg (upstream (withSecurityExchanges sec act w)) period
  = safeFetchTopPaths pf cfg (upstream w) period.
Proof. reflexivity. Qed.

Lemma aggregate_unfold pf cfg w period :
  aggregate pf cfg w period
  = bind (fetchTrafficDaily pf (upstream w) (siteZoneId cfg)
            (startDate period) (endDateExclusive period))
      (fun cur =>
         bind (fetchTrafficDaily pf (upstream w) (siteZoneId cfg)
                 (prevStartDate period) (prevEndDateExclusive period))
           (fun prev =>
              Ok {| currentDaily := cur;
                    previousDaily := prev;
                    aggTopPaths := fst (safeFetchTopPaths pf cfg (upstream w) period);
                    securityGroups := fst (safeFetchSecurity pf cfg (upstream w) period);
                    pageSpeedResults :=
                      results (fetchPageSpeedForUrls pf (pageSpeedApi w) (pagespeedUrls cfg));
                    aggWarnings :=
                      (snd (safeFetchTopPaths pf cfg (upstream w) period)
                         ++ bundleWarnings
                              (fetchPageSpeedForUrls pf (pageSpeedApi w) (pagespeedUrls cfg)))%list
                 |})).
Proof.
  unfold aggregate.
  destruct (fetchTrafficDaily _ _ _ (startDate period) _); cbn [bind]; [| reflexivity].
  destruct (fetchTrafficDaily _ _ _ (prevStartDate period) _); cbn [bind]; [| reflexivity].
  pose proof (safeFetchSecurity_silent pf cfg (upstream w) period) as Hsilent.
  destruct (safeFetchTopPaths pf cfg (upstream w) period) as [paths pathWarnings].
  destruct (safeFetchSecurity pf cfg (upstream w) period) as [groups secWarnings].
  cbn [fst snd] in *. now subst secWarnings.
Qed.

Lemma aggregate_security pf cfg w period agg :
  aggregate pf cfg w period = Ok agg ->
  aggWarnings agg
  = (snd (safeFetchTopPaths pf cfg (upstream w) period)
       ++ bundleWarnings (fetchPageSpeedForUrls pf (pageSpeedApi w) (pagespeedUrls cfg)))%list
  /\ securityGroups agg = fst (safeFetchSecurity pf cfg (upstream w) period)
  /\ forall sec act,
       aggregate pf cfg (withSecurityExchanges sec act w) period
       = Ok {| currentDaily := currentDaily agg;
               previousDaily := previousDaily agg;
               aggTopPaths := aggTopPaths agg;
               securityGroups :=
                 fst (safeFetchSecurity pf cfg (upstream (withSecurityExchanges sec act w)) period);
               pageSpeedResults := pageSpeedResults agg;
               aggWarnings := aggWarnings agg |}.
Proof.
  rewrite aggregate_unfold.
  destruct (fetchTrafficDaily pf (upstream w) (siteZoneId cfg) (startDate period)
              (endDateExclusive period)) as [cur | e] eqn:Hcur; cbn [bind]; [| discriminate].
  destruct (fetchTrafficDaily pf (upstream w) (siteZoneId cfg) (prevStartDate period)
              (prevEndDateExclusive period)) as [prev | e] eqn:Hprev; cbn [bind]; [| discriminate].
  intros H. apply (f_equal (fun r => match r with Ok v => v | Throw _ => agg end)) in H.
  cbv beta iota in H. subst agg.
  cbn [aggWarnings securityGroups currentDaily previousDaily aggTopPaths pageSpeedResults].
  split; [reflexivity |]. split; [reflexivity |].
  intros sec act. rewrite aggregate_unfold.
  rewrite !traffic_untouched, Hcur. cbn [bind]. rewrite Hprev. cbn [bind].
  rewrite topPaths_untouched. reflexivity.
Qed.

(** C2, as amended.  When every security query throws and the run reaches
    its snapshot, the security section holds zero firewall actions, zero
    bot and rate-limit actions and no category; the warnings are those of
    the top-paths fetch and of the PageSpeed probes, with none for the
    security failure; and with any other answers to the security queries
    the run reaches a snapshot that differs in the security section only. *)
Theorem security_failure_degrades_silently pf cfg env w monthOverride snapshot :
  securityFails (upstream w) ->
  generateMonthlySnapshot pf cfg env w monthOverride = Ok snapshot ->
  totalFirewallActions (security snapshot) = 0
  /\ botRateLimitActions (security snapshot) = 0
  /\ topCategories (security snapshot) = []
  /\ (exists period,
        Period.buildMonthPeriod (now w) monthOverride = Ok period
        /\ warnings snapshot
           = normalizeWarnings
               (snd (safeFetchTopPaths pf cfg (upstream w) period)
                  ++ bundleWarnings
                       (fetchPageSpeedForUrls pf (pageSpeedApi w) (pagespeedUrls cfg)))%list)
  /\ (forall sec act, exists snapshot',
        generateMonthlySnapshot pf cfg env (withSecurityExchanges sec act w) monthOverride
        = Ok snapshot'
        /\ withSecurity (security snapshot) snapshot' = snapshot
        /\ traffic snapshot' = traffic snapshot
        /\ performanceResults snapshot' = performanceResults snapshot
        /\ warnings snapshot' = warnings snapshot).
Proof.
  intros Hfail. unfold generateMonthlySnapshot.
  change (now (withSecurityExchanges _ _ w)) with (now w).
  destruct (Period.buildMonthPeriod (now w) monthOverride) as [period | e]; cbn [bind];
    [| discriminate].
  destruct (aggregate pf cfg w period) as [agg | e] eqn:Hagg; cbn [bind]; [| discriminate].
  destruct (aggregate_security pf cfg w period agg Hagg) as (Hwarn & Hsec & Hother).
  destruct (Period.formatMonthLabel pf (monthKey period) (timezoneOf env)) as [label | e];
    cbn [bind]; [| discriminate].
  intros H. apply (f_equal (fun r => match r with Ok v => v | Throw _ => snapshot end)) in H.
  cbv beta iota in H. subst snapshot.
  assert (securityGroups agg = []) as Hempty.
  { rewrite Hsec. unfold safeFetchSecurity. now rewrite fetchSecurityGroups_failed. }
  unfold assembleSnapshot at 1 2 3.
  cbn [security totalFirewallActions botRateLimitActions topCategories].
  rewrite Hempty.
  split; [reflexivity |]. split; [reflexivity |]. split; [reflexivity |].
  split.
  - exists period. split; [reflexivity |].
    unfold assembleSnapshot. cbn [warnings]. now rewrite Hwarn.
  - intros sec act. setoid_rewrite Hother. cbn [bind].
    eexists. split; [reflexivity |].
    unfold withSecurity, assembleSnapshot.
    cbn [clientId zoneId domain reportMonthKey monthLabel timezone generatedAt author traffic
         security performanceResults wordpress warnings currentDaily previousDaily aggTopPaths
         securityGroups pageSpeedResults aggWarnings generatedAtClock random withSecurityExchanges].
    rewrite Hempty. repeat split; reflexivity.
Qed.

Lemma sample_security_fails : securityFails sampleUpstream.
Proof. split; intros zone from to; exists unreachable; reflexivity. Qed.

Lemma sample_run :
  generateMonthlySnapshot samplePlatform SITE_CONFIG sampleEnv sampleWorld (Some "2026-01")
  = Ok sampleSnapshot.
Proof. vm_compute. reflexivity. Qed.

Lemma security_failure_january_2026 :
  generateMonthlySnapshot samplePlatform SITE_CONFIG sampleEnv sampleWorld (Some "2026-01")
  = Ok sampleSnapshot
  /\ totalFirewallActions (security sampleSnapshot) = 0
  /\ botRateLimitActions (security sampleSnapshot) = 0
  /\ topCategories (security sampleSnapshot) = [].
Proof.
  destruct (security_failure_degrades_silently samplePlatform SITE_CONFIG sampleEnv
              sampleWorld (Some "2026-01") sampleSnapshot sample_security_fails sample_run)
    as (H1 & H2 & H3 & _).
  split; [exact sample_run |]. split; [exact H1 |]. split; [exact H2 | exact H3].
Defined.

(** C2 as stated fails: every security query throws, the run reaches its
    snapshot, and the snapshot carries no warning at all. *)
Lemma security_failure_leaves_no_warning :
  securityFails sampleUpstream
  /\ generateMonthlySnapshot samplePlatform SITE_CONFIG sampleEnv sampleWorld (Some "2026-01")
     = Ok sampleSnapshot
  /\ warnings sampleSnapshot = [].
Proof.
  split; [exact sample_security_fails |]. split; [exact sample_run | reflexivity].
Qed.

End ReportingFacts.

(* ===================================================================== *)
(** * period.ts: the period and its weekly rows *)
(* ===================================================================== *)

Module BreakdownFacts.
Import Js Types Period JsFacts PeriodFacts.
Local Open Scope string_scope.
Local Open Scope Z_scope.


(** ** The period and its weekly rows *)

Lemma period_bounds now y m :
  100 <= y <= 9999 -> 1 <= m <= 12 -> fst (nextMonth y m) <= 9999 ->
  exists p,
    buildMonthPeriod now (Some (overrideOf y m)) = Ok p
    /\ startDate p = isoFirstDay y m
    /\ endDateExclusive p = isoFirstDay (fst (nextMonth y m)) (snd (nextMonth y m)).
Proof.
  intros Hy Hm Hn.
  destruct (buildMonthPeriod_valid now y m ltac:(lia) Hm) as (p & Hp & _ & Sp & Ep & _).
  exists p. split; [exact Hp |]. rewrite Sp, Ep, !fullYear_id by lia.
  split.
  - rewrite toIsoDate_first by lia. replace (m - 1 + 1) with m by lia. reflexivity.
  - unfold nextMonth in *. destruct (Z.eqb_spec m 12) as [-> | Hne]; cbn [fst snd] in *.
    + replace (12 / 12) with 1 by reflexivity. replace (12 mod 12) with 0 by reflexivity.
      rewrite toIsoDate_first by lia. reflexivity.
    + rewrite Z.div_small, Z.mod_small, Z.add_0_r by lia.
      rewrite toIsoDate_first by lia. reflexivity.
Qed.

Lemma period_date_times now s p :
  buildMonthPeriod now s = Ok p ->
  startDateTime p = startDate p ++ "T00:00:00Z"
  /\ endDateTimeExclusive p = endDateExclusive p ++ "T00:00:00Z"
  /\ prevStartDateTime p = prevStartDate p ++ "T00:00:00Z"
  /\ prevEndDateTimeExclusive p = prevEndDateExclusive p ++ "T00:00:00Z".
Proof.
  unfold buildMonthPeriod.
  destruct (match truthy s with Some s0 => parseMonthOverride s0 | None => _ end) as [t | e];
    cbn [bind]; [| discriminate].
  intros E. apply (f_equal (fun r => match r with Ok v => v | Throw _ => p end)) in E.
  cbv beta iota in E. subst p.
  cbn [startDateTime endDateTimeExclusive prevStartDateTime prevEndDateTimeExclusive
       startDate endDateExclusive prevStartDate prevEndDateExclusive].
  repeat split; reflexivity.
Qed.

Ltac week_step :=
  rewrite weekWindows_unfold;
  match goal with
  | |- context [?a <? ?b] =>
      destruct (Z.ltb_spec a b); [| unfold msPerDay in *; lia]
  end;
  cbv zeta;
  match goal with
  | |- context [?a >? ?b] =>
      destruct (Z.gtb_spec a b); try (unfold msPerDay in *; lia)
  end;
  cbn [List.length].

Lemma weekWindows_length c n :
  (28 <= n <= 31)%nat ->
  List.length (weekWindows 1 c (c + Z.of_nat n * msPerDay))
  = if (n =? 28)%nat then 4%nat else 5%nat.
Proof.
  intros Hn.
  assert (n = 28 \/ n = 29 \/ n = 30 \/ n = 31)%nat as C by lia.
  destruct C as [-> | [-> | [-> | ->]]]; cbn [Nat.eqb];
    repeat week_step;
    rewrite weekWindows_unfold;
    match goal with
    | |- context [?a <? ?b] =>
        destruct (Z.ltb_spec a b); [unfold msPerDay in *; lia |]
    end; reflexivity.
Qed.

(** In the period of a month of the years 0100 to 9999 the two bounds are
    midnights [n] days apart, [n] from 28 to 31, and the weekly breakdown
    over these bounds has four rows when the month has 28 days and five
    rows otherwise, whatever the daily points are. *)
Theorem monthly_breakdown_row_count now y m daily :
  100 <= y <= 9999 -> 1 <= m <= 12 -> fst (nextMonth y m) <= 9999 ->
  exists p start (n : nat),
    buildMonthPeriod now (Some (overrideOf y m)) = Ok p
    /\ (28 <= n <= 31)%nat
    /\ Date_parse (startDateTime p) = Some start
    /\ Date_parse (endDateTimeExclusive p) = Some (start + Z.of_nat n * msPerDay)
    /\ List.length (buildWeeklyBreakdown daily (startDate p) (endDateExclusive p))
       = if (n =? 28)%nat then 4%nat else 5%nat.
Proof.
  intros Hy Hm Hn.
  destruct (period_bounds now y m Hy Hm Hn) as (p & Hp & Sp & Ep).
  destruct (month_length y m Hm) as (n & Rn & En).
  assert (0 <= fst (nextMonth y m) <= 9999 /\ 1 <= snd (nextMonth y m) <= 12) as [Hy' Hm'].
  { unfold nextMonth in *. destruct (Z.eqb_spec m 12); cbn [fst snd] in *; lia. }
  destruct (period_date_times _ _ _ Hp) as (Ts & Te & _).
  exists p, (firstOfMonth y (m - 1)), n.
  split; [exact Hp |]. split; [exact Rn |].
  rewrite Ts, Te, Sp, Ep. rewrite <- En.
  split; [apply Date_parse_first; lia |]. split; [apply Date_parse_first; lia |].
  unfold buildWeeklyBreakdown. rewrite !Date_parse_first by lia.
  rewrite length_map, En. apply weekWindows_length. exact Rn.
Qed.

Lemma monthly_breakdown_row_count_2026_02 :
  exists p start (n : nat),
    buildMonthPeriod 0 (Some (overrideOf 2026 2)) = Ok p
    /\ (28 <= n <= 31)%nat
    /\ Date_parse (startDateTime p) = Some start
    /\ Date_parse (endDateTimeExclusive p) = Some (start + Z.of_nat n * msPerDay)
    /\ List.length (buildWeeklyBreakdown [] (startDate p) (endDateExclusive p))
       = if (n =? 28)%nat then 4%nat else 5%nat.
Proof.
  apply (monthly_breakdown_row_count 0 2026 2 []); cbn; lia.
Defined.

Lemma Date_parse_day y m d :
  0 <= y <= 9999 -> 1 <= m <= 12 -> 1 <= d <= 31 ->
  Date_parse (isoDay y m d ++ "T00:00:00Z") = Some (MakeDay y (m - 1) d * msPerDay).
Proof.
  intros Hy Hm Hd.
  pose proof (Number_pad4 y Hy) as N4. pose proof (Number_pad2 m ltac:(lia)) as N2.
  pose proof (Number_pad2 d ltac:(lia)) as D2.
  pose proof (allDigits_pad4 y) as A4. pose proof (allDigits_pad2 m) as A2.
  pose proof (allDigits_pad2 d) as B2.
  assert (TimeClip (MakeDate (MakeDay y (m - 1) d) 0) = Some (MakeDay y (m - 1) d * msPerDay))
    as Clip.
  { unfold TimeClip, MakeDate, MakeDay.
    replace ((m - 1) / 12) with 0 by (Z.div_mod_to_equations; lia).
    rewrite !Z.add_0_r.
    set (leap := if DaysInYear y =? 366 then 1 else 0).
    assert (0 <= leap <= 1) as Hl by (subst leap; destruct (DaysInYear y =? 366); lia).
    pose proof (monthStart_range leap ((m - 1) mod 12) Hl
                  ltac:(Z.div_mod_to_equations; lia)) as Hs.
    set (start := monthStart leap ((m - 1) mod 12)) in *. clearbody start.
    assert (- 719528 <= DayFromYear y <= 2932897) as Hf
      by (unfold DayFromYear; Z.div_mod_to_equations; lia).
    set (first := DayFromYear y) in *. clearbody first.
    match goal with
    | |- (if ?a <=? ?b then _ else _) = _ => destruct (Z.leb_spec a b) as [| Hout]
    end; [reflexivity | exfalso].
    unfold msPerDay in Hout. lia. }
  unfold isoDay, pad4, pad3, pad2 in *. cbn [append] in *.
  unfold Date_parse at 1. unfold parseYear, takeDigits. cbn [splitAt]. rewrite A4, N4.
  unfold parseField, takeDigits.
  replace (Ascii.eqb "-" "-") with true by reflexivity. cbn [splitAt]. rewrite A2, N2.
  destruct (Z.leb_spec 1 m); [| lia]. destruct (Z.leb_spec m 12); [| lia].
  cbn [andb]. rewrite B2, D2.
  destruct (Z.leb_spec 1 d); [| lia]. destruct (Z.leb_spec d 31); [| lia].
  cbn [andb].
  replace (String.eqb "T00:00:00Z" "T00:00:00Z") with true by reflexivity.
  exact Clip.
Qed.

(** One window for every seven days, and one for what is left. *)
Lemma weekWindows_count k : forall index c,
  List.length (weekWindows index c (c + Z.of_nat k * msPerDay))
  = Z.to_nat ((Z.of_nat k + 6) / 7).
Proof.
  induction k as [k IH] using lt_wf_ind. intros index c.
  rewrite weekWindows_unfold.
  destruct (Z.ltb_spec c (c + Z.of_nat k * msPerDay)) as [Hlt | Hge].
  2:{ assert (k = 0%nat) as -> by (unfold msPerDay in *; lia). reflexivity. }
  cbv zeta. cbn [List.length].
  destruct (Z.gtb_spec (c + 7 * msPerDay) (c + Z.of_nat k * msPerDay)) as [Hcap | Hfull].
  - assert (1 <= k <= 6)%nat as Hk by (unfold msPerDay in *; lia).
    rewrite weekWindows_unfold.
    destruct (Z.ltb_spec (c + Z.of_nat k * msPerDay) (c + Z.of_nat k * msPerDay)); [lia |].
    cbn [List.length]. Z.div_mod_to_equations. lia.
  - assert (7 <= k)%nat as Hk by (unfold msPerDay in *; lia).
    replace (c + Z.of_nat k * msPerDay)
      with (c + 7 * msPerDay + Z.of_nat (k - 7) * msPerDay) by (unfold msPerDay; lia).
    rewrite (IH (k - 7)%nat) by lia.
    Z.div_mod_to_equations. lia.
Qed.

(** Between two bounds written YYYY-MM-DD, with a month from 01 to 12 and
    a day from 01 to 31 (days beyond the end of the month counting into
    the next one), [buildWeeklyBreakdown] returns one row for every seven
    days from the first bound to the second and one more for the days
    left over: for [n] days the rows are [n] / 7 rounded up, and there is
    none when the second bound is not after the first. *)
Theorem weekly_rows_of_a_range daily y1 m1 d1 y2 m2 d2 :
  0 <= y1 <= 9999 -> 1 <= m1 <= 12 -> 1 <= d1 <= 31 ->
  0 <= y2 <= 9999 -> 1 <= m2 <= 12 -> 1 <= d2 <= 31 ->
  let n := MakeDay y2 (m2 - 1) d2 - MakeDay y1 (m1 - 1) d1 in
  List.length (buildWeeklyBreakdown daily (isoDay y1 m1 d1) (isoDay y2 m2 d2))
  = Z.to_nat ((n + 6) / 7)
  /\ (buildWeeklyBreakdown daily (isoDay y1 m1 d1) (isoDay y2 m2 d2) = [] <-> n <= 0).
Proof.
  intros Hy1 Hm1 Hd1 Hy2 Hm2 Hd2 n.
  assert (List.length (buildWeeklyBreakdown daily (isoDay y1 m1 d1) (isoDay y2 m2 d2))
          = Z.to_nat ((n + 6) / 7)) as Hlen.
  { unfold buildWeeklyBreakdown. rewrite !Date_parse_day by assumption.
    rewrite length_map.
    set (first := MakeDay y1 (m1 - 1) d1) in *. set (last := MakeDay y2 (m2 - 1) d2) in *.
    destruct (Z.le_gt_cases n 0) as [Hle | Hgt].
    - rewrite weekWindows_unfold.
      destruct (Z.ltb_spec (first * msPerDay) (last * msPerDay));
        [unfold msPerDay in *; lia |].
      cbn [List.length]. Z.div_mod_to_equations. lia.
    - replace (last * msPerDay)
        with (first * msPerDay + Z.of_nat (Z.to_nat n) * msPerDay) by lia.
      rewrite weekWindows_count. now rewrite Z2Nat.id by lia. }
  split; [exact Hlen |].
  destruct (buildWeeklyBreakdown daily (isoDay y1 m1 d1) (isoDay y2 m2 d2)) as [| row rows].
  - cbn [List.length] in Hlen. split; [intros _ | reflexivity].
    destruct (Z.le_gt_cases n 0) as [Hle | Hgt]; [exact Hle | exfalso].
    revert Hlen. Z.div_mod_to_equations. lia.
  - cbn [List.length] in Hlen. split; [discriminate | intros Hle; exfalso].
    revert Hlen. Z.div_mod_to_equations. lia.
Qed.

Lemma weekly_rows_of_a_range_example :
  let n := MakeDay 2026 (2 - 1) 20 - MakeDay 2026 (1 - 1) 15 in
  List.length (buildWeeklyBreakdown [] (isoDay 2026 1 15) (isoDay 2026 2 20))
  = Z.to_nat ((n + 6) / 7)
  /\ (buildWeeklyBreakdown [] (isoDay 2026 1 15) (isoDay 2026 2 20) = [] <-> n <= 0).
Proof.
  apply (weekly_rows_of_a_range [] 2026 1 15 2026 2 20); lia.
Defined.

Lemma MonthFromTime_range t : 0 <= MonthFromTime t <= 11.
Proof. apply monthOfDayWithinYear_range. Qed.

(** Without an override the period is the one of the calendar month
    before the month of [now] in UTC: the same period as the override
    naming that month gives (years 0101 to 9999). *)
Theorem default_period_is_previous_month now :
  101 <= getUTCFullYear now <= 9999 ->
  let y := getUTCFullYear now in
  let mn := getUTCMonth now in
  buildMonthPeriod now None
  = buildMonthPeriod now
      (Some (if mn =? 0 then overrideOf (y - 1) 12 else overrideOf y mn)).
Proof.
  intros Hy y mn. pose proof (MonthFromTime_range now) as Hmn.
  fold (getUTCMonth now) mn in Hmn. fold y in Hy.
  unfold buildMonthPeriod.
  match goal with
  | |- bind ?a _ = bind ?b _ => assert (a = b) as ->; [| reflexivity]
  end.
  assert (forall py pm, 100 <= py <= 9999 -> 1 <= pm <= 12 ->
            match truthy (Some (overrideOf py pm)) with
            | Some s => parseMonthOverride s
            | None => Ok (shiftMonth (Date_UTC (getUTCFullYear now) (getUTCMonth now) 1) (-1))
            end = Ok (firstOfMonth py (pm - 1))) as P.
  { intros py pm Hpy Hpm.
    replace (truthy (Some (overrideOf py pm))) with (Some (overrideOf py pm)) by reflexivity.
    rewrite parseMonthOverride_valid by lia. now rewrite fullYear_id by lia. }
  destruct (Z.eqb_spec mn 0) as [E0 | Hne]; rewrite P by lia;
    cbn [truthy]; fold y mn;
    rewrite Date_UTC_first, fullYear_id by lia;
    rewrite Z.div_small, Z.mod_small, Z.add_0_r by lia;
    rewrite shiftMonth_first, fullYear_id by lia.
  - rewrite E0.
    replace ((0 + -1) / 12) with (-1) by reflexivity.
    replace ((0 + -1) mod 12) with 11 by reflexivity.
    replace (y + -1) with (y - 1) by lia. replace (12 - 1) with 11 by lia. reflexivity.
  - rewrite Z.div_small, Z.mod_small, Z.add_0_r by lia.
    replace (mn + -1) with (mn - 1) by lia. reflexivity.
Qed.

Lemma default_period_is_previous_month_2026 :
  buildMonthPeriod 1770000000000 None
  = buildMonthPeriod 1770000000000 (Some (overrideOf 2026 1)).
Proof.
  apply (default_period_is_previous_month 1770000000000). vm_compute. split; discriminate.
Defined.

(** ** Dates of the days of a month *)

Lemma DayWithinYear_range t :
  0 <= DayWithinYear t < DaysInYear (YearFromTime t).
Proof.
  unfold DayWithinYear, YearFromTime.
  pose proof (YearFromDay_spec (Day t)) as H. rewrite DayFromYear_succ in H. lia.
Qed.

Lemma DateFromTime_range t : 1 <= DateFromTime t <= 31.
Proof.
  unfold DateFromTime, MonthFromTime, InLeapYear.
  pose proof (DayWithinYear_range t) as H.
  destruct (Z.eqb_spec (DaysInYear (YearFromTime t)) 366) as [E | E].
  - rewrite E in H. unfold monthOfDayWithinYear.
    repeat match goal with
           | |- context [?a <? ?b] => destruct (Z.ltb_spec a b)
           end; cbv beta iota delta [monthStart]; lia.
  - pose proof (DaysInYear_range (YearFromTime t)) as [R | R]; [| lia].
    rewrite R in H. unfold monthOfDayWithinYear.
    repeat match goal with
           | |- context [?a <? ?b] => destruct (Z.ltb_spec a b)
           end; cbv beta iota delta [monthStart]; lia.
Qed.

(** The date string of a time value of the years 0000 to 9999. *)
Lemma toIsoDate_fields t :
  0 <= YearFromTime t <= 9999 ->
  toIsoDate t
  = pad4 (YearFromTime t) ++ "-" ++ pad2 (MonthFromTime t + 1) ++ "-" ++ pad2 (DateFromTime t).
Proof.
  intros Hy. unfold toIsoDate, toISOString, isoYear.
  replace ((0 <=? YearFromTime t) && (YearFromTime t <=? 9999)) with true
    by (symmetry; apply andb_true_iff; split; apply Z.leb_le; lia).
  generalize (YearFromTime t) (MonthFromTime t + 1) (DateFromTime t). intros Y M D.
  reflexivity.
Qed.

Lemma toIsoDate_inj a b :
  0 <= YearFromTime a <= 9999 -> 0 <= YearFromTime b <= 9999 ->
  toIsoDate a = toIsoDate b -> Day a = Day b.
Proof.
  intros Ha Hb E. rewrite !toIsoDate_fields in E by assumption.
  pose proof (MonthFromTime_range a) as Ma. pose proof (MonthFromTime_range b) as Mb.
  pose proof (DateFromTime_range a) as Da. pose proof (DateFromTime_range b) as Db.
  assert (YearFromTime a = YearFromTime b) as EY.
  { apply (f_equal (fun s => Number_digits (sliceTo 4 s))) in E.
    unfold pad4, pad3, pad2 in E. cbn [append sliceTo] in E.
    pose proof (Number_pad4 (YearFromTime a) Ha) as Na.
    pose proof (Number_pad4 (YearFromTime b) Hb) as Nb.
    unfold pad4, pad3, pad2 in Na, Nb. congruence. }
  assert (MonthFromTime a + 1 = MonthFromTime b + 1) as EM.
  { apply (f_equal (fun s => Number_digits (substring 5 2 s))) in E.
    unfold pad4, pad3, pad2 in E. cbn [append substring] in E.
    pose proof (Number_pad2 (MonthFromTime a + 1) ltac:(lia)) as Na.
    pose proof (Number_pad2 (MonthFromTime b + 1) ltac:(lia)) as Nb.
    unfold pad2 in Na, Nb. congruence. }
  assert (DateFromTime a = DateFromTime b) as ED.
  { apply (f_equal (fun s => Number_digits (substring 8 2 s))) in E.
    unfold pad4, pad3, pad2 in E. cbn [append substring] in E.
    pose proof (Number_pad2 (DateFromTime a) ltac:(lia)) as Na.
    pose proof (Number_pad2 (DateFromTime b) ltac:(lia)) as Nb.
    unfold pad2 in Na, Nb. congruence. }
  pose proof (MakeDay_of_time a 0) as Ea. pose proof (MakeDay_of_time b 0) as Eb.
  rewrite !Z.add_0_r in Ea, Eb.
  replace (MonthFromTime a) with (MonthFromTime b) in Ea by lia.
  rewrite EY, ED in Ea. congruence.
Qed.

Lemma toIsoDate_Day a b : Day a = Day b -> toIsoDate a = toIsoDate b.
Proof.
  intros E.
  assert (YearFromTime a = YearFromTime b) as EY by (unfold YearFromTime; now rewrite E).
  assert (MonthFromTime a = MonthFromTime b) as EM.
  { unfold MonthFromTime, InLeapYear, DayWithinYear. now rewrite EY, E. }
  assert (DateFromTime a = DateFromTime b) as ED.
  { unfold DateFromTime, InLeapYear, DayWithinYear. now rewrite EM, EY, E. }
  unfold toIsoDate, toISOString. rewrite EY, EM, ED.
  unfold isoYear.
  destruct ((0 <=? YearFromTime b) && (YearFromTime b <=? 9999));
    [| destruct (YearFromTime b <? 0)];
    unfold pad6, pad4, pad3, pad2; cbn [append sliceTo]; reflexivity.
Qed.

(** The days from the first of a month to the first of the next one lie
    in the year of the month. *)
Lemma month_days_year y m t :
  1 <= m <= 12 ->
  firstOfMonth y (m - 1) <= t < firstOfMonth (fst (nextMonth y m)) (snd (nextMonth y m) - 1) ->
  YearFromTime t = y.
Proof.
  intros Hm [Hlo Hhi]. unfold YearFromTime. apply YearFromDay_unique.
  assert (DayFromYear y <= MakeDay y (m - 1) 1) as L.
  { unfold MakeDay. rewrite Z.div_small, Z.mod_small, Z.add_0_r by lia.
    pose proof (monthStart_range (if DaysInYear y =? 366 then 1 else 0) (m - 1)
                  (leapFlag_range y) ltac:(lia)). lia. }
  assert (MakeDay (fst (nextMonth y m)) (snd (nextMonth y m) - 1) 1 <= DayFromYear (y + 1)) as U.
  { unfold nextMonth. destruct (Z.eqb_spec m 12) as [-> | Hne]; cbn [fst snd]; unfold MakeDay.
    - replace ((1 - 1) / 12) with 0 by reflexivity. replace ((1 - 1) mod 12) with 0 by reflexivity.
      rewrite !Z.add_0_r. cbv beta iota delta [monthStart]. lia.
    - rewrite Z.div_small, Z.mod_small, Z.add_0_r by lia.
      pose proof (monthStart_range (if DaysInYear y =? 366 then 1 else 0) (m + 1 - 1)
                    (leapFlag_range y) ltac:(lia)).
      rewrite DayFromYear_succ. pose proof (DaysInYear_range y).
      destruct (Z.eqb_spec (DaysInYear y) 366); lia. }
  unfold firstOfMonth, MakeDate, Day, msPerDay in *.
  split.
  - apply Z.div_le_lower_bound; lia.
  - apply Z.div_lt_upper_bound; lia.
Qed.

(** ** The daily points behind the rows *)

(** The point the loop finds for a date: the last one of that date. *)
Lemma indexByDate_get daily k :
  Map_get k (indexByDate daily) = find (fun p => String.eqb (date p) k) (rev daily).
Proof.
  unfold indexByDate. induction daily as [| x l IH] using rev_ind; [reflexivity |].
  rewrite fold_left_snoc, Map_get_set, rev_app_distr. cbn [rev app find].
  destruct (String.eqb (date x) k); [reflexivity | exact IH].
Qed.

Lemma weekRow_ext byDate byDate' w :
  (forall k, Map_get k byDate = Map_get k byDate') ->
  weekRow byDate w = weekRow byDate' w.
Proof.
  intros E. unfold weekRow.
  assert (forall days acc, fold_left (addDay byDate) days acc
                           = fold_left (addDay byDate') days acc) as ->.
  { induction days as [| d days IH]; intros acc; cbn [fold_left]; [reflexivity |].
    rewrite IH. f_equal. unfold addDay. destruct acc as [[r u] b]. now rewrite E. }
  reflexivity.
Qed.

Lemma find_app {A} (f : A -> bool) l1 l2 :
  find f (l1 ++ l2) = match find f l1 with Some x => Some x | None => find f l2 end.
Proof.
  induction l1 as [| x l1 IH]; cbn [app find]; [reflexivity |].
  destruct (f x); [reflexivity | exact IH].
Qed.

(** A point followed by another point of the same date does not count in
    the weekly rows: the map by date keeps the later one. *)
Theorem buildWeeklyBreakdown_last_point_wins pre p post later startDate endDateExclusive :
  In later post -> date later = date p ->
  buildWeeklyBreakdown (pre ++ p :: post) startDate endDateExclusive
  = buildWeeklyBreakdown (pre ++ post) startDate endDateExclusive.
Proof.
  intros Hin Hdate. unfold buildWeeklyBreakdown.
  destruct (Date_parse (startDate ++ "T00:00:00Z")) as [c |]; [| reflexivity].
  destruct (Date_parse (endDateExclusive ++ "T00:00:00Z")) as [e |]; [| reflexivity].
  apply map_ext. intros w. apply weekRow_ext. intros k.
  rewrite !indexByDate_get, !rev_app_distr. cbn [rev].
  rewrite <- app_assoc. cbn [app]. rewrite !find_app. cbn [find].
  destruct (find (fun q => String.eqb (date q) k) (rev post)) as [q |] eqn:F; [reflexivity |].
  destruct (String.eqb_spec (date p) k) as [E | _]; [| reflexivity].
  exfalso. pose proof (find_none _ _ F later ltac:(now apply -> in_rev)) as N.
  cbv beta in N. rewrite Hdate, E, String.eqb_refl in N. discriminate N.
Qed.

Lemma buildWeeklyBreakdown_last_point_wins_example :
  buildWeeklyBreakdown
    ([] ++ {| date := "2026-01-01"; requests := 1; uniques := 1; bytes := 10 |}
        :: [ {| date := "2026-01-01"; requests := 2; uniques := 2; bytes := 20 |} ])
    "2026-01-01" "2026-02-01"
  = buildWeeklyBreakdown
      ([] ++ [ {| date := "2026-01-01"; requests := 2; uniques := 2; bytes := 20 |} ])
      "2026-01-01" "2026-02-01".
Proof.
  apply (buildWeeklyBreakdown_last_point_wins []
           {| date := "2026-01-01"; requests := 1; uniques := 1; bytes := 10 |}
           [ {| date := "2026-01-01"; requests := 2; uniques := 2; bytes := 20 |} ]
           {| date := "2026-01-01"; requests := 2; uniques := 2; bytes := 20 |}).
  - left. reflexivity.
  - reflexivity.
Defined.

Lemma Zsum_one (k : string) (v : Z) ks :
  NoDup ks -> In k ks ->
  Zsum (map (fun k' => if String.eqb k k' then v else 0) ks) = v.
Proof.
  unfold Zsum. induction ks as [| a ks IH]; intros Hnd Hin; [contradiction |].
  inversion Hnd as [| ? ? Hna Hnd']; subst. cbn [map fold_right].
  destruct (String.eqb_spec k a) as [-> | Hne].
  - assert (fold_right Z.add 0 (map (fun k' => if String.eqb a k' then v else 0) ks) = 0) as ->.
    { clear IH Hnd Hnd' Hin. induction ks as [| b ks IH]; [reflexivity |].
      cbn [map fold_right]. destruct (String.eqb_spec a b) as [-> | _].
      - exfalso. apply Hna. now left.
      - rewrite IH; [reflexivity |]. intros H. apply Hna. now right. }
    lia.
  - destruct Hin as [-> | Hin]; [congruence |]. rewrite IH by assumption. lia.
Qed.

Lemma Zsum_add {A} (f g : A -> Z) l :
  Zsum (map (fun x => f x + g x) l) = Zsum (map f l) + Zsum (map g l).
Proof. unfold Zsum. induction l as [| x l IH]; cbn [map fold_right]; lia. Qed.

Lemma Zsum_map_ext {A} (f g : A -> Z) l :
  (forall x, In x l -> f x = g x) -> Zsum (map f l) = Zsum (map g l).
Proof. intros E. f_equal. apply map_ext_in. exact E. Qed.

(** Over distinct keys that hold every date, the points found by date
    are all the points, once each. *)
Lemma sum_over_keys (field : DailyTrafficPoint -> Z) ks daily :
  NoDup ks -> NoDup (map date daily) ->
  (forall p, In p daily -> In (date p) ks) ->
  Zsum (map (fun k => match Map_get k (indexByDate daily) with
                      | Some p => field p
                      | None => 0
                      end) ks)
  = Zsum (map field daily).
Proof.
  intros Hks. induction daily as [| x l IH] using rev_ind; intros Hnd Hin.
  - cbn [map]. unfold Zsum at 2. cbn [fold_right].
    clear. induction ks as [| k ks IH]; [reflexivity |].
    unfold Zsum in *. cbn [map fold_right]. rewrite IH. reflexivity.
  - rewrite map_app in Hnd. cbn [map] in Hnd.
    apply NoDup_remove in Hnd. rewrite app_nil_r in Hnd. destruct Hnd as [Hnd Hx].
    rewrite map_app, Zsum_app. cbn [map]. unfold Zsum at 3. cbn [fold_right].
    rewrite <- IH; [| exact Hnd | intros p Hp; apply Hin, in_or_app; now left].
    rewrite <- (Zsum_one (date x) (field x) ks Hks)
      by (apply Hin, in_or_app; right; now left).
    rewrite Z.add_0_r, Z.add_comm, <- Zsum_add. apply Zsum_map_ext. intros k _.
    unfold indexByDate at 1. rewrite fold_left_snoc. fold (indexByDate l).
    rewrite Map_get_set. destruct (String.eqb_spec (date x) k) as [<- | Hne]; [| lia].
    rewrite indexByDate_get.
    destruct (find (fun p => String.eqb (date p) (date x)) (rev l)) as [q |] eqn:F; [| lia].
    exfalso. apply find_some in F. destruct F as [Fin Feq].
    apply Hx. apply String.eqb_eq in Feq. rewrite <- Feq.
    apply in_map. now apply in_rev.
Qed.

Lemma Day_first_plus y mn (i : Z) (r : Z) :
  0 <= r < msPerDay ->
  Day (firstOfMonth y mn + i * msPerDay + r) = MakeDay y mn 1 + i.
Proof.
  intros Hr. unfold firstOfMonth, MakeDate, Day, msPerDay in *.
  symmetry. apply Z.div_unique with (r := r); lia.
Qed.

Lemma NoDup_map_in {A B} (f : A -> B) l :
  (forall x y, In x l -> In y l -> f x = f y -> x = y) -> NoDup l -> NoDup (map f l).
Proof.
  intros Hinj Hnd. induction Hnd as [| a l Ha Hnd IH]; cbn [map]; constructor.
  - intros H. apply in_map_iff in H. destruct H as (b & E & Hb).
    apply Ha. rewrite <- (Hinj b a); [exact Hb | now right | now left | exact E].
  - apply IH. intros x y Hx Hy. apply Hinj; now right.
Qed.

Lemma month_keys_NoDup y m (n : nat) :
  0 <= y <= 9999 -> 1 <= m <= 12 ->
  firstOfMonth (fst (nextMonth y m)) (snd (nextMonth y m) - 1)
  = firstOfMonth y (m - 1) + Z.of_nat n * msPerDay ->
  NoDup (map toIsoDate (daysFrom (firstOfMonth y (m - 1)) n)).
Proof.
  intros Hy Hm En. unfold daysFrom. rewrite map_map.
  apply NoDup_map_in; [| apply seq_NoDup].
  intros i j Hi Hj E. apply in_seq in Hi, Hj.
  apply toIsoDate_inj in E.
  - pose proof (Day_first_plus y (m - 1) (Z.of_nat i) 0 ltac:(unfold msPerDay; lia)) as Di.
    pose proof (Day_first_plus y (m - 1) (Z.of_nat j) 0 ltac:(unfold msPerDay; lia)) as Dj.
    rewrite !Z.add_0_r in Di, Dj. lia.
  - rewrite (month_days_year y m); [lia | lia |]. rewrite En. unfold msPerDay. lia.
  - rewrite (month_days_year y m); [lia | lia |]. rewrite En. unfold msPerDay. lia.
Qed.

(** Summed over the days of the month, the counts found by date are the
    counts of all the points, when no two points share a date and every
    point is dated within the month. *)
Lemma month_dayCount_total (field : DailyTrafficPoint -> Z) y m (n : nat) daily :
  0 <= y <= 9999 -> 1 <= m <= 12 ->
  firstOfMonth (fst (nextMonth y m)) (snd (nextMonth y m) - 1)
  = firstOfMonth y (m - 1) + Z.of_nat n * msPerDay ->
  NoDup (map date daily) ->
  (forall p, In p daily ->
     exists t, firstOfMonth y (m - 1) <= t
               < firstOfMonth (fst (nextMonth y m)) (snd (nextMonth y m) - 1)
               /\ date p = toIsoDate t) ->
  Zsum (map (dayCount field (indexByDate daily)) (daysFrom (firstOfMonth y (m - 1)) n))
  = Zsum (map field daily).
Proof.
  intros Hy Hm En Hnd Hin.
  rewrite <- (sum_over_keys field (map toIsoDate (daysFrom (firstOfMonth y (m - 1)) n)) daily).
  - rewrite map_map. reflexivity.
  - now apply month_keys_NoDup.
  - exact Hnd.
  - intros p Hp. destruct (Hin p Hp) as (t & [Hlo Hhi] & ->). rewrite En in Hhi.
    set (start := firstOfMonth y (m - 1)) in *.
    set (i := Z.to_nat (Day t - Day start)).
    assert (Day start = MakeDay y (m - 1) 1) as Ds.
    { pose proof (Day_first_plus y (m - 1) 0 0 ltac:(unfold msPerDay; lia)) as D.
      rewrite Z.mul_0_l, !Z.add_0_r in D. exact D. }
    assert (start = MakeDay y (m - 1) 1 * msPerDay) as Es
      by (unfold start, firstOfMonth, MakeDate; lia).
    assert (0 <= Day t - Day start < Z.of_nat n) as Ri.
    { rewrite Ds. unfold Day, msPerDay in *. split.
      - apply Z.le_0_sub, Z.div_le_lower_bound; lia.
      - apply Z.lt_sub_lt_add_l, Z.div_lt_upper_bound; lia. }
    rewrite (toIsoDate_Day t (start + Z.of_nat i * msPerDay)).
    + apply in_map. unfold daysFrom.
      apply (in_map (fun k => start + Z.of_nat k * msPerDay)). apply in_seq. lia.
    + pose proof (Day_first_plus y (m - 1) (Z.of_nat i) 0 ltac:(unfold msPerDay; lia)) as D.
      rewrite Z.add_0_r in D. fold start in D. rewrite D. lia.
Qed.

(** The rows of a month add up the counts found for its days. *)
Lemma month_rows_totals y m daily :
  0 <= y <= 9999 -> 1 <= m <= 12 -> fst (nextMonth y m) <= 9999 ->
  let start := firstOfMonth y (m - 1) in
  let stop := firstOfMonth (fst (nextMonth y m)) (snd (nextMonth y m) - 1) in
  let byDate := indexByDate daily in
  let rows :=
    buildWeeklyBreakdown daily (isoFirstDay y m)
      (isoFirstDay (fst (nextMonth y m)) (snd (nextMonth y m))) in
  exists n : nat,
    (28 <= n <= 31)%nat
    /\ stop = start + Z.of_nat n * msPerDay
    /\ Zsum (map weekRequests rows) = Zsum (map (dayCount requests byDate) (daysFrom start n))
    /\ Zsum (map weekUniques rows) = Zsum (map (dayCount uniques byDate) (daysFrom start n))
    /\ Zsum (map weekBytes rows) = Zsum (map (dayCount bytes byDate) (daysFrom start n)).
Proof.
  intros Hy Hm Hn start stop byDate rows.
  assert (0 <= fst (nextMonth y m) <= 9999 /\ 1 <= snd (nextMonth y m) <= 12) as [Hy' Hm'].
  { unfold nextMonth in *. destruct (Z.eqb_spec m 12); cbn [fst snd] in *; lia. }
  destruct (month_length y m Hm) as (n & Rn & En). fold stop start in En.
  exists n. split; [exact Rn |]. split; [exact En |].
  assert (rows = map (weekRow byDate) (weekWindows 1 start stop)) as ->.
  { subst rows. unfold buildWeeklyBreakdown. rewrite !Date_parse_first by assumption.
    reflexivity. }
  destruct (rows_totals byDate (weekWindows 1 start stop)) as (T1 & T2 & T3).
  rewrite T1, T2, T3.
  assert (List.concat (map windowDays (weekWindows 1 start stop)) = daysFrom start n) as ->.
  { unfold weekWindows. rewrite En, loopBound_days.
    apply (weekWindowsLoop_spec n n (S n) 1 start); lia. }
  repeat split; reflexivity.
Qed.

End BreakdownFacts.

(* ===================================================================== *)
(** * cloudflare.ts: requests, top paths and security groups *)
(* ===================================================================== *)

Module QueryFacts.
Import Js Types Cloudflare Samples JsFacts CloudflareFacts.
Local Open Scope string_scope.
Local Open Scope Z_scope.

(** ** Requests *)

(** [graphqlRequest] returns data exactly when the answer arrived with an
    ok status, its body parsed, it lists no error and it holds data; in
    every other case it throws. *)
Theorem graphqlRequest_ok_iff {T : Type} (exchange : Exchange T) (d : T) :
  graphqlRequest exchange = Ok d
  <-> exists status text payload,
        exchange = Answered true status text (Ok payload)
        /\ data payload = Some d
        /\ (errors payload = None \/ errors payload = Some []).
Proof.
  split.
  - destruct exchange as [e | ok status text parsed]; cbn [graphqlRequest]; [discriminate |].
    destruct ok; cbn [negb].
    2:{ destruct ((status =? 400) && _); discriminate. }
    destruct parsed as [payload | e]; cbn [bind]; [| discriminate].
    destruct (errors payload) as [[| e es] |] eqn:E; try discriminate;
      destruct (data payload) as [d' |] eqn:D; try discriminate;
      intros [= <-]; exists status, text, payload; auto.
  - intros (status & text & payload & -> & D & E). cbn [graphqlRequest negb bind].
    destruct E as [-> | ->]; now rewrite D.
Qed.

(** ** Top paths *)

(** [fetchTopPaths] gives one entry per group of the first zone of the
    answer, in the order of the answer and however many there are; no
    entry has an empty path, a missing or empty one reads "/". *)
Theorem fetchTopPaths_entries pf up zoneId startDateTime endDateTimeExclusive limit paths :
  fetchTopPaths pf up zoneId startDateTime endDateTimeExclusive limit = Ok paths ->
  exists response,
    graphqlRequest (topPathsExchange up zoneId startDateTime endDateTimeExclusive limit)
    = Ok response
    /\ List.length paths = List.length (firstZoneGroups (topPathZones response))
    /\ map pathRequests paths
       = map (fun g => toNumber pf (topPathRequests g)) (firstZoneGroups (topPathZones response))
    /\ Forall (fun p => path p <> "") paths
    /\ (forall i g, nth_error (firstZoneGroups (topPathZones response)) i = Some g ->
          (clientRequestPath g = None \/ clientRequestPath g = Some "") ->
          option_map path (nth_error paths i) = Some "/").
Proof.
  unfold fetchTopPaths.
  destruct (graphqlRequest (topPathsExchange up zoneId startDateTime endDateTimeExclusive limit))
    as [response | e]; cbn [bind]; [| discriminate].
  intros [= <-]. exists response. split; [reflexivity |].
  split; [apply length_map |]. split; [now rewrite map_map |]. split.
  - apply Forall_map, Forall_forall. intros g _. unfold toTopPath. cbn [path].
    destruct (clientRequestPath g) as [[| c s] |]; discriminate.
  - intros i g Hg Hp. rewrite nth_error_map, Hg. cbn [option_map]. unfold toTopPath. cbn [path].
    destruct Hp as [-> | ->]; reflexivity.
Qed.

Lemma fetchTopPaths_entries_example :
  exists response,
    graphqlRequest (topPathsExchange pathsUpstream "zone" "2026-01-01T00:00:00Z"
                      "2026-02-01T00:00:00Z" 5)
    = Ok response
    /\ List.length [ {| path := "/about"; pathRequests := 12 |};
                     {| path := "/"; pathRequests := 7 |};
                     {| path := "/"; pathRequests := 0 |} ]
       = List.length (firstZoneGroups (topPathZones response))
    /\ map pathRequests [ {| path := "/about"; pathRequests := 12 |};
                          {| path := "/"; pathRequests := 7 |};
                          {| path := "/"; pathRequests := 0 |} ]
       = map (fun g => toNumber samplePlatform (topPathRequests g))
           (firstZoneGroups (topPathZones response))
    /\ Forall (fun p => path p <> "")
         [ {| path := "/about"; pathRequests := 12 |};
           {| path := "/"; pathRequests := 7 |};
           {| path := "/"; pathRequests := 0 |} ]
    /\ (forall i g, nth_error (firstZoneGroups (topPathZones response)) i = Some g ->
          (clientRequestPath g = None \/ clientRequestPath g = Some "") ->
          option_map path
            (nth_error [ {| path := "/about"; pathRequests := 12 |};
                         {| path := "/"; pathRequests := 7 |};
                         {| path := "/"; pathRequests := 0 |} ] i) = Some "/").
Proof.
  apply (fetchTopPaths_entries samplePlatform pathsUpstream "zone" "2026-01-01T00:00:00Z"
           "2026-02-01T00:00:00Z" 5).
  vm_compute. reflexivity.
Defined.

(** ** Security groups *)

(** [fetchSecurityGroups] never throws.  When the first query answers,
    the groups are those of its first zone.  When it fails, every group
    returned has the source "unknown"; there is none when the failure
    says "does not have access", whatever the second query would answer,
    and none when the second query fails too. *)
Theorem fetchSecurityGroups_fallback pf up zoneId startDateTime endDateTimeExclusive :
  exists groups,
    fetchSecurityGroups pf up zoneId startDateTime endDateTimeExclusive = Ok groups
    /\ (forall full,
          graphqlRequest (securityExchange up zoneId startDateTime endDateTimeExclusive)
          = Ok full ->
          groups = map (toSecurityEventGroup pf) (firstZoneGroups (securityZones full)))
    /\ (forall primaryError,
          graphqlRequest (securityExchange up zoneId startDateTime endDateTimeExclusive)
          = Throw primaryError ->
          Forall (fun g => source g = "unknown") groups
          /\ (includes "does not have access" (errString primaryError) = true -> groups = [])
          /\ (forall e,
                graphqlRequest (actionOnlyExchange up zoneId startDateTime endDateTimeExclusive)
                = Throw e -> groups = [])
          /\ (forall actionOnly,
                includes "does not have access" (errString primaryError) = false ->
                graphqlRequest (actionOnlyExchange up zoneId startDateTime endDateTimeExclusive)
                = Ok actionOnly ->
                map action groups
                = map (fun g => orElse (actionOnlyAction g) "unknown")
                    (firstZoneGroups (actionOnlyZones actionOnly))
                /\ map count groups
                   = map (fun g => toNumber pf (actionOnlyCount g))
                       (firstZoneGroups (actionOnlyZones actionOnly)))).
Proof.
  unfold fetchSecurityGroups.
  destruct (graphqlRequest (securityExchange up zoneId startDateTime endDateTimeExclusive))
    as [full | primaryError].
  - eexists. split; [reflexivity |]. split.
    + intros full' [= <-]. reflexivity.
    + intros e' E. discriminate E.
  - destruct (includes "does not have access" (errString primaryError)) eqn:I.
    + exists []. split; [reflexivity |]. split; [intros full E; discriminate E |].
      intros e' [= <-]. rewrite I.
      split; [constructor |]. split; [reflexivity |]. split; [reflexivity |].
      intros a N. discriminate N.
    + destruct (graphqlRequest (actionOnlyExchange up zoneId startDateTime endDateTimeExclusive))
        as [actionOnly | e2].
      * eexists. split; [reflexivity |]. split; [intros full E; discriminate E |].
        intros e' [= <-]. rewrite I. split; [| split; [| split]].
        -- apply Forall_map, Forall_forall. intros g _. reflexivity.
        -- discriminate.
        -- intros e E. discriminate E.
        -- intros a _ [= <-]. rewrite !map_map. split; reflexivity.
      * exists []. split; [reflexivity |]. split; [intros full E; discriminate E |].
        intros e' [= <-].
        split; [constructor |]. split; [reflexivity |]. split; [reflexivity |].
        intros a _ E. discriminate E.
Qed.

End QueryFacts.

(* ===================================================================== *)
(** * pagespeed.ts: entries, vitals and opportunities *)
(* ===================================================================== *)

Module EntryFacts.
Import Js Types Cloudflare PageSpeed Samples JsFacts PageSpeedFacts.
Local Open Scope string_scope.
Local Open Scope Z_scope.

(** ** One entry per URL *)

Lemma probeUrl_url pf api u : url (fst (probeUrl pf api u)) = u.
Proof.
  unfold probeUrl.
  destruct (probeOrEmpty pf api u Mobile) as [mr mw].
  destruct (probeOrEmpty pf api u Desktop) as [dr dw]. reflexivity.
Qed.

Lemma probeOrEmpty_warnings pf api u strategy :
  (List.length (snd (probeOrEmpty pf api u strategy)) <= 1)%nat.
Proof.
  unfold probeOrEmpty. destruct (runPageSpeed pf api u strategy); cbn [snd List.length]; lia.
Qed.

Lemma probeUrl_warnings pf api u :
  (List.length (snd (probeUrl pf api u)) <= 2)%nat.
Proof.
  unfold probeUrl.
  pose proof (probeOrEmpty_warnings pf api u Mobile) as Hm.
  pose proof (probeOrEmpty_warnings pf api u Desktop) as Hd.
  destruct (probeOrEmpty pf api u Mobile) as [mr mw].
  destruct (probeOrEmpty pf api u Desktop) as [dr dw]. cbn [snd] in *.
  destruct (desktopSettlesFirst api u); rewrite length_app; lia.
Qed.

Lemma StronglySorted_filter {A} (R : A -> A -> Prop) (f : A -> bool) l :
  StronglySorted R l -> StronglySorted R (filter f l).
Proof.
  induction 1 as [| a l Hs IH Ha]; cbn [filter]; [constructor |].
  destruct (f a); [| exact IH]. constructor; [exact IH |].
  rewrite Forall_forall in *. intros x Hx. apply filter_In in Hx. now apply Ha.
Qed.

(** [fetchPageSpeedForUrls] returns one entry for every distinct
    non-empty URL of its input, in the order of first occurrence, whether
    the probes succeed or fail, and at most two warnings per entry. *)
Theorem fetchPageSpeedForUrls_one_entry_per_url pf api urls :
  let bundle := fetchPageSpeedForUrls pf api urls in
  map url (results bundle) = uniqueUrls urls
  /\ NoDup (map url (results bundle))
  /\ (forall u, In u (map url (results bundle)) <-> In u urls /\ u <> "")
  /\ StronglySorted (fun a b => (firstIndex a urls < firstIndex b urls)%nat)
       (map url (results bundle))
  /\ (List.length (bundleWarnings bundle) <= 2 * List.length (results bundle))%nat.
Proof.
  intros bundle. destruct (fetchPageSpeedForUrls_eq pf api urls) as [Hr Hw].
  fold bundle in Hr, Hw.
  assert (map url (results bundle) = uniqueUrls urls) as Hu.
  { rewrite Hr, map_map. rewrite <- (map_id (uniqueUrls urls)) at 2.
    apply map_ext. intros u. apply probeUrl_url. }
  destruct (Set_from_spec urls) as (Hnd & Hmem & Hs).
  split; [exact Hu |]. rewrite Hu. split; [apply uniqueUrls_NoDup |]. split; [| split].
  - intros u. unfold uniqueUrls. rewrite filter_In, Hmem.
    destruct u as [| c s]; cbn [String.length]; split; intros [H1 H2]; split; auto;
      try discriminate; try congruence.
  - unfold uniqueUrls. now apply StronglySorted_filter.
  - rewrite Hw, Hr, length_map. clear.
    induction (uniqueUrls urls) as [| u l IH]; cbn [map List.concat List.length]; [lia |].
    rewrite length_app. pose proof (probeUrl_warnings pf api u). lia.
Qed.

(** ** Vitals *)

(** [extractVitals] lists the core vitals that the audits hold, in the
    fixed order of [CORE_VITAL_IDS] whatever the order of the audits: at
    most five, no id twice, each with the display value of its audit or
    "n/a". *)
Theorem extractVitals_fixed_order table :
  let vitals := extractVitals (Some table) in
  map vitalId vitals = filter (hasAudit table) CORE_VITAL_IDS
  /\ (List.length vitals <= 5)%nat
  /\ NoDup (map vitalId vitals)
  /\ (forall v, In v vitals ->
        exists audit,
          Map_get (vitalId v) table = Some audit
          /\ vitalTitle v = orElse (auditTitle audit) (vitalId v)
          /\ displayValue v = orElse (auditDisplayValue audit) "n/a"
          /\ numericValue v = auditNumericValue audit)
  /\ extractVitals None = [].
Proof.
  intros vitals.
  assert (map vitalId vitals = filter (hasAudit table) CORE_VITAL_IDS) as Hids.
  { subst vitals. unfold extractVitals, hasAudit, CORE_VITAL_IDS. cbn [flat_map filter].
    repeat match goal with
           | |- context [Map_get ?id table] => destruct (Map_get id table)
           end; reflexivity. }
  assert (NoDup CORE_VITAL_IDS) as Hnd.
  { unfold CORE_VITAL_IDS. repeat constructor; cbn [In]; intuition discriminate. }
  split; [exact Hids |]. split; [| split; [| split]].
  - rewrite <- (length_map vitalId), Hids.
    pose proof (filter_length_le (hasAudit table) CORE_VITAL_IDS) as L.
    cbn [List.length CORE_VITAL_IDS] in L. exact L.
  - rewrite Hids. now apply NoDup_filter.
  - intros v Hv. subst vitals. unfold extractVitals in Hv.
    apply in_flat_map in Hv. destruct Hv as (id & _ & Hv).
    destruct (Map_get id table) as [audit |] eqn:G; [| contradiction].
    destruct Hv as [<- | []]. cbn [vitalId vitalTitle displayValue numericValue].
    exists audit. unfold orElse.
    destruct (auditTitle audit); destruct (auditDisplayValue audit); auto.
  - reflexivity.
Qed.

(** ** Opportunities *)

Lemma extractOpportunities_eq pf table :
  extractOpportunities pf (Some table)
  = firstn 5 (sortBy bySavingsDescending (candidateOpportunities pf table)).
Proof. reflexivity. Qed.

Lemma StronglySorted_any {A} (l : list A) : StronglySorted (fun _ _ => True) l.
Proof. induction l; constructor; auto. now apply Forall_forall. Qed.

Lemma sortBy_savings_sorted l :
  StronglySorted (fun a b => savingsMs a >= savingsMs b) (sortBy bySavingsDescending l).
Proof.
  apply (sortBy_sorted bySavingsDescending _ (fun _ _ => True)).
  - intros a b _. unfold bySavingsDescending.
    destruct (Z.leb_spec (savingsMs b - savingsMs a) 0); lia.
  - intros a b c _ _ Hab Hbc. unfold bySavingsDescending in Hab.
    apply Z.leb_le in Hab. lia.
  - apply StronglySorted_any.
Qed.

(** The first five of a list sorted by savings: sorted, a part of the
    list, and whatever is left out saves no more than any of the five. *)
Lemma top5_spec l :
  let top := firstn 5 (sortBy bySavingsDescending l) in
  (List.length top <= 5)%nat
  /\ StronglySorted (fun a b => savingsMs a >= savingsMs b) top
  /\ (forall op, In op top -> In op l)
  /\ (forall op, In op l ->
        In op top
        \/ (List.length top = 5%nat /\ forall kept, In kept top -> savingsMs kept >= savingsMs op)).
Proof.
  intros top. pose proof (sortBy_savings_sorted l) as Hs.
  pose proof (sortBy_perm bySavingsDescending l) as Hp.
  rewrite <- (firstn_skipn 5 (sortBy bySavingsDescending l)) in Hs, Hp. fold top in Hs, Hp.
  apply StronglySorted_app_inv in Hs. destruct Hs as (Hs1 & _ & Hcross).
  split; [apply firstn_le_length |]. split; [exact Hs1 |]. split.
  - intros op Hop. apply (Permutation_in _ Hp). apply in_or_app. now left.
  - intros op Hop. apply (Permutation_in _ (Permutation_sym Hp)) in Hop.
    apply in_app_or in Hop. destruct Hop as [Hop | Hop]; [now left | right].
    split.
    + subst top. rewrite length_firstn. apply Nat.min_l.
      destruct (Nat.le_gt_cases 5 (List.length (sortBy bySavingsDescending l))) as [L | L];
        [exact L |].
      rewrite skipn_all2 in Hop by lia. contradiction.
    + intros kept Hk. now apply Hcross.
Qed.

(** [extractOpportunities] keeps the five audits that save the most among
    those with positive savings, highest first; every savings figure is a
    rounded positive number, so zero at the least. *)
Theorem extractOpportunities_top_five pf table :
  let ops := extractOpportunities pf (Some table) in
  (List.length ops <= 5)%nat
  /\ StronglySorted (fun a b => savingsMs a >= savingsMs b) ops
  /\ (forall op, In op ops ->
        exists id audit savings,
          In (id, audit) table
          /\ overallSavingsMs audit = Some savings
          /\ (0 < savings)%Q
          /\ savingsMs op = Math_round savings
          /\ opportunityTitle op = orElse (auditTitle audit) "Unknown"
          /\ 0 <= savingsMs op)
  /\ (forall id audit savings,
        In (id, audit) table -> overallSavingsMs audit = Some savings -> (0 < savings)%Q ->
        (exists op, In op ops /\ savingsMs op = Math_round savings
                    /\ opportunityTitle op = orElse (auditTitle audit) "Unknown")
        \/ (List.length ops = 5%nat
            /\ forall kept, In kept ops -> savingsMs kept >= Math_round savings))
  /\ extractOpportunities pf None = [].
Proof.
  intros ops. subst ops. rewrite extractOpportunities_eq.
  destruct (top5_spec (candidateOpportunities pf table)) as (H1 & H2 & H3 & H4).
  split; [exact H1 |]. split; [exact H2 |]. split; [| split; [| reflexivity]].
  - intros op Hop. apply H3 in Hop. unfold candidateOpportunities in Hop.
    apply in_flat_map in Hop. destruct Hop as ([id audit] & Hin & Hop). cbn [snd] in Hop.
    destruct (overallSavingsMs audit) as [savings |] eqn:S; [| contradiction].
    destruct (Qle_bool savings 0) eqn:Q; cbn [negb] in Hop; [contradiction |].
    destruct Hop as [<- | []]. cbn [savingsMs opportunityTitle].
    assert (0 < savings)%Q as Hpos.
    { apply Qnot_le_lt. intros L. apply Qle_bool_iff in L. congruence. }
    exists id, audit, savings. unfold orElse.
    split; [exact Hin |]. split; [exact S |]. split; [exact Hpos |].
    split; [reflexivity |]. split; [destruct (auditTitle audit); reflexivity |].
    unfold Math_round. change 0 with (Qfloor 0). apply Qfloor_resp_le. lra.
  - intros id audit savings Hin S Hpos.
    set (op := {| opportunityTitle := orElse (auditTitle audit) "Unknown";
                  opportunityDescription :=
                    stripLinks pf (orElse (auditDescription audit) "");
                  savingsMs := Math_round savings |}).
    assert (In op (candidateOpportunities pf table)) as Hop.
    { unfold candidateOpportunities. apply in_flat_map. exists (id, audit).
      split; [exact Hin |]. cbn [snd]. rewrite S.
      assert (Qle_bool savings 0 = false) as ->.
      { apply not_true_iff_false. intros L. apply Qle_bool_iff in L. lra. }
      cbn [negb]. left. unfold op, orElse.
      destruct (auditTitle audit); destruct (auditDescription audit); reflexivity. }
    destruct (H4 op Hop) as [Hkept | [Hlen Hcut]].
    + left. exists op. auto.
    + right. split; [exact Hlen |]. exact Hcut.
Qed.

(** ** Opportunities of the two runs, merged *)

Lemma Set_add_NoDup s k : NoDup s -> NoDup (Set_add s k).
Proof.
  intros Hnd. unfold Set_add. destruct (Set_has k s) eqn:E; [exact Hnd |].
  apply NoDup_app; [exact Hnd | repeat constructor; intros [] |].
  intros x Hx [<- | []]. apply Set_has_In in Hx. congruence.
Qed.

Lemma mergeOpportunity_get opMap op k :
  Map_get k (mergeOpportunity opMap op)
  = if String.eqb (opportunityTitle op) k
    then match Map_get k opMap with
         | Some existing =>
             if savingsMs op >? savingsMs existing then Some op else Some existing
         | None => Some op
         end
    else Map_get k opMap.
Proof.
  unfold mergeOpportunity.
  destruct (String.eqb_spec (opportunityTitle op) k) as [<- | Hne].
  - destruct (Map_get (opportunityTitle op) opMap) as [existing |] eqn:G.
    + destruct (savingsMs op >? savingsMs existing).
      * now rewrite Map_get_set, String.eqb_refl.
      * exact G.
    + now rewrite Map_get_set, String.eqb_refl.
  - destruct (Map_get (opportunityTitle op) opMap) as [existing |];
      [destruct (savingsMs op >? savingsMs existing) |];
      try rewrite Map_get_set; try reflexivity;
      destruct (String.eqb_spec (opportunityTitle op) k); congruence.
Qed.

Lemma mergeOpportunity_keys opMap op :
  NoDup (map fst opMap) -> NoDup (map fst (mergeOpportunity opMap op)).
Proof.
  intros Hnd. unfold mergeOpportunity.
  destruct (Map_get (opportunityTitle op) opMap) as [existing |];
    [destruct (savingsMs op >? savingsMs existing) |];
    try exact Hnd; rewrite Map_set_keys; now apply Set_add_NoDup.
Qed.

(** After the merge: one entry per title, holding an opportunity of that
    title that saves the most among those of the title. *)
Lemma merge_spec l :
  let opMap := fold_left mergeOpportunity l [] in
  NoDup (map fst opMap)
  /\ (forall k v, Map_get k opMap = Some v ->
        opportunityTitle v = k /\ In v l
        /\ forall other, In other l -> opportunityTitle other = k ->
              savingsMs other <= savingsMs v)
  /\ (forall v, In v l -> exists w, Map_get (opportunityTitle v) opMap = Some w).
Proof.
  induction l as [| x l (Hnd & Hget & Hall)] using rev_ind.
  - cbn. split; [constructor |]. split; [discriminate | contradiction].
  - cbv zeta. rewrite fold_left_snoc.
    set (opMap := fold_left mergeOpportunity l []) in *. cbv zeta in Hnd, Hget, Hall.
    split; [now apply mergeOpportunity_keys |]. split.
    + intros k v. rewrite mergeOpportunity_get.
      destruct (String.eqb_spec (opportunityTitle x) k) as [E | Hne].
      * destruct (Map_get k opMap) as [existing |] eqn:G.
        -- destruct (Hget k existing G) as (Ht & Hin & Hmax).
           destruct (Z.gtb_spec (savingsMs x) (savingsMs existing)) as [Hgt | Hle];
             intros [= <-].
           ++ split; [exact E |]. split; [apply in_or_app; right; now left |].
              intros other Ho Hk. apply in_app_or in Ho. destruct Ho as [Ho | [<- | []]];
                [| lia]. specialize (Hmax other Ho Hk). lia.
           ++ split; [exact Ht |]. split; [apply in_or_app; now left |].
              intros other Ho Hk. apply in_app_or in Ho. destruct Ho as [Ho | [<- | []]];
                [now apply Hmax | lia].
        -- intros [= <-]. split; [exact E |]. split; [apply in_or_app; right; now left |].
           intros other Ho Hk. apply in_app_or in Ho. destruct Ho as [Ho | [<- | []]];
             [| lia]. destruct (Hall other Ho) as [w Hw]. rewrite Hk in Hw. congruence.
      * intros G. destruct (Hget k v G) as (Ht & Hin & Hmax).
        split; [exact Ht |]. split; [apply in_or_app; now left |].
        intros other Ho Hk. apply in_app_or in Ho. destruct Ho as [Ho | [<- | []]];
          [now apply Hmax | congruence].
    + intros v Hv. rewrite mergeOpportunity_get.
      destruct (String.eqb_spec (opportunityTitle x) (opportunityTitle v)) as [E | Hne].
      * destruct (Map_get (opportunityTitle v) opMap) as [existing |];
          [destruct (savingsMs x >? savingsMs existing) |]; eauto.
      * apply in_app_or in Hv. destruct Hv as [Hv | [<- | []]]; [now apply Hall | congruence].
Qed.

(** The opportunities of an entry: at most five, highest savings first,
    no title twice; each comes from one of the two runs and saves the
    most among the opportunities of its title; and an opportunity of
    either run is represented under its title by one that saves as much,
    unless five entries that save as much were kept instead. *)
Theorem merged_opportunities_best_per_title pf api u :
  let ops := opportunities (fst (probeUrl pf api u)) in
  (List.length ops <= 5)%nat
  /\ StronglySorted (fun a b => savingsMs a >= savingsMs b) ops
  /\ NoDup (map opportunityTitle ops)
  /\ (forall op, In op ops ->
        In op (bothRuns pf api u)
        /\ forall other, In other (bothRuns pf api u) ->
              opportunityTitle other = opportunityTitle op ->
              savingsMs other <= savingsMs op)
  /\ (forall op, In op (bothRuns pf api u) ->
        (exists kept, In kept ops /\ opportunityTitle kept = opportunityTitle op
                      /\ savingsMs kept >= savingsMs op)
        \/ (List.length ops = 5%nat
            /\ forall kept, In kept ops -> savingsMs kept >= savingsMs op)).
Proof.
  intros ops.
  assert (ops = firstn 5 (sortBy bySavingsDescending
                            (map snd (fold_left mergeOpportunity (bothRuns pf api u) []))))
    as ->.
  { subst ops. unfold probeUrl, bothRuns.
    destruct (probeOrEmpty pf api u Mobile) as [mr mw].
    destruct (probeOrEmpty pf api u Desktop) as [dr dw]. reflexivity. }
  destruct (merge_spec (bothRuns pf api u)) as (Hnd & Hget & Hall).
  set (opMap := fold_left mergeOpportunity (bothRuns pf api u) []) in *.
  cbv zeta in Hnd, Hget, Hall.
  destruct (top5_spec (map snd opMap)) as (H1 & H2 & H3 & H4). cbv zeta in H1, H2, H3, H4.
  assert (forall v, In v (map snd opMap) -> Map_get (opportunityTitle v) opMap = Some v) as Hval.
  { intros v Hv. apply in_map_iff in Hv. destruct Hv as ([k w] & <- & Hin). cbn [snd].
    pose proof (Map_In_get k w opMap Hnd Hin) as G.
    destruct (Hget k w G) as (-> & _). exact G. }
  assert (map opportunityTitle (map snd opMap) = map fst opMap) as Htitles.
  { rewrite map_map. apply map_ext_in. intros [k w] Hin. cbn [fst snd].
    pose proof (Map_In_get k w opMap Hnd Hin) as G. now destruct (Hget k w G). }
  split; [exact H1 |]. split; [exact H2 |]. split; [| split].
  - pose proof (sortBy_perm bySavingsDescending (map snd opMap)) as Hp.
    apply (Permutation_map opportunityTitle) in Hp.
    rewrite Htitles in Hp. apply Permutation_sym in Hp.
    pose proof (Permutation_NoDup Hp Hnd) as Hs.
    rewrite <- (firstn_skipn 5 (sortBy bySavingsDescending (map snd opMap))), map_app in Hs.
    now apply NoDup_app_remove_r in Hs.
  - intros op Hop. apply H3, Hval in Hop. destruct (Hget _ _ Hop) as (_ & Hin & Hmax).
    split; [exact Hin |]. exact Hmax.
  - intros op Hop. destruct (Hall op Hop) as [w Hw].
    destruct (Hget _ _ Hw) as (Ht & _ & Hmax).
    assert (In w (map snd opMap)) as Hwin.
    { apply in_map_iff. exists (opportunityTitle op, w). split; [reflexivity |].
      now apply Map_get_In. }
    specialize (Hmax op Hop eq_refl).
    destruct (H4 w Hwin) as [Hkept | [Hlen Hcut]].
    + left. exists w. split; [exact Hkept |]. split; [exact Ht | lia].
    + right. split; [exact Hlen |]. intros kept Hk. specialize (Hcut kept Hk). lia.
Qed.

End EntryFacts.

(* ===================================================================== *)
(** * reporting.ts: the sections of the snapshot and the run *)
(* ===================================================================== *)

Module SnapshotFacts.
Import Js Types Period Cloudflare PageSpeed Reporting Samples JsFacts PeriodFacts BreakdownFacts ReportingFacts.
Local Open Scope string_scope.
Local Open Scope Z_scope.

(** ** The two counters of the security section *)

Lemma tally_counters groups :
  tallyFirewall (tallyOf groups) = Zsum (map count (filter isFirewallAction groups))
  /\ tallyBotRateLimit (tallyOf groups) = Zsum (map count (filter isBotOrRateLimit groups)).
Proof.
  unfold tallyOf. induction groups as [| g gs [IH1 IH2]] using rev_ind; [split; reflexivity |].
  rewrite fold_left_snoc, !filter_app, !map_app, !Zsum_app. cbn [filter].
  unfold tallyGroup at 1 3. cbn [tallyFirewall tallyBotRateLimit]. rewrite IH1, IH2.
  unfold isFirewallAction, isBotOrRateLimit. split.
  - destruct (Set_has (toLowerCase (action g)) firewallActions); cbn [map]; unfold Zsum;
      cbn [fold_right]; lia.
  - destruct (includes "bot" (toLowerCase (action g)));
      destruct (includes "rate" (toLowerCase (action g)));
      destruct (includes "bot" (toLowerCase (source g)));
      destruct (includes "rate" (toLowerCase (source g)));
      cbn [orb map]; unfold Zsum; cbn [fold_right]; lia.
Qed.

Lemma Zsum_perm l l' : Permutation l l' -> Zsum l = Zsum l'.
Proof. unfold Zsum. induction 1; cbn [fold_right]; lia. Qed.

Lemma filter_perm {A} (f : A -> bool) l l' :
  Permutation l l' -> Permutation (filter f l) (filter f l').
Proof.
  induction 1 as [| x l l' Hp IH | x y l | l l' l'' H1 IH1 H2 IH2]; cbn [filter].
  - constructor.
  - destruct (f x); [now constructor | exact IH].
  - destruct (f x); destruct (f y); try apply Permutation_refl. apply perm_swap.
  - now transitivity (filter f l').
Qed.

(** The firewall counter adds the counts of the groups whose action, in
    lower case, is block, challenge, js_challenge or managed_challenge;
    the bot and rate-limit counter adds the count of every group whose
    action or source names "bot" or "rate", once even when both do.
    Neither depends on the order of the groups. *)
Theorem buildSecuritySnapshot_counters groups :
  let snapshot := buildSecuritySnapshot groups in
  totalFirewallActions snapshot = Zsum (map count (filter isFirewallAction groups))
  /\ botRateLimitActions snapshot = Zsum (map count (filter isBotOrRateLimit groups))
  /\ (forall groups', Permutation groups groups' ->
        totalFirewallActions (buildSecuritySnapshot groups') = totalFirewallActions snapshot
        /\ botRateLimitActions (buildSecuritySnapshot groups') = botRateLimitActions snapshot)
  /\ ((forall g, In g groups -> 0 <= count g) ->
        0 <= totalFirewallActions snapshot <= Zsum (map count groups)
        /\ 0 <= botRateLimitActions snapshot <= Zsum (map count groups)).
Proof.
  assert (forall gs, totalFirewallActions (buildSecuritySnapshot gs)
                     = Zsum (map count (filter isFirewallAction gs))
                     /\ botRateLimitActions (buildSecuritySnapshot gs)
                        = Zsum (map count (filter isBotOrRateLimit gs))) as H.
  { intros gs. exact (tally_counters gs). }
  intros snapshot. subst snapshot. destruct (H groups) as [H1 H2].
  split; [exact H1 |]. split; [exact H2 |]. split.
  - intros groups' Hp. destruct (H groups') as [H1' H2']. rewrite H1, H2, H1', H2'.
    split; apply Zsum_perm, Permutation_map, filter_perm, Permutation_sym, Hp.
  - intros Hpos. rewrite H1, H2.
    assert (forall f, 0 <= Zsum (map count (filter f groups)) <= Zsum (map count groups)) as B.
    { intros f. clear H H1 H2. induction groups as [| g gs IH]; [unfold Zsum; cbn; lia |].
      specialize (IH (fun x Hx => Hpos x (or_intror Hx))).
      pose proof (Hpos g (or_introl eq_refl)).
      cbn [filter]. destruct (f g); cbn [map]; unfold Zsum in *; cbn [fold_right]; lia. }
    split; apply B.
Qed.

(** ** The maintenance section *)

Lemma randomInt_range r lo hi :
  unitInterval r -> lo <= hi -> lo <= randomInt r lo hi <= hi.
Proof.
  intros [H0 H1] Hle. unfold randomInt, Math_floor.
  assert (0 <= Qfloor (r * inject_Z (hi - lo + 1)) < hi - lo + 1) as B.
  { assert (0 < inject_Z (hi - lo + 1))%Q as P.
    { change 0%Q with (inject_Z 0). rewrite <- Zlt_Qlt. lia. }
    split.
    - change 0 with (Qfloor 0). apply Qfloor_resp_le. apply Qmult_le_0_compat; lra.
    - rewrite Zlt_Qlt. apply Qle_lt_trans with (r * inject_Z (hi - lo + 1))%Q;
        [apply Qfloor_le |].
      setoid_replace (inject_Z (hi - lo + 1)) with (1 * inject_Z (hi - lo + 1))%Q at 2 by ring.
      apply Qmult_lt_compat_r; assumption. }
  lia.
Qed.

Lemma padStart2_day d :
  1 <= d <= 28 -> padStart2 (numberToString d) = pad2 d.
Proof.
  intros Hd.
  assert (d = 1 \/ d = 2 \/ d = 3 \/ d = 4 \/ d = 5 \/ d = 6 \/ d = 7 \/ d = 8 \/ d = 9
          \/ d = 10 \/ d = 11 \/ d = 12 \/ d = 13 \/ d = 14 \/ d = 15 \/ d = 16 \/ d = 17
          \/ d = 18 \/ d = 19 \/ d = 20 \/ d = 21 \/ d = 22 \/ d = 23 \/ d = 24 \/ d = 25
          \/ d = 26 \/ d = 27 \/ d = 28) as C by lia.
  repeat destruct C as [C | C]; subst d; reflexivity.
Qed.

(** With draws from 0 up to 1, the maintenance section shows 18 to 35
    plugins, of which 3 to 15 updated, never more than there are; a backup
    at 03:00 on a day from the 1st to the 28th of the report month; and an
    uptime from 99.5 to 99.99 percent. *)
Theorem buildWordPressSnapshot_bounds random monthKey :
  (forall n, unitInterval (random n)) ->
  let wp := buildWordPressSnapshot random monthKey in
  18 <= totalPlugins wp <= 35
  /\ 3 <= pluginsUpdated wp <= 15
  /\ pluginsUpdated wp <= totalPlugins wp
  /\ (exists day, 1 <= day <= 28
                  /\ lastBackup wp = monthKey ++ "-" ++ pad2 day ++ "T03:00:00Z")
  /\ (995 # 10 <= uptimePercent wp)%Q /\ (uptimePercent wp <= 9999 # 100)%Q.
Proof.
  intros Hr wp. subst wp. unfold buildWordPressSnapshot.
  cbn [totalPlugins pluginsUpdated lastBackup uptimePercent].
  pose proof (randomInt_range (random 0%nat) 18 35 (Hr _) ltac:(lia)) as T.
  assert (Z.min (randomInt (random 0%nat) 18 35) 15 = 15) as M by lia. rewrite M.
  pose proof (randomInt_range (random 1%nat) 3 15 (Hr _) ltac:(lia)) as U.
  pose proof (randomInt_range (random 2%nat) 1 28 (Hr _) ltac:(lia)) as D.
  split; [exact T |]. split; [exact U |]. split; [lia |]. split.
  - exists (randomInt (random 2%nat) 1 28). split; [exact D |].
    now rewrite padStart2_day.
  - destruct (Hr 3%nat) as [R0 R1]. unfold toFixed2. rewrite !Qred_correct.
    set (x := ((995 # 10) + random 3%nat * (49 # 100))%Q).
    assert (9950 <= Qfloor (x * 100 + (1 # 2)) <= 9999) as F.
    { split.
      - change 9950 with (Qfloor (inject_Z 9950)) at 1. apply Qfloor_resp_le.
        unfold x. change (inject_Z 9950) with (9950 # 1)%Q. lra.
      - apply Z.lt_succ_r. rewrite Zlt_Qlt.
        apply Qle_lt_trans with (x * 100 + (1 # 2))%Q; [apply Qfloor_le |].
        unfold x. change (inject_Z (Z.succ 9999)) with (10000 # 1)%Q. lra. }
    destruct F as [F1 F2]. rewrite Zle_Qle in F1, F2.
    change (inject_Z 9950) with (9950 # 1)%Q in F1.
    change (inject_Z 9999) with (9999 # 1)%Q in F2.
    set (q := inject_Z (Qfloor (x * 100 + (1 # 2)))) in *. clearbody q. clear x.
    split; [apply Qle_shift_div_l | apply Qle_shift_div_r]; lra.
Qed.

Lemma buildWordPressSnapshot_bounds_example :
  let wp := buildWordPressSnapshot (fun _ => (1 # 2)%Q) "2026-01" in
  18 <= totalPlugins wp <= 35
  /\ 3 <= pluginsUpdated wp <= 15
  /\ pluginsUpdated wp <= totalPlugins wp
  /\ (exists day, 1 <= day <= 28
                  /\ lastBackup wp = "2026-01" ++ "-" ++ pad2 day ++ "T03:00:00Z")
  /\ (995 # 10 <= uptimePercent wp)%Q /\ (uptimePercent wp <= 9999 # 100)%Q.
Proof.
  apply (buildWordPressSnapshot_bounds (fun _ => (1 # 2)%Q) "2026-01").
  intros n. split; [discriminate | reflexivity].
Defined.

(** ** Warnings *)

Lemma sliceTo_spec n s :
  String.length (sliceTo n s) = Nat.min n (String.length s)
  /\ prefix (sliceTo n s) s = true
  /\ ((String.length s <= n)%nat -> sliceTo n s = s).
Proof.
  revert s. induction n as [| n IH]; intros s.
  - cbn [sliceTo]. split; [reflexivity |]. split; [now destruct s |].
    destruct s; cbn [String.length]; [reflexivity | lia].
  - destruct s as [| c s]; cbn [sliceTo String.length prefix].
    + repeat split; reflexivity.
    + destruct (IH s) as (L & P & E). rewrite L, P.
      split; [reflexivity |]. split; [now destruct (Ascii.ascii_dec c c) |].
      intros H. rewrite E by lia. reflexivity.
Qed.

(** The snapshot carries one warning per warning collected, in the same
    order: its first 450 characters, the whole of it when it is no longer
    than that. *)
Theorem snapshot_warnings_capped cfg tz period label agg clock rnd :
  let out := warnings (assembleSnapshot cfg tz period label agg clock rnd) in
  List.length out = List.length (aggWarnings agg)
  /\ Forall (fun w => (String.length w <= 450)%nat) out
  /\ (forall i w, nth_error (aggWarnings agg) i = Some w ->
        exists w', nth_error out i = Some w'
                   /\ prefix w' w = true
                   /\ String.length w' = Nat.min 450 (String.length w)
                   /\ ((String.length w <= 450)%nat -> w' = w)).
Proof.
  intros out. subst out. unfold assembleSnapshot. cbn [warnings]. unfold normalizeWarnings.
  split; [apply length_map |]. split.
  - apply Forall_map, Forall_forall. intros w _.
    destruct (sliceTo_spec 450 w) as (L & _). rewrite L. apply Nat.le_min_l.
  - intros i w Hw. rewrite nth_error_map, Hw. cbn [option_map].
    exists (sliceTo 450 w). destruct (sliceTo_spec 450 w) as (L & P & E). auto.
Qed.

(** ** What ends a run and what does not *)

Lemma safeFetchTopPaths_total pf cfg up period :
  exists paths pushed, safeFetchTopPaths pf cfg up period = (paths, pushed).
Proof. destruct (safeFetchTopPaths pf cfg up period); eauto. Qed.

(** A run ends without a snapshot exactly when the period cannot be built,
    one of the two traffic queries fails or the month label cannot be
    formatted; a failure of the top-paths query, of the security queries
    or of a PageSpeed probe never ends it.  A failing traffic query of the
    report month, the other one answering, ends the run with its own
    error, and so does a failing query of the month before. *)
Theorem run_fails_only_on_period_traffic_or_label pf cfg env w monthOverride :
  ((exists e, generateMonthlySnapshot pf cfg env w monthOverride = Throw e)
   <-> (exists e, buildMonthPeriod (now w) monthOverride = Throw e)
       \/ (exists period,
             buildMonthPeriod (now w) monthOverride = Ok period
             /\ ((exists e, fetchTrafficDaily pf (upstream w) (siteZoneId cfg)
                              (startDate period) (endDateExclusive period) = Throw e)
                 \/ (exists e, fetchTrafficDaily pf (upstream w) (siteZoneId cfg)
                                 (prevStartDate period) (prevEndDateExclusive period) = Throw e)
                 \/ (exists e, formatMonthLabel pf (monthKey period) (timezoneOf env)
                               = Throw e))))
  /\ (forall period e points,
        buildMonthPeriod (now w) monthOverride = Ok period ->
        fetchTrafficDaily pf (upstream w) (siteZoneId cfg)
          (startDate period) (endDateExclusive period) = Throw e ->
        fetchTrafficDaily pf (upstream w) (siteZoneId cfg)
          (prevStartDate period) (prevEndDateExclusive period) = Ok points ->
        generateMonthlySnapshot pf cfg env w monthOverride = Throw e)
  /\ (forall period e points,
        buildMonthPeriod (now w) monthOverride = Ok period ->
        fetchTrafficDaily pf (upstream w) (siteZoneId cfg)
          (startDate period) (endDateExclusive period) = Ok points ->
        fetchTrafficDaily pf (upstream w) (siteZoneId cfg)
          (prevStartDate period) (prevEndDateExclusive period) = Throw e ->
        generateMonthlySnapshot pf cfg env w monthOverride = Throw e).
Proof.
  unfold generateMonthlySnapshot.
  destruct (buildMonthPeriod (now w) monthOverride) as [period | e0]; cbn [bind].
  2:{ split; [| split].
      - split; [intros _; left; eauto | intros _; eauto].
      - intros period e points H. discriminate H.
      - intros period e points H. discriminate H. }
  rewrite aggregate_unfold.
  destruct (fetchTrafficDaily pf (upstream w) (siteZoneId cfg) (startDate period)
              (endDateExclusive period)) as [cur | e1] eqn:Hcur; cbn [bind].
  2:{ split; [| split].
      - split; [| intros _; eauto].
        intros _. right. exists period. split; [reflexivity |]. left. eauto.
      - intros p e points [= <-] H _. congruence.
      - intros p e points [= <-] H. congruence. }
  destruct (fetchTrafficDaily pf (upstream w) (siteZoneId cfg) (prevStartDate period)
              (prevEndDateExclusive period)) as [prev | e2] eqn:Hprev; cbn [bind].
  2:{ split; [| split].
      - split; [| intros _; eauto].
        intros _. right. exists period. split; [reflexivity |]. right. left. eauto.
      - intros p e points [= <-] H. congruence.
      - intros p e points [= <-] _ H. congruence. }
  destruct (formatMonthLabel pf (monthKey period) (timezoneOf env)) as [label | e3] eqn:Hlabel;
    cbn [bind].
  - split; [| split].
    + split.
      * intros [e H]. discriminate H.
      * intros [[e H] | (p & [= <-] & [[e H] | [[e H] | [e H]]])]; congruence.
    + intros p e points [= <-] H. congruence.
    + intros p e points [= <-] _ H. congruence.
  - split; [| split].
    + split; [| intros _; eauto].
      intros _. right. exists period. split; [reflexivity |]. right. right. eauto.
    + intros p e points [= <-] H. congruence.
    + intros p e points [= <-] _ H. congruence.
Qed.

(** When the top-paths query fails and the run reaches its snapshot, the
    snapshot lists no top path and its first warning says so: the first
    450 characters of "Top paths unavailable: " and the error. *)
Theorem top_paths_failure_is_reported pf cfg env w monthOverride period e snapshot :
  buildMonthPeriod (now w) monthOverride = Ok period ->
  fetchTopPaths pf (upstream w) (siteZoneId cfg)
    (startDateTime period) (endDateTimeExclusive period) 5 = Throw e ->
  generateMonthlySnapshot pf cfg env w monthOverride = Ok snapshot ->
  topPaths (traffic snapshot) = []
  /\ warnings snapshot
     = sliceTo 450 ("Top paths unavailable: " ++ errString e)
         :: normalizeWarnings
              (bundleWarnings
                 (fetchPageSpeedForUrls pf (pageSpeedApi w) (pagespeedUrls cfg))).
Proof.
  intros Hp Hpaths. unfold generateMonthlySnapshot. rewrite Hp. cbn [bind].
  rewrite aggregate_unfold.
  destruct (fetchTrafficDaily pf (upstream w) (siteZoneId cfg) (startDate period)
              (endDateExclusive period)) as [cur | e1]; cbn [bind]; [| discriminate].
  destruct (fetchTrafficDaily pf (upstream w) (siteZoneId cfg) (prevStartDate period)
              (prevEndDateExclusive period)) as [prev | e2]; cbn [bind]; [| discriminate].
  destruct (formatMonthLabel pf (monthKey period) (timezoneOf env)) as [label | e3];
    cbn [bind]; [| discriminate].
  intros H. apply (f_equal (fun r => match r with Ok v => v | Throw _ => snapshot end)) in H.
  cbv beta iota in H. subst snapshot.
  unfold assembleSnapshot. cbn [traffic topPaths warnings aggTopPaths aggWarnings].
  unfold safeFetchTopPaths. rewrite Hpaths. cbn [fst snd app normalizeWarnings map].
  split; reflexivity.
Qed.

Lemma noPaths_run :
  generateMonthlySnapshot samplePlatform SITE_CONFIG sampleEnv noPathsWorld (Some "2026-01")
  = Ok noPathsSnapshot.
Proof. vm_compute. reflexivity. Qed.

Lemma top_paths_failure_january_2026 :
  topPaths (traffic noPathsSnapshot) = []
  /\ warnings noPathsSnapshot
     = sliceTo 450
         ("Top paths unavailable: "
            ++ errString (newError "Cloudflare GraphQL request failed (500): backend error"))
         :: normalizeWarnings
              (bundleWarnings
                 (fetchPageSpeedForUrls samplePlatform (pageSpeedApi noPathsWorld)
                    (pagespeedUrls SITE_CONFIG))).
Proof.
  apply (top_paths_failure_is_reported samplePlatform SITE_CONFIG sampleEnv noPathsWorld
           (Some "2026-01") samplePeriod).
  - vm_compute. reflexivity.
  - vm_compute. reflexivity.
  - exact noPaths_run.
Defined.

(** ** Totals *)

Lemma sumTraffic_totals daily :
  totalRequests (sumTraffic daily) = Zsum (map requests daily)
  /\ totalUniques (sumTraffic daily) = Zsum (map uniques daily)
  /\ totalBytes (sumTraffic daily) = Zsum (map bytes daily).
Proof.
  unfold sumTraffic. induction daily as [| x l (IH1 & IH2 & IH3)] using rev_ind.
  - repeat split; reflexivity.
  - rewrite fold_left_snoc, !map_app, !Zsum_app.
    cbn [totalRequests totalUniques totalBytes map]. rewrite IH1, IH2, IH3.
    unfold Zsum. cbn [fold_right]. repeat split; lia.
Qed.

(** In the snapshot of a month of the years 0100 to 9999, the weekly rows
    add up to the month's totals when no two daily points share a date
    and every point is dated within the month. *)
Theorem snapshot_weeks_add_up_to_month now y m period cfg tz label agg clock rnd :
  100 <= y <= 9999 -> 1 <= m <= 12 -> fst (nextMonth y m) <= 9999 ->
  buildMonthPeriod now (Some (overrideOf y m)) = Ok period ->
  NoDup (map date (currentDaily agg)) ->
  (forall p, In p (currentDaily agg) ->
     exists t, firstOfMonth y (m - 1) <= t
               < firstOfMonth (fst (nextMonth y m)) (snd (nextMonth y m) - 1)
               /\ date p = toIsoDate t) ->
  let section := traffic (assembleSnapshot cfg tz period label agg clock rnd) in
  Zsum (map weekRequests (weeklyBreakdown section)) = current (trafficRequests section)
  /\ Zsum (map weekUniques (weeklyBreakdown section)) = current (uniqueVisitors section)
  /\ Zsum (map weekBytes (weeklyBreakdown section)) = current (bandwidth section).
Proof.
  intros Hy Hm Hn Hp Hnd Hin section. subst section.
  destruct (period_bounds now y m Hy Hm Hn) as (p & Hp' & Sp & Ep).
  assert (p = period) as -> by congruence.
  unfold assembleSnapshot.
  cbn [traffic weeklyBreakdown trafficRequests uniqueVisitors bandwidth].
  unfold withDelta. cbn [current].
  rewrite Sp, Ep.
  destruct (month_rows_totals y m (currentDaily agg) ltac:(lia) Hm Hn)
    as (n & Rn & En & T1 & T2 & T3).
  destruct (sumTraffic_totals (currentDaily agg)) as (S1 & S2 & S3).
  rewrite T1, T2, T3, S1, S2, S3.
  repeat split; apply (month_dayCount_total _ y m n); auto; lia.
Qed.

Lemma snapshot_weeks_add_up_january_2026 :
  let section :=
    traffic (assembleSnapshot SITE_CONFIG "UTC" samplePeriod "January 2026"
               sampleAggregation 0 (fun _ => 0%Q)) in
  Zsum (map weekRequests (weeklyBreakdown section)) = current (trafficRequests section)
  /\ Zsum (map weekUniques (weeklyBreakdown section)) = current (uniqueVisitors section)
  /\ Zsum (map weekBytes (weeklyBreakdown section)) = current (bandwidth section).
Proof.
  apply (snapshot_weeks_add_up_to_month 0 2026 1 samplePeriod SITE_CONFIG "UTC"
           "January 2026" sampleAggregation 0 (fun _ => 0%Q)).
  - lia.
  - lia.
  - cbn. lia.
  - vm_compute. reflexivity.
  - cbn. repeat constructor; cbn; intuition discriminate.
  - intros p [<- | [<- | []]].
    + exists (firstOfMonth 2026 0). split; [vm_compute; intuition discriminate | reflexivity].
    + exists (firstOfMonth 2026 0 + msPerDay).
      split; [vm_compute; intuition discriminate | reflexivity].
Defined.

End SnapshotFacts.

(* ===================================================================== *)
(** * template.ts: escaping, byte counts and marks *)
(* ===================================================================== *)

Module TemplateFacts.
Import Js Types Reporting Template JsFacts.
Local Open Scope string_scope.
Local Open Scope Z_scope.

(** ** Escaping *)

Lemma string_app_assoc (a b c : string) : (a ++ b) ++ c = a ++ b ++ c.
Proof. induction a as [| x a IH]; cbn [append]; [reflexivity | now rewrite IH]. Qed.

Lemma replaceAll_app c rep a b :
  replaceAll c rep (a ++ b) = replaceAll c rep a ++ replaceAll c rep b.
Proof.
  induction a as [| x a IH]; cbn [append replaceAll]; [reflexivity |].
  destruct (Ascii.eqb x c); rewrite IH; [| reflexivity].
  now rewrite string_app_assoc.
Qed.

Lemma esc_app a b : esc (a ++ b) = esc a ++ esc b.
Proof. unfold esc. now rewrite !replaceAll_app. Qed.

Lemma esc_char c : esc (String c EmptyString) = escapeChar c.
Proof.
  unfold escapeChar.
  destruct (Ascii.eqb_spec c "&") as [-> | N1]; [reflexivity |].
  destruct (Ascii.eqb_spec c "<") as [-> | N2]; [reflexivity |].
  destruct (Ascii.eqb_spec c ">") as [-> | N3]; [reflexivity |].
  destruct (Ascii.eqb_spec c quoteChar) as [-> | N4]; [reflexivity |].
  destruct (Ascii.eqb_spec c "'") as [-> | N5]; [reflexivity |].
  unfold esc. cbn [replaceAll].
  rewrite (proj2 (Ascii.eqb_neq c "&") N1). cbn [replaceAll].
  rewrite (proj2 (Ascii.eqb_neq c "<") N2). cbn [replaceAll].
  rewrite (proj2 (Ascii.eqb_neq c ">") N3). cbn [replaceAll].
  rewrite (proj2 (Ascii.eqb_neq c quoteChar) N4). cbn [replaceAll].
  rewrite (proj2 (Ascii.eqb_neq c "'") N5). reflexivity.
Qed.

(** The five replacements in a row amount to one pass over the
    characters. *)
Lemma esc_one_pass s : esc s = escapeEach s.
Proof.
  induction s as [| c s IH]; [reflexivity |].
  change (String c s) with (String c EmptyString ++ s).
  rewrite esc_app, esc_char, IH. reflexivity.
Qed.

Lemma forallChars_app f a b :
  forallChars f (a ++ b) = forallChars f a && forallChars f b.
Proof.
  induction a as [| c a IH]; cbn [append forallChars]; [reflexivity |].
  now rewrite IH, andb_assoc.
Qed.

Lemma escapeChar_clean c : forallChars (fun x => negb (isMarkup x)) (escapeChar c) = true.
Proof.
  unfold escapeChar.
  destruct (Ascii.eqb_spec c "&"); [reflexivity |].
  destruct (Ascii.eqb_spec c "<") as [| N2]; [reflexivity |].
  destruct (Ascii.eqb_spec c ">") as [| N3]; [reflexivity |].
  destruct (Ascii.eqb_spec c quoteChar) as [| N4]; [reflexivity |].
  destruct (Ascii.eqb_spec c "'") as [| N5]; [reflexivity |].
  cbn [forallChars]. unfold isMarkup.
  rewrite (proj2 (Ascii.eqb_neq c "<") N2), (proj2 (Ascii.eqb_neq c ">") N3),
    (proj2 (Ascii.eqb_neq c quoteChar) N4), (proj2 (Ascii.eqb_neq c "'") N5).
  reflexivity.
Qed.

(** What [esc] returns holds none of the characters <, >, double quote
    and apostrophe; [esc] works character by character, so the escape of
    a concatenation is the concatenation of the escapes; and a text that
    holds none of the five special characters is returned as it is. *)
Theorem esc_neutralises_markup s :
  forallChars (fun c => negb (isMarkup c)) (esc s) = true
  /\ (forall t, esc (s ++ t) = esc s ++ esc t)
  /\ (forallChars (fun c => negb (isSpecial c)) s = true -> esc s = s).
Proof.
  split; [| split].
  - rewrite esc_one_pass. induction s as [| c s IH]; [reflexivity |].
    cbn [escapeEach]. now rewrite forallChars_app, escapeChar_clean, IH.
  - intros t. apply esc_app.
  - rewrite esc_one_pass. induction s as [| c s IH]; [reflexivity |].
    cbn [forallChars escapeEach]. intros H. apply andb_true_iff in H. destruct H as [Hc Hs].
    rewrite IH by exact Hs. unfold isSpecial, isMarkup in Hc. unfold escapeChar.
    destruct (Ascii.eqb c "&"), (Ascii.eqb c "<"), (Ascii.eqb c ">"),
      (Ascii.eqb c quoteChar), (Ascii.eqb c "'"); cbn in Hc; try discriminate Hc; reflexivity.
Qed.

Lemma escapeChar_cases c :
  (c = "&"%char /\ escapeChar c = "&amp;")
  \/ (c = "<"%char /\ escapeChar c = "&lt;")
  \/ (c = ">"%char /\ escapeChar c = "&gt;")
  \/ (c = quoteChar /\ escapeChar c = "&quot;")
  \/ (c = "'"%char /\ escapeChar c = "&#39;")
  \/ (c <> "&"%char /\ escapeChar c = String c EmptyString).
Proof.
  unfold escapeChar.
  destruct (Ascii.eqb_spec c "&"); [auto |].
  destruct (Ascii.eqb_spec c "<"); [auto |].
  destruct (Ascii.eqb_spec c ">"); [auto 6 |].
  destruct (Ascii.eqb_spec c quoteChar); [auto 6 |].
  destruct (Ascii.eqb_spec c "'"); [auto 7 |].
  auto 8.
Qed.

Lemma escapeChar_step c1 c2 r1 r2 :
  escapeChar c1 ++ r1 = escapeChar c2 ++ r2 -> c1 = c2 /\ r1 = r2.
Proof.
  destruct (escapeChar_cases c1) as [[E1 ->] | [[E1 ->] | [[E1 ->] | [[E1 ->] | [[E1 ->] | [E1 ->]]]]]];
  destruct (escapeChar_cases c2) as [[E2 ->] | [[E2 ->] | [[E2 ->] | [[E2 ->] | [[E2 ->] | [E2 ->]]]]]];
    cbn [append]; intros H; try discriminate H;
    try (injection H as H; subst; split; congruence);
    try (injection H as Hc Hr; congruence).
Qed.

(** [esc] loses nothing: two texts have the same escape only when they
    are the same text. *)
Theorem esc_injective s t : esc s = esc t <-> s = t.
Proof.
  split; [| now intros ->].
  rewrite !esc_one_pass. revert t.
  induction s as [| c s IH]; intros [| d t]; cbn [escapeEach]; intros H.
  - reflexivity.
  - exfalso. destruct (escapeChar_cases d) as [[_ E] | [[_ E] | [[_ E] | [[_ E] | [[_ E] | [_ E]]]]]];
      rewrite E in H; discriminate H.
  - exfalso. destruct (escapeChar_cases c) as [[_ E] | [[_ E] | [[_ E] | [[_ E] | [[_ E] | [_ E]]]]]];
      rewrite E in H; discriminate H.
  - apply escapeChar_step in H. destruct H as [-> H]. f_equal. now apply IH.
Qed.

(** ** Byte counts *)

Lemma Qle_bool_ext a x y : (x == y)%Q -> Qle_bool a x = Qle_bool a y.
Proof.
  intros E. destruct (Qle_bool a y) eqn:Y.
  - apply Qle_bool_iff. apply Qle_bool_iff in Y. now rewrite E.
  - apply not_true_iff_false. intros X. apply Qle_bool_iff in X. rewrite E in X.
    apply Qle_bool_iff in X. congruence.
Qed.

Lemma Qle_bool_ext_l x y b : (x == y)%Q -> Qle_bool x b = Qle_bool y b.
Proof.
  intros E. destruct (Qle_bool y b) eqn:Y.
  - apply Qle_bool_iff. apply Qle_bool_iff in Y. now rewrite E.
  - apply not_true_iff_false. intros X. apply Qle_bool_iff in X. rewrite E in X.
    apply Qle_bool_iff in X. congruence.
Qed.

Lemma toFixed_ext digits x y : (x == y)%Q -> toFixed digits x = toFixed digits y.
Proof.
  intros E. unfold toFixed.
  rewrite (Qle_bool_ext 0 x y E).
  assert (Qfloor (Qabs x * inject_Z (10 ^ Z.of_nat digits) + (1 # 2))
          = Qfloor (Qabs y * inject_Z (10 ^ Z.of_nat digits) + (1 # 2))) as ->
    by (apply Qfloor_comp; now rewrite E).
  reflexivity.
Qed.

Lemma atLeast1024 b d v :
  0 < d -> (v == inject_Z b / inject_Z d)%Q ->
  Qle_bool 1024 v = (1024 * d <=? b)
  /\ (v / 1024 == inject_Z b / inject_Z (1024 * d))%Q.
Proof.
  intros Hd E.
  assert (0 < inject_Z d)%Q as Pd by (change 0%Q with (inject_Z 0); now rewrite <- Zlt_Qlt).
  split.
  - rewrite (Qle_bool_ext _ _ _ E).
    destruct (Z.leb_spec (1024 * d) b) as [L | L].
    + apply Qle_bool_iff. apply Qle_shift_div_l; [exact Pd |].
      change 1024%Q with (inject_Z 1024). rewrite <- inject_Z_mult, <- Zle_Qle. exact L.
    + apply not_true_iff_false. intros X. apply Qle_bool_iff in X.
      apply (Qmult_le_compat_r _ _ (inject_Z d)) in X; [| now apply Qlt_le_weak].
      assert (inject_Z b / inject_Z d * inject_Z d == inject_Z b)%Q as F
        by (field; intros Z0; rewrite Z0 in Pd; now apply Qlt_irrefl in Pd).
      rewrite F in X. change 1024%Q with (inject_Z 1024) in X.
      rewrite <- inject_Z_mult, <- Zle_Qle in X. lia.
  - rewrite E, inject_Z_mult. change (inject_Z 1024) with 1024%Q.
    field. intros Z0. rewrite Z0 in Pd. now apply Qlt_irrefl in Pd.
Qed.

Lemma unitIndex_of b (i : nat) :
  (i <= 4)%nat -> (i = 0%nat \/ 1024 ^ Z.of_nat i <= b) ->
  (i = 4%nat \/ b < 1024 * 1024 ^ Z.of_nat i) -> unitIndex b = i.
Proof.
  intros Hi Hlo Hhi. unfold unitIndex.
  destruct i as [| [| [| [| [| i]]]]]; [| | | | | lia];
    cbn in Hlo, Hhi;
    repeat match goal with
           | |- context [?a <? ?b] => destruct (Z.ltb_spec a b)
           end; try reflexivity; cbn in *; lia.
Qed.

(** The loop stops at the unit of the value, with the value counted in
    that unit. *)
Lemma scaleLoop_unit b : forall fuel (i : nat) v,
  (fuel + i = 4)%nat ->
  (v == inject_Z b / inject_Z (1024 ^ Z.of_nat i))%Q ->
  (i = 0%nat \/ 1024 ^ Z.of_nat i <= b) ->
  exists v',
    scaleLoop fuel v i = (v', unitIndex b)
    /\ (v' == inject_Z b / inject_Z (1024 ^ Z.of_nat (unitIndex b)))%Q.
Proof.
  induction fuel as [| fuel IH]; intros i v Hf E Hlo; cbn [scaleLoop].
  - assert (i = 4%nat) as -> by lia.
    rewrite (unitIndex_of b 4); [| lia | destruct Hlo; [lia | now right] | now left].
    exists v. split; [reflexivity | exact E].
  - assert (0 < 1024 ^ Z.of_nat i) as Pd by (apply Z.pow_pos_nonneg; lia).
    destruct (atLeast1024 b _ v Pd E) as [C N]. rewrite C.
    assert ((i <? List.length units - 1)%nat = true) as -> by (apply Nat.ltb_lt; cbn; lia).
    rewrite andb_true_r.
    assert (1024 * 1024 ^ Z.of_nat i = 1024 ^ Z.of_nat (S i)) as P
      by (rewrite Nat2Z.inj_succ, Z.pow_succ_r by lia; reflexivity).
    destruct (Z.leb_spec (1024 * 1024 ^ Z.of_nat i) b) as [L | L].
    + apply IH; [lia | now rewrite <- P | right; now rewrite <- P].
    + rewrite (unitIndex_of b i); [| lia | exact Hlo | now right].
      exists v. split; [reflexivity | exact E].
Qed.

Lemma Qfloor_half z : Qfloor (inject_Z z + (1 # 2)) = z.
Proof.
  apply Z.le_antisymm.
  - apply Z.lt_succ_r. rewrite Zlt_Qlt.
    apply Qle_lt_trans with (inject_Z z + (1 # 2))%Q; [apply Qfloor_le |].
    unfold Z.succ. rewrite inject_Z_plus. change (inject_Z 1) with 1%Q. lra.
  - rewrite <- (Qfloor_Z z) at 1. apply Qfloor_resp_le. lra.
Qed.

Lemma Qfloor_between x n :
  (inject_Z n <= x)%Q -> (x < inject_Z (n + 1))%Q -> Qfloor x = n.
Proof.
  intros Lo Hi. apply Z.le_antisymm.
  - apply Z.lt_succ_r. rewrite Zlt_Qlt.
    apply Qle_lt_trans with x; [apply Qfloor_le | exact Hi].
  - rewrite <- (Qfloor_Z n). now apply Qfloor_resp_le.
Qed.

Lemma Qabs_inject_nonneg z : 0 <= z -> (Qabs (inject_Z z) == inject_Z z)%Q.
Proof.
  intros H. apply Qabs_pos. change 0%Q with (inject_Z 0). now rewrite <- Zle_Qle.
Qed.

(** [toFixed] of a whole number that is not negative. *)
Lemma toFixed_whole z :
  0 <= z ->
  toFixed 0 (inject_Z z) = numberToString z
  /\ toFixed 1 (inject_Z z) = numberToString z ++ ".0".
Proof.
  intros Hz.
  assert (Qle_bool 0 (inject_Z z) = true) as S.
  { apply Qle_bool_iff. change 0%Q with (inject_Z 0). now rewrite <- Zle_Qle. }
  unfold toFixed. rewrite S. cbn [append].
  change (Z.of_nat 0) with 0. change (Z.of_nat 1) with 1.
  split.
  - assert (Qfloor (Qabs (inject_Z z) * inject_Z (10 ^ 0) + (1 # 2)) = z) as ->.
    { transitivity (Qfloor (inject_Z z + (1 # 2))); [| apply Qfloor_half]. apply Qfloor_comp.
      rewrite Qabs_inject_nonneg by exact Hz. change (inject_Z (10 ^ 0)) with 1%Q. ring. }
    rewrite Z.pow_0_r, Z.div_1_r.
    generalize (numberToString z). intros t. induction t as [| c t IH]; cbn [append];
      [reflexivity | now rewrite IH].
  - assert (Qfloor (Qabs (inject_Z z) * inject_Z (10 ^ 1) + (1 # 2)) = z * 10) as ->.
    { transitivity (Qfloor (inject_Z (z * 10) + (1 # 2))); [| apply Qfloor_half].
      apply Qfloor_comp.
      rewrite Qabs_inject_nonneg by exact Hz. now rewrite inject_Z_mult. }
    change (10 ^ 1) with 10.
    rewrite Z.div_mul, Z.mod_mul by lia. reflexivity.
Qed.

(** [fmtBytes] counts the value in the largest of B, KB, MB, GB and TB
    that it reaches, with one decimal below ten and none from ten on.  So
    a value below ten bytes reads like "7.0 B" and one below 1024 like
    "512 B".  Rounding comes after the choice of the unit: the values
    from 1023.5 KB up to 1 MB all read "1024 KB". *)
Theorem fmtBytes_unit bytes :
  (let v := (inject_Z bytes / inject_Z (1024 ^ Z.of_nat (unitIndex bytes)))%Q in
   fmtBytes bytes
   = toFixed (if Qle_bool 10 v then 0 else 1) v ++ " " ++ nth (unitIndex bytes) units "")
  /\ (0 <= bytes < 10 -> fmtBytes bytes = numberToString bytes ++ ".0 B")
  /\ (10 <= bytes < 1024 -> fmtBytes bytes = numberToString bytes ++ " B")
  /\ (1048064 <= bytes < 1048576 -> fmtBytes bytes = "1024 KB").
Proof.
  assert (let v := (inject_Z bytes / inject_Z (1024 ^ Z.of_nat (unitIndex bytes)))%Q in
          fmtBytes bytes
          = toFixed (if Qle_bool 10 v then 0 else 1) v ++ " " ++ nth (unitIndex bytes) units "")
    as G.
  { intros v. unfold fmtBytes.
    destruct (scaleLoop_unit bytes (List.length units - 1) 0 (inject_Z bytes))
      as (v' & -> & E); [reflexivity | | now left |].
    - change (inject_Z (1024 ^ Z.of_nat 0)) with 1%Q. field.
    - fold v in E. rewrite (Qle_bool_ext 10 v' v E), (toFixed_ext _ v' v E). reflexivity. }
  assert (forall z, (inject_Z z / inject_Z (1024 ^ Z.of_nat 0) == inject_Z z)%Q) as U0
    by (intros z; change (inject_Z (1024 ^ Z.of_nat 0)) with 1%Q; field).
  split; [exact G |]. split; [| split].
  - intros H. rewrite G. cbv zeta.
    rewrite (unitIndex_of bytes 0); [| lia | now left | right; cbn; lia].
    rewrite (Qle_bool_ext 10 _ _ (U0 bytes)), (toFixed_ext _ _ _ (U0 bytes)).
    assert (Qle_bool 10 (inject_Z bytes) = false) as ->.
    { apply not_true_iff_false. intros X. apply Qle_bool_iff in X.
      change 10%Q with (inject_Z 10) in X. rewrite <- Zle_Qle in X. lia. }
    destruct (toFixed_whole bytes ltac:(lia)) as [_ ->]. cbn [nth units].
    now rewrite string_app_assoc.
  - intros H. rewrite G. cbv zeta.
    rewrite (unitIndex_of bytes 0); [| lia | now left | right; cbn; lia].
    rewrite (Qle_bool_ext 10 _ _ (U0 bytes)), (toFixed_ext _ _ _ (U0 bytes)).
    assert (Qle_bool 10 (inject_Z bytes) = true) as ->.
    { apply Qle_bool_iff. change 10%Q with (inject_Z 10). rewrite <- Zle_Qle. lia. }
    destruct (toFixed_whole bytes ltac:(lia)) as [-> _]. reflexivity.
  - intros H. rewrite G. cbv zeta.
    rewrite (unitIndex_of bytes 1); [| lia | right; cbn; lia | right; cbn; lia].
    change (inject_Z (1024 ^ Z.of_nat 1)) with 1024%Q.
    assert (10235 # 10 <= inject_Z bytes / 1024)%Q as Lo'.
    { apply Qle_shift_div_l; [reflexivity |].
      setoid_replace ((10235 # 10) * 1024)%Q with (inject_Z 1048064) by reflexivity.
      rewrite <- Zle_Qle. lia. }
    assert (inject_Z bytes / 1024 < 1024)%Q as Hi.
    { apply Qlt_shift_div_r; [reflexivity |].
      change (1024 * 1024)%Q with (inject_Z 1048576). rewrite <- Zlt_Qlt. lia. }
    set (v := (inject_Z bytes / 1024)%Q) in *.
    assert (Qle_bool 10 v = true) as -> by (apply Qle_bool_iff; lra).
    unfold toFixed.
    assert (Qle_bool 0 v = true) as -> by (apply Qle_bool_iff; lra).
    assert (Qfloor (Qabs v * inject_Z (10 ^ Z.of_nat 0) + (1 # 2)) = 1024) as ->.
    { change (inject_Z (10 ^ Z.of_nat 0)) with 1%Q.
      assert (Qabs v == v)%Q as -> by (apply Qabs_pos; lra).
      apply Qfloor_between; [change (inject_Z 1024) with 1024%Q; lra |].
      change (inject_Z (1024 + 1)) with 1025%Q. lra. }
    reflexivity.
Qed.

(** ** The class of a change *)

Lemma delta_sign c p :
  0 < p ->
  (0 <= mulDouble (divDouble (subDouble (inject_Z c) (inject_Z p)) (inject_Z p)) 100)%Q
  <-> p <= c.
Proof.
  intros Hp.
  assert (0 < inject_Z p)%Q as Pp by (change 0%Q with (inject_Z 0); now rewrite <- Zlt_Qlt).
  assert (0 < / inject_Z p)%Q as Pi by now apply Qinv_lt_0_compat.
  unfold mulDouble, divDouble, subDouble. rewrite roundDouble_nonneg.
  set (quotient := roundDouble (roundDouble (inject_Z c - inject_Z p) / inject_Z p)).
  assert (0 <= quotient * 100 <-> 0 <= quotient)%Q as -> by (split; intros; lra).
  unfold quotient. rewrite roundDouble_nonneg.
  set (difference := roundDouble (inject_Z c - inject_Z p)).
  assert (0 <= difference / inject_Z p <-> 0 <= difference)%Q as ->.
  { unfold Qdiv. split; intros H.
    - destruct (Qlt_le_dec difference 0) as [N |]; [exfalso | assumption].
      assert (0 < - difference * / inject_Z p)%Q by (apply Qmult_lt_0_compat; [lra | exact Pi]).
      lra.
    - apply Qmult_le_0_compat; [exact H | now apply Qlt_le_weak]. }
  unfold difference. rewrite roundDouble_nonneg.
  rewrite Zle_Qle. split; intros; lra.
Qed.

(** The change shown beside a metric is marked as a rise exactly when the
    count did not fall: with a count before, when the current count is at
    least as high; with none before and none now as well.  With none
    before and some now there is no percentage, and no mark. *)
Theorem deltaClass_withDelta current previous :
  0 <= previous ->
  deltaClass (withDelta current previous)
  = if previous =? 0 then (if current =? 0 then "delta-up" else "")
    else if previous <=? current then "delta-up" else "delta-down".
Proof.
  intros Hp. unfold deltaClass, withDelta. cbn [deltaPercent].
  destruct (Z.eqb_spec previous 0) as [-> | Hne].
  - destruct (current =? 0); reflexivity.
  - pose proof (delta_sign current previous ltac:(lia)) as S.
    destruct (Z.leb_spec previous current) as [L | L].
    + match goal with
      | |- context [Qle_bool 0 ?d] => assert (Qle_bool 0 d = true) as ->; [| reflexivity]
      end.
      apply Qle_bool_iff. now apply S.
    + match goal with
      | |- context [Qle_bool 0 ?d] => assert (Qle_bool 0 d = false) as ->; [| reflexivity]
      end.
      apply not_true_iff_false. intros X. apply Qle_bool_iff in X.
      apply S in X. lia.
Qed.

Lemma deltaClass_withDelta_example :
  deltaClass (withDelta 150 100) = "delta-up".
Proof.
  apply (deltaClass_withDelta 150 100). lia.
Defined.

End TemplateFacts.

(* ===================================================================== *)
(** * reporting.ts: the PDF, the uploads and the run records *)
(* ===================================================================== *)

Module RunFacts.
Import Js Types Period Cloudflare PageSpeed Reporting Run Samples RunSamples.
Import JsFacts ReportingFacts.
Local Open Scope string_scope.
Local Open Scope Z_scope.

(** ** The PDF *)

(** [renderPdfFromHtml] returns bytes exactly when the answer arrived
    with an ok status, its content type does not name JSON and its bytes
    could be read; in every other case it throws. *)
Theorem renderPdfFromHtml_ok_iff exchange pdf :
  renderPdfFromHtml exchange = Ok pdf
  <-> exists status text contentType payloadJson,
        exchange = PdfAnswered true status text contentType payloadJson (Ok pdf)
        /\ includes "application/json" (orElse contentType "") = false.
Proof.
  split.
  - destruct exchange as [e | ok status text contentType payloadJson bytes];
      cbn [renderPdfFromHtml]; [discriminate |].
    destruct ok; cbn [negb].
    2:{ destruct text; cbn [bind]; discriminate. }
    destruct (includes "application/json" (orElse contentType "")) eqn:I.
    + destruct payloadJson; cbn [bind]; discriminate.
    + intros ->. exists status, text, contentType, payloadJson. auto.
  - intros (status & text & contentType & payloadJson & -> & I).
    cbn [renderPdfFromHtml negb]. now rewrite I.
Qed.

(** ** The writes of a run *)

Lemma safeInsertRunStart_eq sv cfg runId monthKey trigger startedAt :
  safeInsertRunStart sv cfg runId monthKey trigger startedAt
  = [ InsertRunStart runId (siteClientId cfg) monthKey (triggerName trigger) "started"
        startedAt ].
Proof. unfold safeInsertRunStart. now destruct (outcome sv _). Qed.

Lemma safeUpdateRunFinish_eq sv runId payload :
  safeUpdateRunFinish sv runId payload = [ UpdateRunFinish runId payload ].
Proof. unfold safeUpdateRunFinish. now destruct (outcome sv _). Qed.

Lemma putBoth_writes sv htmlPut pdfPut :
  snd (putBoth sv htmlPut pdfPut) = [ htmlPut; pdfPut ].
Proof. reflexivity. Qed.

Lemma putBoth_ok sv htmlPut pdfPut :
  fst (putBoth sv htmlPut pdfPut) = Ok tt
  <-> outcome sv htmlPut = Ok tt /\ outcome sv pdfPut = Ok tt.
Proof.
  unfold putBoth. cbn [fst].
  destruct (outcome sv htmlPut) as [[] | e1]; destruct (outcome sv pdfPut) as [[] | e2];
    try destruct (pdfPutSettlesFirst sv); split; try intros [H1 H2]; try discriminate; auto.
Qed.


Lemma generateMonthlySnapshot_eq pf cfg env w monthOverride period agg monthLabel :
  buildMonthPeriod (now w) monthOverride = Ok period ->
  aggregate pf cfg w period = Ok agg ->
  formatMonthLabel pf (monthKey period) (timezoneOf env) = Ok monthLabel ->
  generateMonthlySnapshot pf cfg env w monthOverride
  = Ok (assembleSnapshot cfg (timezoneOf env) period monthLabel agg
          (generatedAtClock w) (random w)).
Proof.
  intros Hp Ha Hl. unfold generateMonthlySnapshot. rewrite Hp. cbn [bind].
  rewrite Ha. cbn [bind]. rewrite Hl. reflexivity.
Qed.

(** A run that returns a report has asked for five writes, in this
    order: the start record, the HTML and the PDF under
    reports/<client>/<month>, the upsert of the month's row with these
    keys and the snapshot, and the finish record with the status
    "success"; the uploads and the upsert were accepted, and the report
    names the run, the month, the two keys and the snapshot. *)
Theorem successful_run_stores_report pf cfg env sv monthOverride trigger report :
  fst (generateMonthlyReport pf cfg env sv monthOverride trigger) = Ok report ->
  exists period snapshot pdf,
    buildMonthPeriod (now (world sv)) monthOverride = Ok period
    /\ generateMonthlySnapshot pf cfg env (world sv) monthOverride = Ok snapshot
    /\ renderPdfFromHtml (pdfExchange sv (renderReportHtml sv snapshot)) = Ok pdf
    /\ report
       = {| reportRunId := runId sv;
            reportMonth := monthKey period;
            htmlKey := htmlKeyOf cfg (monthKey period);
            pdfKey := pdfKeyOf cfg (monthKey period);
            reportSnapshot := snapshot |}
    /\ let htmlPut :=
         PutObject (htmlKeyOf cfg (monthKey period)) "text/html; charset=utf-8"
           (renderReportHtml sv snapshot) in
       let pdfPut := PutObject (pdfKeyOf cfg (monthKey period)) "application/pdf" pdf in
       let upsert :=
         UpsertMonthlyReport (siteClientId cfg) (siteZoneId cfg) (siteDomain cfg)
           (monthKey period) (timezoneOf env) (generatedAt snapshot)
           (htmlKeyOf cfg (monthKey period)) (pdfKeyOf cfg (monthKey period)) snapshot in
       snd (generateMonthlyReport pf cfg env sv monthOverride trigger)
       = [ InsertRunStart (runId sv) (siteClientId cfg) (monthKey period)
             (triggerName trigger) "started" (nowIso (startedAtClock sv));
           htmlPut; pdfPut; upsert;
           UpdateRunFinish (runId sv)
             {| finishStatus := "success";
                finishedAt := nowIso (finishedAtClock sv);
                finishHtmlKey := Some (htmlKeyOf cfg (monthKey period));
                finishPdfKey := Some (pdfKeyOf cfg (monthKey period));
                warningCount := Z.of_nat (List.length (warnings snapshot));
                finishErrorMessage := None |} ]
       /\ outcome sv htmlPut = Ok tt /\ outcome sv pdfPut = Ok tt
       /\ outcome sv upsert = Ok tt.
Proof.
  unfold generateMonthlyReport.
  destruct (buildMonthPeriod (now (world sv)) monthOverride) as [period | e0] eqn:Hp;
    [| cbn [fst]; discriminate].
  unfold tryBlock.
  destruct (aggregate pf cfg (world sv) period) as [agg | e1] eqn:Ha;
    [| cbn [fst]; discriminate].
  destruct (formatMonthLabel pf (monthKey period) (timezoneOf env)) as [monthLabel | e2] eqn:Hl;
    [| cbn [fst]; discriminate].
  pose proof (generateMonthlySnapshot_eq pf cfg env (world sv) monthOverride period agg
                monthLabel Hp Ha Hl) as Hs.
  set (snapshot := assembleSnapshot cfg (timezoneOf env) period monthLabel agg
                     (generatedAtClock (world sv)) (random (world sv))) in *.
  destruct (renderPdfFromHtml (pdfExchange sv (renderReportHtml sv snapshot)))
    as [pdf | e3] eqn:Hpdf; [| cbn [fst]; discriminate].
  fold (htmlKeyOf cfg (monthKey period)) (pdfKeyOf cfg (monthKey period)).
  set (htmlPut := PutObject (htmlKeyOf cfg (monthKey period)) "text/html; charset=utf-8"
                    (renderReportHtml sv snapshot)).
  set (pdfPut := PutObject (pdfKeyOf cfg (monthKey period)) "application/pdf" pdf).
  pose proof (putBoth_ok sv htmlPut pdfPut) as Hboth.
  pose proof (putBoth_writes sv htmlPut pdfPut) as Hputs.
  destruct (putBoth sv htmlPut pdfPut) as [stored puts]. cbn [fst snd] in Hboth, Hputs.
  subst puts. destruct stored as [[] | e4]; [| cbn [fst]; discriminate].
  destruct (proj1 Hboth eq_refl) as [Hh Hq].
  unfold persistSnapshot.
  assert (clientId snapshot = siteClientId cfg /\ zoneId snapshot = siteZoneId cfg
          /\ domain snapshot = siteDomain cfg /\ reportMonthKey snapshot = monthKey period
          /\ timezone snapshot = timezoneOf env) as (-> & -> & -> & -> & ->)
    by (repeat split; reflexivity).
  set (upsert := UpsertMonthlyReport (siteClientId cfg) (siteZoneId cfg) (siteDomain cfg)
                   (monthKey period) (timezoneOf env) (generatedAt snapshot)
                   (htmlKeyOf cfg (monthKey period)) (pdfKeyOf cfg (monthKey period)) snapshot).
  destruct (outcome sv upsert) as [[] | e5] eqn:Hu; [| cbn [fst]; discriminate].
  rewrite safeInsertRunStart_eq, safeUpdateRunFinish_eq. cbn [fst snd app].
  intros E. apply (f_equal (fun r => match r with Ok v => v | Throw _ => report end)) in E.
  cbv beta iota in E. subst report.
  exists period, snapshot, pdf.
  split; [reflexivity |]. split; [exact Hs |]. split; [exact Hpdf |]. split; [reflexivity |].
  cbv zeta. fold htmlPut pdfPut upsert.
  split; [reflexivity |]. split; [exact Hh |]. split; [exact Hq | exact Hu].
Qed.

Lemma sample_report_run :
  fst (generateMonthlyReport samplePlatform SITE_CONFIG sampleEnv sampleServices
         (Some "2026-01") Manual)
  = Ok sampleReport.
Proof. vm_compute. reflexivity. Qed.

Lemma successful_run_january_2026 :
  exists period snapshot pdf,
    buildMonthPeriod (now (world sampleServices)) (Some "2026-01") = Ok period
    /\ generateMonthlySnapshot samplePlatform SITE_CONFIG sampleEnv (world sampleServices)
         (Some "2026-01") = Ok snapshot
    /\ renderPdfFromHtml (pdfExchange sampleServices (renderReportHtml sampleServices snapshot))
       = Ok pdf
    /\ sampleReport
       = {| reportRunId := runId sampleServices;
            reportMonth := monthKey period;
            htmlKey := htmlKeyOf SITE_CONFIG (monthKey period);
            pdfKey := pdfKeyOf SITE_CONFIG (monthKey period);
            reportSnapshot := snapshot |}.
Proof.
  destruct (successful_run_stores_report samplePlatform SITE_CONFIG sampleEnv sampleServices
              (Some "2026-01") Manual sampleReport sample_report_run)
    as (period & snapshot & pdf & H1 & H2 & H3 & H4 & _).
  exists period, snapshot, pdf. auto.
Defined.




(** Whether D1 accepts or refuses the statements on [report_runs] makes no
    difference to a run: with any other answers to them, the run returns
    the same result and asks for the same writes. *)
Theorem run_records_cannot_fail_a_run pf cfg env sv monthOverride trigger o :
  (forall w, isRunRecord w = false -> o w = outcome sv w) ->
  generateMonthlyReport pf cfg env (withOutcome o sv) monthOverride trigger
  = generateMonthlyReport pf cfg env sv monthOverride trigger.
Proof.
  intros Ho. unfold generateMonthlyReport.
  change (world (withOutcome o sv)) with (world sv).
  destruct (buildMonthPeriod (now (world sv)) monthOverride) as [period | e0]; [| reflexivity].
  rewrite !safeInsertRunStart_eq.
  assert (tryBlock pf cfg env (withOutcome o sv) period = tryBlock pf cfg env sv period) as ->.
  { unfold tryBlock. change (world (withOutcome o sv)) with (world sv).
    destruct (aggregate pf cfg (world sv) period) as [agg | e1]; [| reflexivity].
    destruct (formatMonthLabel pf (monthKey period) (timezoneOf env)) as [monthLabel | e2];
      [| reflexivity].
    change (renderReportHtml (withOutcome o sv)) with (renderReportHtml sv).
    change (pdfExchange (withOutcome o sv)) with (pdfExchange sv).
    destruct (renderPdfFromHtml _) as [pdf | e3]; [| reflexivity].
    unfold putBoth, persistSnapshot. rewrite !safeUpdateRunFinish_eq.
    change (outcome (withOutcome o sv)) with o.
    change (pdfPutSettlesFirst (withOutcome o sv)) with (pdfPutSettlesFirst sv).
    change (runId (withOutcome o sv)) with (runId sv).
    change (finishedAtClock (withOutcome o sv)) with (finishedAtClock sv).
    rewrite !Ho by reflexivity. reflexivity. }
  destruct (tryBlock pf cfg env sv period) as [[[report | error] writes] collected];
    [reflexivity |].
  rewrite !safeUpdateRunFinish_eq. reflexivity.
Qed.

Lemma run_records_cannot_fail_january_2026 :
  generateMonthlyReport samplePlatform SITE_CONFIG sampleEnv
    (withOutcome (fun _ => Ok tt) sampleServices) (Some "2026-01") Manual
  = generateMonthlyReport samplePlatform SITE_CONFIG sampleEnv sampleServices
      (Some "2026-01") Manual.
Proof.
  apply (run_records_cannot_fail_a_run samplePlatform SITE_CONFIG sampleEnv sampleServices
           (Some "2026-01") Manual (fun _ => Ok tt)).
  intros w H. cbn [outcome sampleServices]. now rewrite H.
Defined.


End RunFacts.

(* ===================================================================== *)
(** * index.ts: who may start a run *)
(* ===================================================================== *)

Module WorkerFacts.
Import Js Types Period Reporting Run Worker Samples RunSamples.
Import JsFacts PeriodFacts.
Local Open Scope string_scope.
Local Open Scope Z_scope.

Lemma run_route request :
  isRunRequest request ->
  String.eqb (pathname request) "/health" = false
  /\ String.eqb (pathname request) "/run" && String.eqb (method request) "GET" = true.
Proof. intros [-> ->]. split; reflexivity. Qed.

(** A request for a manual run starts the report only when a token is
    configured and the request carries it in [x-run-token].  Without a
    configured token the answer is 403, with a missing or different token
    it is 401, and in both cases the report generator has no part in the
    answer.  With the right token the answer is 200 with the keys of the
    report, or 500 with the message of the error that ended the run. *)
Theorem run_requires_configured_token instanceOfError RUN_TOKEN clock generate request :
  isRunRequest request ->
  let response := fetch instanceOfError RUN_TOKEN clock generate request in
  (~ configured RUN_TOKEN ->
     status response = 403
     /\ forall generate', fetch instanceOfError RUN_TOKEN clock generate' request = response)
  /\ (forall token,
        RUN_TOKEN = Some token -> token <> "" -> runTokenHeader request <> Some token ->
        response = json (ErrorBody "Unauthorized") (Some 401)
        /\ forall generate',
             fetch instanceOfError RUN_TOKEN clock generate' request = response)
  /\ (forall token,
        RUN_TOKEN = Some token -> token <> "" -> runTokenHeader request = Some token ->
        (forall report, generate (monthParam request) = Ok report ->
           response
           = json (RunBody (reportMonth report) (htmlKey report) (pdfKey report)
                     (warnings (reportSnapshot report))) None)
        /\ (forall error, generate (monthParam request) = Throw error ->
              response = json (ErrorBody (errorMessage instanceOfError error)) (Some 500)))
  /\ (status response = 200 ->
        exists token report,
          RUN_TOKEN = Some token /\ token <> "" /\ runTokenHeader request = Some token
          /\ generate (monthParam request) = Ok report).
Proof.
  intros Hrun response. destruct (run_route request Hrun) as [R1 R2].
  assert (forall g, fetch instanceOfError RUN_TOKEN clock g request
                    = match getRunAuthError RUN_TOKEN request with
                      | Some authError =>
                          json (ErrorBody authError)
                            (Some (if String.eqb authError "Unauthorized" then 401 else 403))
                      | None => runReport instanceOfError g request
                      end) as F.
  { intros g. unfold fetch. now rewrite R1, R2. }
  subst response. split; [| split; [| split]].
  - intros Hno.
    assert (getRunAuthError RUN_TOKEN request
            = Some "Manual /run is disabled. Configure RUN_TOKEN to enable it.") as A.
    { unfold getRunAuthError. destruct RUN_TOKEN as [[| c t] |]; try reflexivity.
      exfalso. apply Hno. exists (String c t). split; [reflexivity | discriminate]. }
    split; [rewrite F, A; reflexivity |].
    intros g'. now rewrite !F, A.
  - intros token Ht Hne Hhdr.
    assert (getRunAuthError RUN_TOKEN request = Some "Unauthorized") as A.
    { unfold getRunAuthError, tokenMatches. rewrite Ht.
      destruct token as [| c t]; [congruence |].
      destruct (runTokenHeader request) as [h |]; [| reflexivity].
      destruct (String.eqb_spec h (String c t)) as [-> | _]; [congruence | reflexivity]. }
    split; [rewrite F, A; reflexivity |].
    intros g'. now rewrite !F, A.
  - intros token Ht Hne Hhdr.
    assert (getRunAuthError RUN_TOKEN request = None) as A.
    { unfold getRunAuthError, tokenMatches. rewrite Ht, Hhdr.
      destruct token as [| c t]; [congruence |]. now rewrite String.eqb_refl. }
    rewrite F, A. unfold runReport.
    split; [intros report -> | intros error ->]; reflexivity.
  - rewrite F. unfold getRunAuthError, tokenMatches.
    destruct RUN_TOKEN as [[| c t] |]; cbn [json status]; try discriminate.
    destruct (runTokenHeader request) as [h |]; [| cbn [json status]; discriminate].
    destruct (String.eqb_spec h (String c t)) as [-> | _]; [| cbn [json status]; discriminate].
    unfold runReport. destruct (generate (monthParam request)) as [report | error] eqn:G;
      cbn [json status]; [| discriminate].
    intros _. exists (String c t), report. repeat split; auto. discriminate.
Qed.

Lemma run_requires_configured_token_example :
  let request :=
    {| pathname := "/run"; method := "GET"; runTokenHeader := None;
       monthParam := Some "2026-01" |} in
  let response :=
    fetch (fun _ => true) (Some "secret") 0
      (fun _ => Throw (newError "not reached")) request in
  response = json (ErrorBody "Unauthorized") (Some 401).
Proof.
  intros request response.
  destruct (run_requires_configured_token (fun _ => true) (Some "secret") 0
              (fun _ => Throw (newError "not reached")) request)
    as (_ & H & _); [split; reflexivity |].
  destruct (H "secret") as [E _]; [reflexivity | discriminate | discriminate |].
  exact E.
Defined.

(** In the earlier state of index.ts a Worker without a configured token
    lets every manual run through: the answer is what the run makes it,
    whatever the request carries. *)
Theorem earlier_run_is_open_without_token instanceOfError RUN_TOKEN clock generate request :
  isRunRequest request -> ~ configured RUN_TOKEN ->
  fetch_earlier instanceOfError RUN_TOKEN clock generate request
  = runReport instanceOfError generate request.
Proof.
  intros Hrun Hno. destruct (run_route request Hrun) as [R1 R2].
  unfold fetch_earlier. rewrite R1, R2.
  assert (hasValidRunToken RUN_TOKEN request = true) as ->; [| reflexivity].
  unfold hasValidRunToken. destruct RUN_TOKEN as [[| c t] |]; try reflexivity.
  exfalso. apply Hno. exists (String c t). split; [reflexivity | discriminate].
Qed.

Lemma earlier_run_is_open_example :
  let request :=
    {| pathname := "/run"; method := "GET"; runTokenHeader := None; monthParam := None |} in
  fetch_earlier (fun _ => true) None 0 (fun _ => Throw (newError "upstream down")) request
  = runReport (fun _ => true) (fun _ => Throw (newError "upstream down")) request.
Proof.
  intros request.
  apply (earlier_run_is_open_without_token (fun _ => true) None 0
           (fun _ => Throw (newError "upstream down")) request).
  - split; reflexivity.
  - intros (token & E & _). discriminate E.
Defined.

(** ** A manual run with a month that does not parse *)

Lemma parseMonthOverride_messages s e :
  parseMonthOverride s = Throw e ->
  e = newError "month must use YYYY-MM format"
  \/ e = newError "month must be between 01 and 12".
Proof.
  unfold parseMonthOverride. destruct (matchMonthKey s) as [[ys ms] |].
  - destruct ((Number_digits ms <? 1) || (Number_digits ms >? 12)); [| discriminate].
    intros [= <-]. now right.
  - intros [= <-]. now left.
Qed.

(** An authorised manual run whose month parameter is not empty and is
    not a month YYYY-MM is answered with the status 500 and one of the two
    messages of the month check, and the run writes nothing, not even its
    start record. *)
Theorem manual_run_with_bad_month pf cfg env sv RUN_TOKEN clock request token month :
  isRunRequest request ->
  RUN_TOKEN = Some token -> token <> "" -> runTokenHeader request = Some token ->
  monthParam request = Some month -> month <> "" -> ~ validOverride month ->
  (forall message, instanceOfError sv (newError message) = true) ->
  let run := fun monthOverride => generateMonthlyReport pf cfg env sv monthOverride Manual in
  let response :=
    fetch (instanceOfError sv) RUN_TOKEN clock (fun monthOverride => fst (run monthOverride))
      request in
  (response = json (ErrorBody "month must use YYYY-MM format") (Some 500)
   \/ response = json (ErrorBody "month must be between 01 and 12") (Some 500))
  /\ snd (run (monthParam request)) = [].
Proof.
  intros Hrun Ht Hne Hhdr Hm Hmne Hinv Herr run response.
  destruct (run_route request Hrun) as [R1 R2].
  assert (exists e, parseMonthOverride month = Throw e) as [e He]
    by now apply parseMonthOverride_throws_iff.
  assert (buildMonthPeriod (now (world sv)) (Some month) = Throw e) as Hp.
  { unfold buildMonthPeriod. rewrite truthy_nonempty by exact Hmne. now rewrite He. }
  assert (run (Some month) = (Throw e, [])) as Hr.
  { unfold run, generateMonthlyReport. now rewrite Hp. }
  split; [| now rewrite Hm, Hr].
  assert (response = json (ErrorBody (errMessage e)) (Some 500)) as ->.
  { subst response. unfold fetch. rewrite R1, R2.
    assert (getRunAuthError RUN_TOKEN request = None) as ->.
    { unfold getRunAuthError, tokenMatches. rewrite Ht, Hhdr.
      destruct token as [| c t]; [congruence |]. now rewrite String.eqb_refl. }
    unfold runReport, errorMessage. rewrite Hm, Hr. cbn [fst].
    destruct (parseMonthOverride_messages _ _ He) as [-> | ->]; now rewrite Herr. }
  destruct (parseMonthOverride_messages _ _ He) as [-> | ->]; [left | right]; reflexivity.
Qed.

Lemma manual_run_with_bad_month_example :
  let request :=
    {| pathname := "/run"; method := "GET"; runTokenHeader := Some "secret";
       monthParam := Some "2026-13" |} in
  let run := fun monthOverride =>
    generateMonthlyReport samplePlatform SITE_CONFIG sampleEnv sampleServices monthOverride
      Manual in
  let response :=
    fetch (instanceOfError sampleServices) (Some "secret") 0
      (fun monthOverride => fst (run monthOverride)) request in
  (response = json (ErrorBody "month must use YYYY-MM format") (Some 500)
   \/ response = json (ErrorBody "month must be between 01 and 12") (Some 500))
  /\ snd (run (monthParam request)) = [].
Proof.
  intros request.
  apply (manual_run_with_bad_month samplePlatform SITE_CONFIG sampleEnv sampleServices
           (Some "secret") 0 request "secret" "2026-13").
  - split; reflexivity.
  - reflexivity.
  - discriminate.
  - reflexivity.
  - reflexivity.
  - discriminate.
  - apply parseMonthOverride_throws_iff. eexists. vm_compute. reflexivity.
  - intros message. reflexivity.
Defined.

End WorkerFacts.
